(** * viewport-sense: the viewport state engine

    A shallow embedding of [src/core/viewport.ts] (class [ViewportCore]) and
    [src/core/events.ts] (class [EventManager]), and the properties of the
    engine that the specification states about them.

    Conventions of the embedding
    - pixel quantities ([window.innerWidth], thresholds) are integers ([Z]);
      [devicePixelRatio] is a rational ([Q]);
    - a plain JavaScript object with numeric values is its list of own
      properties in insertion order ([JsObject.t]); [Object.entries] and the
      spread syntax follow the property order of ECMAScript;
    - a JavaScript [Set] is its list of entries in which a deleted entry leaves
      an empty slot ([JsSet.t]), as in the ECMAScript definition of
      [Set.prototype.forEach], so that iteration over a set that is modified
      meanwhile behaves as in the language;
    - the browser (pending timers and animation frames, native listener
      registrations, the console) is an explicit part of the state. *)

From Stdlib Require Import ZArith QArith String Ascii List Bool Lia Arith.
From Stdlib Require Import Sorting.Sorted Sorting.Permutation.
Import ListNotations.

Local Open Scope string_scope.
Local Open Scope Z_scope.
Local Open Scope list_scope.

(* ===================================================================== *)
(** * Arrays: [Array.prototype.sort] with a comparator                     *)
(* ===================================================================== *)

Module JsArray.

Section Sort.
Context {A : Type}.
(** [cmp a b < 0]: [a] before [b]; [cmp a b > 0]: [b] before [a];
    [cmp a b = 0]: the original order is kept (the sort is stable since
    ECMAScript 2019). With a consistent comparator the result is unique;
    it is computed here by insertion from the right. *)
Variable cmp : A -> A -> Z.

Fixpoint insert (x : A) (l : list A) : list A :=
  match l with
  | [] => [x]
  | h :: t => if cmp x h >? 0 then h :: insert x t else x :: h :: t
  end.

Fixpoint sort (l : list A) : list A :=
  match l with
  | [] => []
  | x :: t => insert x (sort t)
  end.
End Sort.

End JsArray.

(* ===================================================================== *)
(** * Plain objects with numeric values                                    *)
(* ===================================================================== *)

Module JsObject.

(** Own properties, in the order of their creation. *)
Definition t := list (string * Z).

Definition digit_of (c : ascii) : option N :=
  let n := N_of_ascii c in
  if ((48 <=? n) && (n <=? 57))%N then Some (n - 48)%N else None.

Fixpoint parse_digits (s : string) (acc : N) : option N :=
  match s with
  | EmptyString => Some acc
  | String c s' =>
      match digit_of c with
      | Some d => parse_digits s' (10 * acc + d)%N
      | None => None
      end
  end.

(** A property key is an array index when it is the canonical decimal form
    of an integer between 0 and 2^32 - 2. *)
Definition array_index (k : string) : option N :=
  match k with
  | EmptyString => None
  | String c rest =>
      if Ascii.eqb c "0"%char
      then match rest with EmptyString => Some 0%N | _ => None end
      else match parse_digits k 0 with
           | Some n => if (n <=? 4294967294)%N then Some n else None
           | None => None
           end
  end.

Definition is_index (p : string * Z) : bool :=
  match array_index (fst p) with Some _ => true | None => false end.

Definition index_value (p : string * Z) : Z :=
  match array_index (fst p) with Some n => Z.of_N n | None => 0 end.

(** [o[k]]: [None] is [undefined]. *)
Fixpoint get (k : string) (o : t) : option Z :=
  match o with
  | [] => None
  | (k', v) :: o' => if String.eqb k k' then Some v else get k o'
  end.

(** [o[k] = v]: an existing property keeps its place. *)
Fixpoint set (k : string) (v : Z) (o : t) : t :=
  match o with
  | [] => [(k, v)]
  | (k', v') :: o' =>
      if String.eqb k k' then (k', v) :: o' else (k', v') :: set k v o'
  end.

(** [Object.entries(o)]: array-index keys in ascending numeric order, then
    the other keys in the order of their creation. *)
Definition entries (o : t) : list (string * Z) :=
  JsArray.sort (fun a b => index_value a - index_value b) (filter is_index o)
  ++ filter (fun p => negb (is_index p)) o.

Definition assign (target source : t) : t :=
  fold_left (fun acc p => set (fst p) (snd p) acc) (entries source) target.

(** [{ ...a, ...b }] *)
Definition spread (a b : t) : t := assign (assign [] a) b.

End JsObject.

(* ===================================================================== *)
(** * Configuration and viewport state ([src/types/index.ts])             *)
(* ===================================================================== *)

(** [ViewportConfig]: every option may be absent. *)
Record ViewportConfig := {
  opt_breakpoints : option JsObject.t;
  opt_debounceDelay : option Z;
  opt_enableTouch : option bool;
  opt_enableHighDPI : option bool;
  opt_customBreakpoints : option JsObject.t
}.

(** [Required<ViewportConfig>] *)
Record Config := {
  breakpoints : JsObject.t;
  debounceDelay : Z;
  enableTouch : bool;
  enableHighDPI : bool;
  customBreakpoints : JsObject.t
}.

Inductive Orientation := portrait | landscape.

Record ViewportState := {
  width : Z;
  height : Z;
  breakpoint : string;
  isMobile : bool;
  isTablet : bool;
  isDesktop : bool;
  isTouch : bool;
  orientation : Orientation;
  pixelRatio : Q;
  availableWidth : Z;
  availableHeight : Z
}.

Definition DEFAULT_BREAKPOINTS : JsObject.t :=
  [("xs", 0); ("sm", 576); ("md", 768); ("lg", 992); ("xl", 1200); ("xxl", 1400)].

Definition DEFAULT_CONFIG : Config := {|
  breakpoints := DEFAULT_BREAKPOINTS;
  debounceDelay := 100;
  enableTouch := true;
  enableHighDPI := true;
  customBreakpoints := []
|}.

Definition orElse {A : Type} (o : option A) (d : A) : A :=
  match o with Some a => a | None => d end.

(** [{ ...DEFAULT_CONFIG, ...config }]: an option that is present replaces
    the default as a whole. *)
Definition mergeConfig (config : ViewportConfig) : Config := {|
  breakpoints := orElse (opt_breakpoints config) (breakpoints DEFAULT_CONFIG);
  debounceDelay := orElse (opt_debounceDelay config) (debounceDelay DEFAULT_CONFIG);
  enableTouch := orElse (opt_enableTouch config) (enableTouch DEFAULT_CONFIG);
  enableHighDPI := orElse (opt_enableHighDPI config) (enableHighDPI DEFAULT_CONFIG);
  customBreakpoints :=
    orElse (opt_customBreakpoints config) (customBreakpoints DEFAULT_CONFIG)
|}.

(** The part of [window], [screen] and [navigator] that the engine reads. *)
Record Screen := {
  availWidth : option Z;
  availHeight : option Z
}.

Record Window := {
  innerWidth : Z;
  innerHeight : Z;
  devicePixelRatio : option Q;
  screen : option Screen;
  ontouchstart : bool;            (* 'ontouchstart' in window *)
  maxTouchPoints : option Z;      (* navigator.maxTouchPoints *)
  msMaxTouchPoints : option Z     (* navigator.msMaxTouchPoints *)
}.

(* ===================================================================== *)
(** * The pure part of [ViewportCore]                                      *)
(* ===================================================================== *)

Definition allBreakpoints (cfg : Config) : JsObject.t :=
  JsObject.spread (breakpoints cfg) (customBreakpoints cfg).

Definition mdBreakpoint (cfg : Config) : Z :=
  orElse (JsObject.get "md" (breakpoints cfg)) (orElse (JsObject.get "md" DEFAULT_BREAKPOINTS) 0).

Definition lgBreakpoint (cfg : Config) : Z :=
  orElse (JsObject.get "lg" (breakpoints cfg)) (orElse (JsObject.get "lg" DEFAULT_BREAKPOINTS) 0).

Definition calculateIsMobile (cfg : Config) (width : Z) : bool :=
  width <? mdBreakpoint cfg.

Definition calculateIsTablet (cfg : Config) (width : Z) : bool :=
  (width >=? mdBreakpoint cfg) && (width <? lgBreakpoint cfg).

(** [x > 0] where [x] may be [undefined]. *)
Definition positive (x : option Z) : bool :=
  match x with Some n => n >? 0 | None => false end.

Definition detectTouch (w : Window) : bool :=
  ontouchstart w || positive (maxTouchPoints w) || positive (msMaxTouchPoints w).

Definition sortedDescending (o : JsObject.t) : list (string * Z) :=
  JsArray.sort (fun a b => snd b - snd a) (JsObject.entries o).

Definition sortedAscending (o : JsObject.t) : list (string * Z) :=
  JsArray.sort (fun a b => snd a - snd b) (JsObject.entries o).

Definition calculateBreakpoint (cfg : Config) (width : Z) : string :=
  let allBreakpoints := allBreakpoints cfg in
  match find (fun p => width >=? snd p) (sortedDescending allBreakpoints) with
  | Some (name, _) => name
  | None =>
      match sortedAscending allBreakpoints with
      | smallestBreakpoint :: _ => fst smallestBreakpoint
      | [] => "xs"
      end
  end.

(** [window.devicePixelRatio || 1] *)
Definition ratioOrOne (r : option Q) : Q :=
  match r with
  | Some q => if Qeq_bool q 0 then 1%Q else q
  | None => 1%Q
  end.

Definition calculateState (cfg : Config) (w : Window) : ViewportState :=
  let width := innerWidth w in
  let height := innerHeight w in
  let pixelRatio := if enableHighDPI cfg then ratioOrOne (devicePixelRatio w) else 1%Q in
  let availableWidth :=
    orElse (match screen w with Some s => availWidth s | None => None end) width in
  let availableHeight :=
    orElse (match screen w with Some s => availHeight s | None => None end) height in
  let isMobile := calculateIsMobile cfg width in
  let isTablet := calculateIsTablet cfg width in
  let isDesktop := negb isMobile && negb isTablet in
  let isTouch := if enableTouch cfg then detectTouch w else false in
  let orientation := if width >? height then landscape else portrait in
  let breakpoint := calculateBreakpoint cfg width in
  {| width := width;
     height := height;
     breakpoint := breakpoint;
     isMobile := isMobile;
     isTablet := isTablet;
     isDesktop := isDesktop;
     isTouch := isTouch;
     orientation := orientation;
     pixelRatio := pixelRatio;
     availableWidth := availableWidth;
     availableHeight := availableHeight |}.

(* ===================================================================== *)
(** * Sets of callbacks                                                    *)
(* ===================================================================== *)

(** Callbacks are compared by identity; an identity is a number. *)
Definition Handler := nat.

Module JsSet.

(** [[SetData]]: the entries in insertion order; [None] is the empty slot
    that [delete] and [clear] leave behind. *)
Definition t := list (option nat).

Definition holds (v : nat) (e : option nat) : bool :=
  match e with Some x => Nat.eqb x v | None => false end.

Definition has (v : nat) (s : t) : bool := existsb (holds v) s.

Definition add (v : nat) (s : t) : t := if has v s then s else s ++ [Some v].

Definition delete (v : nat) (s : t) : t :=
  map (fun e => if holds v e then None else e) s.

Definition clear (s : t) : t := map (fun _ => None) s.

Definition values (s : t) : list nat :=
  flat_map (fun e => match e with Some x => [x] | None => [] end) s.

Definition size (s : t) : nat := length (values s).

(** [new Set(s)] *)
Definition copy (s : t) : t := map Some (values s).

End JsSet.

(* ===================================================================== *)
(** * Events                                                               *)
(* ===================================================================== *)

Inductive EventType :=
| resize | orientationchange | breakpointchange | touchchange | scroll | visibility.

Definition EventType_eqb (a b : EventType) : bool :=
  match a, b with
  | resize, resize | orientationchange, orientationchange
  | breakpointchange, breakpointchange | touchchange, touchchange
  | scroll, scroll | visibility, visibility => true
  | _, _ => false
  end.

(** Arguments passed to [emit]. *)
Inductive Value :=
| VState (s : ViewportState)
| VString (s : string)
| VOrientation (o : Orientation)
| VBool (b : bool).

Definition Emission := (EventType * list Value)%type.

(** What a subscriber's callback does when it is invoked: calls of [on] and
    [off] on the engine that invokes it, and possibly an exception at the
    end. The callbacks are the page's code, not the library's; a page is
    given by the script of each callback. *)
Inductive Call :=
| CallOn (e : EventType) (h : Handler)
| CallOff (e : EventType) (h : Handler)
| Throw.

Definition Page := Handler -> list Value -> list Call.

(* ===================================================================== *)
(** * The browser and the engine instance                                  *)
(* ===================================================================== *)

(** Callbacks that the engine hands to [setTimeout]. *)
Inductive TimerCallback :=
| DebounceElapsed       (* () => func(...args), in [debounce] *)
| OrientationSettled.   (* () => this.updateState(), in the orientationchange listener *)

(** Event targets on which the engine calls [addEventListener]. *)
Inductive Target :=
| WindowResize
| WindowOrientationChange
| VisualViewportResize
| MediaQueryChange (minWidth : Z).

(** Listeners that the engine registers. *)
Inductive NativeListener :=
| DebouncedUpdate       (* the function returned by [debounce] *)
| OrientationListener   (* () => { setTimeout(() => this.updateState(), 100) } *)
| MediaQueryListener.   (* () => { scheduleRAF(() => this.updateState()) } *)

Record Host := mkHost {
  window : option Window;          (* None: typeof window === 'undefined' *)
  hasResizeObserver : bool;        (* typeof ResizeObserver !== 'undefined' *)
  hasVisualViewport : bool;
  frames : list nat;               (* pending requestAnimationFrame handles *)
  timers : list (nat * Z * TimerCallback);  (* pending timers: handle, delay *)
  nextHandle : nat;
  registrations : list (Target * NativeListener);
  observed : bool;                 (* documentElement is observed *)
  console : list EventType         (* console.error calls of [emit] *)
}.

(** [EventManager] *)
Record Bus := mkBus {
  sets : list JsSet.t;             (* the Set objects created by [on] *)
  listeners : list (EventType * nat);  (* Map from event to its Set object *)
  rafId : option nat;
  rafCallbacks : JsSet.t;
  nextClosure : nat                (* identities of the closures passed to scheduleRAF *)
}.

(** [ViewportCore] *)
Record Core := mkCore {
  config : Config;
  currentState : option ViewportState;
  resizeObserver : bool;           (* this.resizeObserver !== null *)
  mediaQueryLists : list (string * Z);
  isDestroyed : bool;
  timeoutId : option nat           (* the variable captured by debouncedUpdate *)
}.

(** Observations, for stating properties: the calls of [emit], the
    invocations of subscribers, the executions of [updateState] that
    compute a state. *)
Record Log := mkLog {
  emitted : list Emission;
  invoked : list (EventType * Handler);
  recomputations : nat
}.

Record World := mkWorld {
  host : Host;
  bus : Bus;
  core : Core;
  log : Log
}.

Definition on_host (f : Host -> Host) (w : World) : World :=
  mkWorld (f (host w)) (bus w) (core w) (log w).
Definition on_bus (f : Bus -> Bus) (w : World) : World :=
  mkWorld (host w) (f (bus w)) (core w) (log w).
Definition on_core (f : Core -> Core) (w : World) : World :=
  mkWorld (host w) (bus w) (f (core w)) (log w).
Definition on_log (f : Log -> Log) (w : World) : World :=
  mkWorld (host w) (bus w) (core w) (f (log w)).

Definition set_window (v : option Window) (h : Host) : Host :=
  mkHost v (hasResizeObserver h) (hasVisualViewport h) (frames h) (timers h)
         (nextHandle h) (registrations h) (observed h) (console h).
Definition set_frames (v : list nat) (h : Host) : Host :=
  mkHost (window h) (hasResizeObserver h) (hasVisualViewport h) v (timers h)
         (nextHandle h) (registrations h) (observed h) (console h).
Definition set_timers (v : list (nat * Z * TimerCallback)) (h : Host) : Host :=
  mkHost (window h) (hasResizeObserver h) (hasVisualViewport h) (frames h) v
         (nextHandle h) (registrations h) (observed h) (console h).
Definition set_nextHandle (v : nat) (h : Host) : Host :=
  mkHost (window h) (hasResizeObserver h) (hasVisualViewport h) (frames h) (timers h)
         v (registrations h) (observed h) (console h).
Definition set_registrations (v : list (Target * NativeListener)) (h : Host) : Host :=
  mkHost (window h) (hasResizeObserver h) (hasVisualViewport h) (frames h) (timers h)
         (nextHandle h) v (observed h) (console h).
Definition set_observed (v : bool) (h : Host) : Host :=
  mkHost (window h) (hasResizeObserver h) (hasVisualViewport h) (frames h) (timers h)
         (nextHandle h) (registrations h) v (console h).
Definition set_console (v : list EventType) (h : Host) : Host :=
  mkHost (window h) (hasResizeObserver h) (hasVisualViewport h) (frames h) (timers h)
         (nextHandle h) (registrations h) (observed h) v.

Definition set_sets (v : list JsSet.t) (b : Bus) : Bus :=
  mkBus v (listeners b) (rafId b) (rafCallbacks b) (nextClosure b).
Definition set_listeners (v : list (EventType * nat)) (b : Bus) : Bus :=
  mkBus (sets b) v (rafId b) (rafCallbacks b) (nextClosure b).
Definition set_rafId (v : option nat) (b : Bus) : Bus :=
  mkBus (sets b) (listeners b) v (rafCallbacks b) (nextClosure b).
Definition set_rafCallbacks (v : JsSet.t) (b : Bus) : Bus :=
  mkBus (sets b) (listeners b) (rafId b) v (nextClosure b).
Definition set_nextClosure (v : nat) (b : Bus) : Bus :=
  mkBus (sets b) (listeners b) (rafId b) (rafCallbacks b) v.

Definition set_currentState (v : option ViewportState) (c : Core) : Core :=
  mkCore (config c) v (resizeObserver c) (mediaQueryLists c) (isDestroyed c) (timeoutId c).
Definition set_resizeObserver (v : bool) (c : Core) : Core :=
  mkCore (config c) (currentState c) v (mediaQueryLists c) (isDestroyed c) (timeoutId c).
Definition set_mediaQueryLists (v : list (string * Z)) (c : Core) : Core :=
  mkCore (config c) (currentState c) (resizeObserver c) v (isDestroyed c) (timeoutId c).
Definition set_isDestroyed (v : bool) (c : Core) : Core :=
  mkCore (config c) (currentState c) (resizeObserver c) (mediaQueryLists c) v (timeoutId c).
Definition set_timeoutId (v : option nat) (c : Core) : Core :=
  mkCore (config c) (currentState c) (resizeObserver c) (mediaQueryLists c) (isDestroyed c) v.

Definition set_emitted (v : list Emission) (l : Log) : Log :=
  mkLog v (invoked l) (recomputations l).
Definition set_invoked (v : list (EventType * Handler)) (l : Log) : Log :=
  mkLog (emitted l) v (recomputations l).
Definition set_recomputations (v : nat) (l : Log) : Log :=
  mkLog (emitted l) (invoked l) v.

(** Computations that may not terminate ([Set.prototype.forEach] over a set
    that grows while it is iterated) take a bound on the number of entries
    visited and return [None] when it is exceeded. *)
Definition andThen {A B : Type} (m : option A) (f : A -> option B) : option B :=
  match m with Some a => f a | None => None end.

Notation "m >>= f" := (andThen m f) (at level 50, left associativity).

(* ===================================================================== *)
(** * Browser primitives                                                   *)
(* ===================================================================== *)

Module Browser.

Definition setTimeout (cb : TimerCallback) (delay : Z) (w : World) : nat * World :=
  let id := nextHandle (host w) in
  (id, on_host (fun h => set_nextHandle (S id) (set_timers (timers h ++ [(id, delay, cb)]) h)) w).

(** [clearTimeout(undefined)] does nothing. *)
Definition clearTimeout (id : option nat) (w : World) : World :=
  match id with
  | Some i =>
      on_host (fun h =>
        set_timers (filter (fun t => negb (Nat.eqb (fst (fst t)) i)) (timers h)) h) w
  | None => w
  end.

Definition requestAnimationFrame (w : World) : nat * World :=
  let id := nextHandle (host w) in
  (id, on_host (fun h => set_nextHandle (S id) (set_frames (frames h ++ [id]) h)) w).

Definition cancelAnimationFrame (id : nat) (w : World) : World :=
  on_host (fun h => set_frames (filter (fun f => negb (Nat.eqb f id)) (frames h)) h) w.

Definition addEventListener (t : Target) (l : NativeListener) (w : World) : World :=
  on_host (fun h => set_registrations (registrations h ++ [(t, l)]) h) w.

End Browser.

(* ===================================================================== *)
(** * [EventManager] ([src/core/events.ts])                                *)
(* ===================================================================== *)

Module EventManager.

(** [this.listeners.get(event)]: the address of the Set object. *)
Definition mapGet (event : EventType) (m : list (EventType * nat)) : option nat :=
  match find (fun p => EventType_eqb (fst p) event) m with
  | Some p => Some (snd p)
  | None => None
  end.

Definition mapDelete (event : EventType) (m : list (EventType * nat)) :=
  filter (fun p => negb (EventType_eqb (fst p) event)) m.

Definition setAt (a : nat) (w : World) : JsSet.t := nth a (sets (bus w)) [].

Fixpoint update {A : Type} (n : nat) (f : A -> A) (l : list A) : list A :=
  match l, n with
  | [], _ => []
  | x :: t, O => f x :: t
  | x :: t, S n' => x :: update n' f t
  end.

Definition updateSet (a : nat) (f : JsSet.t -> JsSet.t) (w : World) : World :=
  on_bus (fun b => set_sets (update a f (sets b)) b) w.

Definition on (event : EventType) (callback : Handler) (w : World) : World :=
  let w1 :=
    match mapGet event (listeners (bus w)) with
    | Some _ => w
    | None =>
        on_bus (fun b =>
          set_listeners (listeners b ++ [(event, length (sets b))])
                        (set_sets (sets b ++ [[]]) b)) w
    end in
  match mapGet event (listeners (bus w1)) with
  | Some a => updateSet a (JsSet.add callback) w1
  | None => w1
  end.

Definition off (event : EventType) (callback : Handler) (w : World) : World :=
  match mapGet event (listeners (bus w)) with
  | Some a =>
      let w1 := updateSet a (JsSet.delete callback) w in
      if Nat.eqb (JsSet.size (setAt a w1)) 0
      then on_bus (fun b => set_listeners (mapDelete event (listeners b)) b) w1
      else w1
  | None => w
  end.

Section Emit.
Variable page : Page.

(** The body of a subscriber: the boolean tells whether it threw. *)
Fixpoint run (calls : list Call) (w : World) : World * bool :=
  match calls with
  | [] => (w, false)
  | CallOn e h :: rest => run rest (on e h w)
  | CallOff e h :: rest => run rest (off e h w)
  | Throw :: _ => (w, true)
  end.

(** [try { callback(...args) } catch (error) { console.error(...) }] *)
Definition invoke (event : EventType) (callback : Handler) (args : list Value)
    (w : World) : World :=
  let w0 := on_log (fun l => set_invoked (invoked l ++ [(event, callback)]) l) w in
  let (w1, threw) := run (page callback args) w0 in
  if threw then on_host (fun h => set_console (console h ++ [event]) h) w1 else w1.

(** [eventListeners.forEach(callback => ...)] on the Set object at address
    [a], from entry [index] on: the entries are read from the set as it is
    when they are reached. *)
Fixpoint forEach (fuel : nat) (a index : nat) (event : EventType)
    (args : list Value) (w : World) : option World :=
  match fuel with
  | O => None
  | S fuel' =>
      match nth_error (setAt a w) index with
      | None => Some w
      | Some None => forEach fuel' a (S index) event args w
      | Some (Some callback) =>
          forEach fuel' a (S index) event args (invoke event callback args w)
      end
  end.

Definition emit (fuel : nat) (event : EventType) (args : list Value)
    (w : World) : option World :=
  let w0 := on_log (fun l => set_emitted (emitted l ++ [(event, args)]) l) w in
  match mapGet event (listeners (bus w0)) with
  | Some a => forEach fuel a 0 event args w0
  | None => Some w0
  end.
End Emit.

(** The caller of [scheduleRAF] passes a closure it has just created. *)
Definition freshClosure (w : World) : nat * World :=
  let c := nextClosure (bus w) in
  (c, on_bus (set_nextClosure (S c)) w).

Definition scheduleRAF (callback : nat) (w : World) : World :=
  let w1 := on_bus (fun b => set_rafCallbacks (JsSet.add callback (rafCallbacks b)) b) w in
  match rafId (bus w1) with
  | None =>
      let (id, w2) := Browser.requestAnimationFrame w1 in
      on_bus (set_rafId (Some id)) w2
  | Some _ => w1
  end.

(** [debounce(func, delay)] returns a function over the variable
    [timeoutId]; this is one call of that function. The timer callback is
    [() => func(...args)]. *)
Definition debounce (delay : Z) (w : World) : World :=
  let w1 := Browser.clearTimeout (timeoutId (core w)) w in
  let (id, w2) := Browser.setTimeout DebounceElapsed delay w1 in
  on_core (set_timeoutId (Some id)) w2.

Definition destroy (w : World) : World :=
  let w1 :=
    on_bus (fun b => set_rafCallbacks (JsSet.clear (rafCallbacks b)) (set_listeners [] b)) w in
  match rafId (bus w1) with
  | Some id => on_bus (set_rafId None) (Browser.cancelAnimationFrame id w1)
  | None => w1
  end.

Definition getListenerCount (event : EventType) (w : World) : nat :=
  match mapGet event (listeners (bus w)) with
  | Some a => JsSet.size (setAt a w)
  | None => O
  end.

(** [this.listeners.size > 0] *)
Definition hasListeners (w : World) : bool :=
  negb (Nat.eqb (length (listeners (bus w))) 0).

End EventManager.

(* ===================================================================== *)
(** * [ViewportCore] ([src/core/viewport.ts])                              *)
(* ===================================================================== *)

Module ViewportCore.

(** What a method that reads a field of the state ends in: reading a
    property of [null] throws a [TypeError]. *)
Inductive Outcome (A : Type) :=
| Returned (a : A)
| TypeError.

Arguments Returned {A} a.
Arguments TypeError {A}.

Section Engine.
Variable page : Page.

(** [if (c) { this.eventManager.emit(event, ...args) }] *)
Definition emitWhen (c : bool) (fuel : nat) (event : EventType) (args : list Value)
    (w : World) : option World :=
  if c then EventManager.emit page fuel event args w else Some w.

Definition Orientation_eqb (a b : Orientation) : bool :=
  match a, b with
  | portrait, portrait | landscape, landscape => true
  | _, _ => false
  end.

Definition emitChangeEvents (fuel : nat) (previousState newState : ViewportState)
    (w : World) : option World :=
  emitWhen (negb (String.eqb (breakpoint previousState) (breakpoint newState)))
           fuel breakpointchange
           [VString (breakpoint newState); VString (breakpoint previousState)] w
  >>= emitWhen (negb (Orientation_eqb (orientation previousState) (orientation newState)))
           fuel orientationchange [VOrientation (orientation newState)]
  >>= emitWhen (negb (Bool.eqb (isTouch previousState) (isTouch newState)))
           fuel touchchange [VBool (isTouch newState)].

Definition updateState (fuel : nat) (w : World) : option World :=
  if isDestroyed (core w) then Some w
  else
    match window (host w) with
    | None => Some w
    | Some win =>
        let previousState := currentState (core w) in
        let newState := calculateState (config (core w)) win in
        let w1 :=
          on_log (fun l => set_recomputations (S (recomputations l)) l)
                 (on_core (set_currentState (Some newState)) w) in
        match previousState with
        | Some previous => emitChangeEvents fuel previous newState w1
        | None => Some w1
        end
        >>= EventManager.emit page fuel resize [VState newState]
    end.

(** [None] as the state is [null]. *)
Definition getState (fuel : nat) (w : World) : option (option ViewportState * World) :=
  match currentState (core w) with
  | Some _ => Some w
  | None => updateState fuel w
  end
  >>= fun w' => Some (currentState (core w'), w').

Definition on (event : EventType) (callback : Handler) (w : World) : World :=
  EventManager.on event callback w.

Definition off (event : EventType) (callback : Handler) (w : World) : World :=
  EventManager.off event callback w.

Definition setupEventListeners (w : World) : World :=
  let w1 := on_core (set_timeoutId None) w in
  let w2 :=
    if hasResizeObserver (host w1)
    then on_host (set_observed true) (on_core (set_resizeObserver true) w1)
    else Browser.addEventListener WindowResize DebouncedUpdate w1 in
  let w3 := Browser.addEventListener WindowOrientationChange OrientationListener w2 in
  if hasVisualViewport (host w3)
  then Browser.addEventListener VisualViewportResize DebouncedUpdate w3
  else w3.

Definition setupMediaQueries (w : World) : World :=
  fold_left
    (fun w' p =>
       on_core (fun c => set_mediaQueryLists (JsObject.set (fst p) (snd p) (mediaQueryLists c)) c)
               (Browser.addEventListener (MediaQueryChange (snd p)) MediaQueryListener w'))
    (JsObject.entries (allBreakpoints (config (core w)))) w.

Definition initialize (fuel : nat) (w : World) : option World :=
  match window (host w) with
  | None => Some w
  | Some _ => updateState fuel (setupMediaQueries (setupEventListeners w))
  end.

(** [new ViewportCore(config)] in the browser [h]. *)
Definition create (cfg : ViewportConfig) (h : Host) : World :=
  mkWorld h
          (mkBus [] [] None [] O)
          (mkCore (mergeConfig cfg) None false [] false None)
          (mkLog [] [] O).

Definition new (fuel : nat) (cfg : ViewportConfig) (h : Host) : option World :=
  initialize fuel (create cfg h).

Definition destroy (w : World) : World :=
  if isDestroyed (core w) then w
  else
    let w1 := on_core (set_isDestroyed true) w in
    let w2 :=
      if resizeObserver (core w1)
      then on_core (set_resizeObserver false) (on_host (set_observed false) w1)
      else w1 in
    let w3 := on_core (set_mediaQueryLists []) w2 in
    let w4 := EventManager.destroy w3 in
    on_core (set_currentState None) w4.

(** ** What the browser does to the engine *)

Inductive Signal :=
| ResizeObserved                (* the ResizeObserver reports a change *)
| Dispatch (t : Target)         (* an event is fired at a target *)
| AnimationFrame                (* the animation frame callbacks are run *)
| TimerElapsed (id : nat).      (* the timer with this handle expires *)

Definition Target_eqb (a b : Target) : bool :=
  match a, b with
  | WindowResize, WindowResize
  | WindowOrientationChange, WindowOrientationChange
  | VisualViewportResize, VisualViewportResize => true
  | MediaQueryChange x, MediaQueryChange y => x =? y
  | _, _ => false
  end.

Definition listener (l : NativeListener) (w : World) : World :=
  match l with
  | DebouncedUpdate => EventManager.debounce (debounceDelay (config (core w))) w
  | OrientationListener => snd (Browser.setTimeout OrientationSettled 100 w)
  | MediaQueryListener =>
      let (c, w1) := EventManager.freshClosure w in EventManager.scheduleRAF c w1
  end.

(** The callback given to [new ResizeObserver]. *)
Definition resizeObserverCallback (w : World) : World :=
  let (c, w1) := EventManager.freshClosure w in EventManager.scheduleRAF c w1.

(** The callback given to [requestAnimationFrame] in [scheduleRAF]; every
    callback in [rafCallbacks] is a [() => this.updateState()]. *)
Definition frameCallback (fuel : nat) (w : World) : option World :=
  let callbacks := JsSet.copy (rafCallbacks (bus w)) in
  let w1 :=
    on_bus (fun b => set_rafId None (set_rafCallbacks (JsSet.clear (rafCallbacks b)) b)) w in
  fold_left (fun m _ => m >>= updateState fuel) (JsSet.values callbacks) (Some w1).

Definition timerCallback (fuel : nat) (cb : TimerCallback) (w : World) : option World :=
  match cb with
  | DebounceElapsed => updateState fuel w
  | OrientationSettled => updateState fuel w
  end.

Definition deliver (fuel : nat) (s : Signal) (w : World) : option World :=
  match s with
  | ResizeObserved =>
      if observed (host w) then Some (resizeObserverCallback w) else Some w
  | Dispatch t =>
      Some (fold_left (fun w' r => if Target_eqb (fst r) t then listener (snd r) w' else w')
                      (registrations (host w)) w)
  | AnimationFrame =>
      fold_left (fun m _ => m >>= frameCallback fuel) (frames (host w))
                (Some (on_host (set_frames []) w))
  | TimerElapsed id =>
      match find (fun t => Nat.eqb (fst (fst t)) id) (timers (host w)) with
      | Some t => timerCallback fuel (snd t) (Browser.clearTimeout (Some id) w)
      | None => Some w
      end
  end.

(** ** The projections of the state

    [this.getState().isMobile] and the like: reading a property of [null]
    throws a [TypeError]. *)

Definition project {A : Type} (field : ViewportState -> A) (fuel : nat) (w : World)
    : option (Outcome A * World) :=
  getState fuel w >>= fun r =>
    Some (match fst r with
          | Some s => Returned (field s)
          | None => TypeError
          end, snd r).

Definition isMobile (fuel : nat) (w : World) : option (Outcome bool * World) :=
  project (fun s => isMobile s) fuel w.

Definition isTablet (fuel : nat) (w : World) : option (Outcome bool * World) :=
  project (fun s => isTablet s) fuel w.

Definition isDesktop (fuel : nat) (w : World) : option (Outcome bool * World) :=
  project (fun s => isDesktop s) fuel w.

Definition isTouch (fuel : nat) (w : World) : option (Outcome bool * World) :=
  project (fun s => isTouch s) fuel w.

Definition getBreakpoint (fuel : nat) (w : World) : option (Outcome string * World) :=
  project (fun s => breakpoint s) fuel w.

Definition isDestroyed_ (w : World) : bool := isDestroyed (core w).
End Engine.

End ViewportCore.

(* ===================================================================== *)
(** * Uses of an engine                                                    *)
(* ===================================================================== *)

(** What can happen to an engine once it is constructed: the page calls its
    public methods, the browser changes the window or delivers a signal. *)
Inductive Op :=
| Native (s : ViewportCore.Signal)
| SetWindow (win : Window)
| Subscribe (e : EventType) (h : Handler)
| Unsubscribe (e : EventType) (h : Handler)
| GetState
| Destroy.

Definition perform (page : Page) (fuel : nat) (o : Op) (w : World) : option World :=
  match o with
  | Native s => ViewportCore.deliver page fuel s w
  | SetWindow win => Some (on_host (set_window (Some win)) w)
  | Subscribe e h => Some (ViewportCore.on e h w)
  | Unsubscribe e h => Some (ViewportCore.off e h w)
  | GetState => ViewportCore.getState page fuel w >>= fun r => Some (snd r)
  | Destroy => Some (ViewportCore.destroy w)
  end.

Definition performAll (page : Page) (fuel : nat) (ops : list Op) (w : World) : option World :=
  fold_left (fun m o => m >>= perform page fuel o) ops (Some w).

(* ===================================================================== *)
(** * The main instance and its viewport engine                            *)
(* ===================================================================== *)

Module BreakpointJS.

(** The options of [BreakpointJSConfig] that reach the viewport engine;
    every option may be absent. *)
Record BreakpointJSConfig := {
  given_customBreakpoints : option JsObject.t;
  given_debounceDelay : option Z;
  given_enableTouch : option bool;
  given_enableHighDPI : option bool
}.

(** The argument of [new ViewportCore] in the constructor of the instance:
    [debounceDelay], [enableTouch], [enableHighDPI] and [customBreakpoints]
    of [{ ...DEFAULT_CONFIG, ...config }], and no [breakpoints]. *)
Definition viewportConfig (config : BreakpointJSConfig) : ViewportConfig := {|
  opt_breakpoints := None;
  opt_debounceDelay := Some (orElse (given_debounceDelay config) 100);
  opt_enableTouch := Some (orElse (given_enableTouch config) true);
  opt_enableHighDPI := Some (orElse (given_enableHighDPI config) true);
  opt_customBreakpoints := Some (orElse (given_customBreakpoints config) [])
|}.

End BreakpointJS.

(* ===================================================================== *)
(** * Notions used in the statements                                       *)
(* ===================================================================== *)

(** The events that report a change of one field of the state. *)
Definition isChange (e : EventType) : bool :=
  match e with
  | breakpointchange | orientationchange | touchchange => true
  | _ => false
  end.

(** The entry that a lookup by width selects in a list of entries: among
    the entries whose threshold is at most [w], one of greatest threshold,
    and among those the first of the list. *)
Fixpoint pick (w : Z) (es : list (string * Z)) : option (string * Z) :=
  match es with
  | [] => None
  | e :: rest =>
      match pick w rest with
      | Some b => if (w >=? snd e) && (snd e >=? snd b) then Some e else Some b
      | None => if w >=? snd e then Some e else None
      end
  end.

(** The first entry of least threshold. *)
Fixpoint least (es : list (string * Z)) : option (string * Z) :=
  match es with
  | [] => None
  | e :: rest =>
      match least rest with
      | Some b => if snd e - snd b >? 0 then Some b else Some e
      | None => Some e
      end
  end.

(** The handlers registered for an event, in the order of registration. *)
Definition registered (event : EventType) (w : World) : list Handler :=
  match EventManager.mapGet event (listeners (bus w)) with
  | Some a => JsSet.values (EventManager.setAt a w)
  | None => []
  end.

(** The listeners map is a map (one entry per event, one Set object per
    entry), its Set objects exist, and none of them is empty. *)
Definition wellFormedBus (w : World) : Prop :=
  NoDup (map fst (listeners (bus w))) /\
  NoDup (map snd (listeners (bus w))) /\
  forall e a, In (e, a) (listeners (bus w)) ->
              (a < length (sets (bus w)))%nat /\
              JsSet.values (EventManager.setAt a w) <> [].

(** A step that leaves the scheduling state alone: it may change the
    console, the subscriptions, the stored state and the log, and nothing
    else. *)
Definition quietStep (w w' : World) : Prop :=
  (exists c, host w' = set_console c (host w)) /\
  (exists ss ls, bus w' = set_listeners ls (set_sets ss (bus w))) /\
  (exists st, core w' = set_currentState st (core w)).

(** What holds of an engine with configuration [cfg] throughout its life. *)
Definition invariant (cfg : Config) (w : World) : Prop :=
  config (core w) = cfg /\
  wellFormedBus w /\
  (forall s, currentState (core w) = Some s -> exists win, s = calculateState cfg win) /\
  (isDestroyed (core w) = true -> currentState (core w) = None) /\
  frames (host w) = match rafId (bus w) with Some id => [id] | None => [] end /\
  (rafId (bus w) = None -> JsSet.values (rafCallbacks (bus w)) = []) /\
  (forall t, In t (timers (host w)) -> (fst (fst t) < nextHandle (host w))%nat) /\
  NoDup (map (fun t => fst (fst t)) (timers (host w))) /\
  (forall id d, In (id, d, DebounceElapsed) (timers (host w)) ->
                timeoutId (core w) = Some id /\ d = debounceDelay cfg).

(** The states of an engine constructed with the options [vc] in a browser
    that has no timer and no animation frame pending: those that the
    constructor and then any sequence of uses produce. *)
Definition reachable (page : Page) (vc : ViewportConfig) (w : World) : Prop :=
  exists fuel h ops,
    frames h = [] /\ timers h = [] /\
    ViewportCore.new page fuel vc h >>= performAll page fuel ops = Some w.

(** ** Iteration over a live handler set

    What an iteration over the live handler set of an event invokes, told
    in terms of handlers alone. The set is kept as the handlers that the
    iteration has visited and those it has still to visit, in the order of
    their insertion. [None] is a set that a callback has emptied: [off]
    then drops it from the map of listeners, what is subscribed afterwards
    goes to a new set, and the iteration, which is over the old one, sees
    none of it. *)
Definition LiveSet := option (list Handler * list Handler).

(** A callback is inert when it calls neither [on] nor [off]. *)
Definition inert (page : Page) (args : list Value) (h : Handler) : Prop :=
  forall c, In c (page h args) -> c = Throw.

Definition without (h : Handler) (l : list Handler) : list Handler :=
  filter (fun x => negb (Nat.eqb x h)) l.

(** One call of a callback: [on] for the event of the iteration appends a
    handler that the set does not hold; [off] for it removes the handler,
    visited or not. Calls for other events leave the set alone. *)
Definition liveCall (e : EventType) (c : Call) (s : LiveSet) : LiveSet :=
  match s with
  | None => None
  | Some (visited, pending) =>
      match c with
      | CallOn e' h =>
          if EventType_eqb e' e
          then if existsb (Nat.eqb h) (visited ++ pending) then s
               else Some (visited, pending ++ [h])
          else s
      | CallOff e' h =>
          if EventType_eqb e' e
          then match without h visited, without h pending with
               | [], [] => None
               | visited', pending' => Some (visited', pending')
               end
          else s
      | Throw => s
      end
  end.

(** The calls of a callback, up to the exception if there is one. *)
Fixpoint liveScript (e : EventType) (calls : list Call) (s : LiveSet) : LiveSet :=
  match calls with
  | [] => s
  | Throw :: _ => s
  | c :: rest => liveScript e rest (liveCall e c s)
  end.

(** The handlers invoked: the first handler still to visit is invoked, its
    callback changes the set, and so on until none is left to visit. The
    bound is on the number of handlers invoked. *)
Fixpoint liveIteration (page : Page) (e : EventType) (args : list Value)
    (bound : nat) (s : LiveSet) : option (list Handler) :=
  match bound with
  | O => None
  | S bound' =>
      match s with
      | Some (visited, h :: pending) =>
          match liveIteration page e args bound'
                  (liveScript e (page h args) (Some (visited ++ [h], pending))) with
          | Some hs => Some (h :: hs)
          | None => None
          end
      | _ => Some []
      end
  end.

(** The number of calls of [on] in the callbacks of the handlers [hs]. *)
Definition subscriptions (page : Page) (args : list Value) (hs : list Handler) : nat :=
  length (filter (fun c => match c with CallOn _ _ => true | _ => false end)
                 (flat_map (fun h => page h args) hs)).

(** The Set object at address [a], with the iteration of [forEach] at entry
    [index], holds the live set [s] of the event. *)
Definition represents (e : EventType) (a index : nat) (w : World) (s : LiveSet) : Prop :=
  wellFormedBus w /\
  match s with
  | Some (visited, pending) =>
      EventManager.mapGet e (listeners (bus w)) = Some a /\
      (index <= length (EventManager.setAt a w))%nat /\
      JsSet.values (firstn index (EventManager.setAt a w)) = visited /\
      JsSet.values (skipn index (EventManager.setAt a w)) = pending
  | None =>
      (a < length (sets (bus w)))%nat /\
      (forall e', ~ In (e', a) (listeners (bus w))) /\
      JsSet.values (EventManager.setAt a w) = []
  end.

(** Every handler set has fewer entries than the bound on an iteration. *)
Definition bounded (fuel : nat) (w : World) : Prop :=
  forall a, (length (EventManager.setAt a w) < fuel)%nat.

(** Whether the callback of a subscriber ends in an exception. *)
Definition throws (page : Page) (h : Handler) (args : list Value) : bool :=
  existsb (fun c => match c with Throw => true | _ => false end) (page h args).

(** The timers of the debounced update that are pending. *)
Definition debounceTimers (w : World) : list (nat * Z * TimerCallback) :=
  filter (fun t => match snd t with DebounceElapsed => true | OrientationSettled => false end)
         (timers (host w)).

(** Sorted by descending threshold. *)
Definition descending : list (string * Z) -> Prop :=
  StronglySorted (fun a b => snd b <= snd a).

(** A live engine in a browser that observes the document element, has no
    subscriber and has [n] callbacks waiting for the animation frame it has
    requested (none requested when [n] is zero). *)
Definition awaitingFrame (n : nat) (w : World) : Prop :=
  isDestroyed (core w) = false /\
  window (host w) <> None /\
  listeners (bus w) = [] /\
  observed (host w) = true /\
  length (JsSet.values (rafCallbacks (bus w))) = n /\
  (forall x, In x (JsSet.values (rafCallbacks (bus w))) -> (x < nextClosure (bus w))%nat) /\
  match n with
  | O => rafId (bus w) = None /\ frames (host w) = []
  | S _ => exists id, rafId (bus w) = Some id /\ frames (host w) = [id]
  end.

(** The handlers that [emit] would invoke if it worked on a copy of the
    handler set made when it is called. *)
Definition handlersAtEmit (event : EventType) (w : World) : list (EventType * Handler) :=
  match EventManager.mapGet event (listeners (bus w)) with
  | Some a => map (fun h => (event, h)) (JsSet.values (EventManager.setAt a w))
  | None => []
  end.

(** The handler invocations and the emissions that a step adds to the log. *)
Definition invokedSince (w w' : World) : list (EventType * Handler) :=
  skipn (length (invoked (log w))) (invoked (log w')).

Definition emittedSince (w w' : World) : list EventType :=
  map fst (skipn (length (emitted (log w))) (emitted (log w'))).

(* ===================================================================== *)
(** * Concrete browsers, configurations and pages                          *)
(* ===================================================================== *)

Module Sample.

Definition viewport (w h : Z) : Window :=
  {| innerWidth := w; innerHeight := h; devicePixelRatio := Some 1%Q;
     screen := None; ontouchstart := false;
     maxTouchPoints := Some 0; msMaxTouchPoints := None |}.

(** A browser showing a [w] x [h] window, with or without ResizeObserver. *)
Definition browser (withResizeObserver : bool) (w h : Z) : Host :=
  mkHost (Some (viewport w h)) withResizeObserver false [] [] 1%nat [] false [].

Definition defaults : ViewportConfig :=
  {| opt_breakpoints := None; opt_debounceDelay := None; opt_enableTouch := None;
     opt_enableHighDPI := None; opt_customBreakpoints := None |}.

Definition withBreakpoints (o : JsObject.t) : ViewportConfig :=
  {| opt_breakpoints := Some o; opt_debounceDelay := None; opt_enableTouch := None;
     opt_enableHighDPI := None; opt_customBreakpoints := None |}.

Definition withCustom (o : JsObject.t) : ViewportConfig :=
  {| opt_breakpoints := None; opt_debounceDelay := None; opt_enableTouch := None;
     opt_enableHighDPI := None; opt_customBreakpoints := Some o |}.

(** A page whose subscribers do nothing. *)
Definition quiet : Page := fun _ _ => [].

(** Subscriber 1 subscribes subscriber 2 to [resize]. *)
Definition adding : Page :=
  fun h _ => match h with 1%nat => [CallOn resize 2%nat] | _ => [] end.

(** Subscriber 1 unsubscribes subscriber 2 from [resize]. *)
Definition removing : Page :=
  fun h _ => match h with 1%nat => [CallOff resize 2%nat] | _ => [] end.

(** Subscriber 1 unsubscribes and subscribes itself again. *)
Definition resubscribing : Page :=
  fun h _ => match h with 1%nat => [CallOff resize 1%nat; CallOn resize 1%nat] | _ => [] end.

(** Subscriber 1 throws. *)
Definition throwing : Page :=
  fun h _ => match h with 1%nat => [Throw] | _ => [] end.

(** The engine with the default configuration in a browser. *)
Definition engine (withResizeObserver : bool) (w h : Z) : World :=
  orElse (ViewportCore.new quiet 0 defaults (browser withResizeObserver w h))
         (ViewportCore.create defaults (browser withResizeObserver w h)).

(** The engine in a browser with ResizeObserver, after one report of the
    observer: an animation frame is pending. *)
Definition observing : World :=
  ViewportCore.resizeObserverCallback (engine true 1024 768).

(** The engine of a browser without ResizeObserver, after the window has
    become 480 x 800 and before the engine has noticed. *)
Definition narrowed : World :=
  on_host (set_window (Some (viewport 480 800))) (engine false 1024 768).

(** The default table with the custom entry [tablet: 768]. *)
Definition tabletConfig : Config := mergeConfig (withCustom [("tablet", 768)]).

(** The default table with the custom entry [md: 500]. *)
Definition customMdConfig : Config := mergeConfig (withCustom [("md", 500)]).

(** The table [{sm: 0, lg: 900}] given as the [breakpoints] option. *)
Definition twoTierConfig : Config := mergeConfig (withBreakpoints [("sm", 0); ("lg", 900)]).

End Sample.

(* ===================================================================== *)
(** * Properties of sorting and of objects                                 *)
(* ===================================================================== *)

Section SortFacts.
Context {A : Type}.
Variable cmp : A -> A -> Z.

Lemma in_insert (x y : A) (l : list A) :
  In y (JsArray.insert cmp x l) <-> y = x \/ In y l.
Proof.
  induction l as [|h t IH]; simpl.
  - intuition.
  - destruct (cmp x h >? 0); simpl; rewrite ?IH; intuition.
Qed.

Lemma in_sort (y : A) (l : list A) :
  In y (JsArray.sort cmp l) <-> In y l.
Proof.
  induction l as [|x t IH]; simpl.
  - tauto.
  - rewrite in_insert, IH. intuition.
Qed.

Lemma sort_nil_inv (l : list A) : JsArray.sort cmp l = [] -> l = [].
Proof.
  destruct l as [|x t]; [reflexivity|]. simpl. intros H.
  assert (In x (JsArray.insert cmp x (JsArray.sort cmp t))) as Hin
    by (apply in_insert; now left).
  rewrite H in Hin. destruct Hin.
Qed.
End SortFacts.

Lemma in_entries (p : string * Z) (o : JsObject.t) :
  In p (JsObject.entries o) <-> In p o.
Proof.
  unfold JsObject.entries. rewrite in_app_iff, in_sort, !filter_In.
  destruct (JsObject.is_index p); simpl; intuition congruence.
Qed.

Lemma entries_nil_inv (o : JsObject.t) : JsObject.entries o = [] -> o = [].
Proof.
  intros H. destruct o as [|p o']; [reflexivity|].
  assert (In p (JsObject.entries (p :: o'))) as Hin by (apply in_entries; now left).
  rewrite H in Hin. destruct Hin.
Qed.

(* ===================================================================== *)
(** * Properties of the lookup by width                                    *)
(* ===================================================================== *)

Lemma insert_descending (e : string * Z) (l : list (string * Z)) :
  descending l -> descending (JsArray.insert (fun a b => snd b - snd a) e l).
Proof.
  unfold descending. induction 1 as [|h t Hs IH Hall]; simpl.
  - repeat constructor.
  - destruct (snd h - snd e >? 0) eqn:C.
    + constructor; [exact IH|].
      rewrite Forall_forall in *. intros x Hx.
      apply in_insert in Hx. destruct Hx as [->|Hx]; [lia | now apply Hall].
    + constructor; [now constructor|].
      constructor; [lia|].
      rewrite Forall_forall in *. intros x Hx. specialize (Hall x Hx). lia.
Qed.

Lemma sort_descending (l : list (string * Z)) :
  descending (JsArray.sort (fun a b => snd b - snd a) l).
Proof.
  induction l as [|e t IH]; simpl.
  - constructor.
  - now apply insert_descending.
Qed.

Lemma find_insert (w : Z) (e : string * Z) (l : list (string * Z)) :
  descending l ->
  find (fun p => w >=? snd p) (JsArray.insert (fun a b => snd b - snd a) e l) =
  match find (fun p => w >=? snd p) l with
  | Some b => if (w >=? snd e) && (snd e >=? snd b) then Some e else Some b
  | None => if w >=? snd e then Some e else None
  end.
Proof.
  unfold descending. induction 1 as [|h t Hs IH Hall]; simpl.
  - reflexivity.
  - destruct (snd h - snd e >? 0) eqn:C; simpl.
    + destruct (w >=? snd h) eqn:Rh.
      * replace (w >=? snd e) with true by lia.
        replace (snd e >=? snd h) with false by lia. reflexivity.
      * exact IH.
    + destruct (w >=? snd e) eqn:Re; simpl.
      * destruct (w >=? snd h) eqn:Rh.
        -- replace (snd e >=? snd h) with true by lia. reflexivity.
        -- destruct (find (fun p => w >=? snd p) t) as [b|] eqn:Ft; [|reflexivity].
           apply find_some in Ft. destruct Ft as [Hin _].
           rewrite Forall_forall in Hall. specialize (Hall b Hin).
           replace (snd e >=? snd b) with true by lia. reflexivity.
      * destruct (w >=? snd h); [reflexivity|].
        destruct (find (fun p => w >=? snd p) t); reflexivity.
Qed.

(** Searching the entries sorted by descending threshold selects [pick]. *)
Lemma find_sorted_pick (w : Z) (es : list (string * Z)) :
  find (fun p => w >=? snd p) (JsArray.sort (fun a b => snd b - snd a) es) = pick w es.
Proof.
  induction es as [|e t IH]; simpl.
  - reflexivity.
  - rewrite find_insert by apply sort_descending. now rewrite IH.
Qed.

(** The head of the entries sorted by ascending threshold is [least]. *)
Lemma head_sorted_least (es : list (string * Z)) :
  hd_error (JsArray.sort (fun a b => snd a - snd b) es) = least es.
Proof.
  induction es as [|e t IH]; simpl.
  - reflexivity.
  - rewrite <- IH.
    destruct (JsArray.sort (fun a b => snd a - snd b) t) as [|h r]; simpl.
    + reflexivity.
    + destruct (snd e - snd h >? 0); reflexivity.
Qed.

Lemma pick_some (w : Z) (es : list (string * Z)) (b : string * Z) :
  pick w es = Some b ->
  In b es /\ snd b <= w /\ forall e, In e es -> snd e <= w -> snd e <= snd b.
Proof.
  revert b. induction es as [|e t IH]; simpl; intros b H.
  - discriminate.
  - destruct (pick w t) as [c|] eqn:P.
    + destruct (IH c eq_refl) as (Hin & Hle & Hmax).
      destruct ((w >=? snd e) && (snd e >=? snd c)) eqn:C; injection H as <-.
      * repeat split; [now left | lia |].
        intros x [<-|Hx] Hw; [lia|]. specialize (Hmax x Hx Hw). lia.
      * repeat split; [now right | exact Hle |].
        intros x [<-|Hx] Hw; [lia | now apply Hmax].
    + destruct (w >=? snd e) eqn:C; [|discriminate]. injection H as <-.
      repeat split; [now left | lia |].
      intros x [<-|Hx] Hw; [lia|].
      exfalso. clear IH C. induction t as [|y t' IHt]; [destruct Hx|].
      simpl in P. destruct (pick w t') eqn:P'.
      * destruct ((w >=? snd y) && (snd y >=? snd p)); discriminate.
      * destruct (w >=? snd y) eqn:Cy; [discriminate|].
        destruct Hx as [<-|Hx]; [lia | now apply IHt].
Qed.

Lemma pick_none (w : Z) (es : list (string * Z)) :
  pick w es = None -> forall e, In e es -> w < snd e.
Proof.
  induction es as [|y t IH]; simpl; intros P e Hin.
  - destruct Hin.
  - destruct (pick w t) eqn:P'.
    + destruct ((w >=? snd y) && (snd y >=? snd p)); discriminate.
    + destruct (w >=? snd y) eqn:Cy; [discriminate|].
      destruct Hin as [<-|Hin]; [lia | now apply IH].
Qed.

Lemma pick_first (w : Z) (l1 l2 : list (string * Z)) (b : string * Z) :
  snd b <= w ->
  (forall e, In e (l1 ++ l2) -> snd e <= w -> snd e <= snd b) ->
  (forall e, In e l1 -> snd e <> snd b) ->
  pick w (l1 ++ b :: l2) = Some b.
Proof.
  intros Hb Hmax Hfirst. induction l1 as [|y t IH]; simpl.
  - destruct (pick w l2) as [c|] eqn:P.
    + apply pick_some in P. destruct P as (Hin & Hle & _).
      specialize (Hmax c Hin Hle).
      replace (w >=? snd b) with true by lia.
      replace (snd b >=? snd c) with true by lia. reflexivity.
    + replace (w >=? snd b) with true by lia. reflexivity.
  - rewrite IH.
    + assert (snd y <> snd b) as Hne by (apply Hfirst; now left).
      destruct (w >=? snd y) eqn:Cy; simpl; [|reflexivity].
      assert (snd y <= snd b) as Hle by (apply Hmax; [now left | lia]).
      replace (snd y >=? snd b) with false by lia. reflexivity.
    + intros e He. apply Hmax. now right.
    + intros e He. apply Hfirst. now right.
Qed.

Lemma least_some (es : list (string * Z)) (b : string * Z) :
  least es = Some b -> In b es /\ forall e, In e es -> snd b <= snd e.
Proof.
  revert b. induction es as [|y t IH]; simpl; intros b H.
  - discriminate.
  - destruct (least t) as [c|] eqn:L.
    + destruct (IH c eq_refl) as (Hin & Hmin).
      destruct (snd y - snd c >? 0) eqn:C; injection H as <-.
      * split; [now right|]. intros e [<-|He]; [lia | now apply Hmin].
      * split; [now left|]. intros e [<-|He]; [lia|]. specialize (Hmin e He). lia.
    + injection H as <-. split; [now left|].
      intros e [<-|He]; [lia|].
      destruct t as [|z t']; [destruct He|]. simpl in L.
      destruct (least t'); [destruct (snd z - snd p >? 0)|]; discriminate.
Qed.

Lemma least_none (es : list (string * Z)) : least es = None -> es = [].
Proof.
  destruct es as [|y t]; simpl; [reflexivity|].
  destruct (least t); [destruct (snd y - snd p >? 0)|]; discriminate.
Qed.

(** [calculateBreakpoint] in terms of [pick] and [least]. *)
Lemma calculateBreakpoint_pick (cfg : Config) (w : Z) :
  calculateBreakpoint cfg w =
  match pick w (JsObject.entries (allBreakpoints cfg)) with
  | Some b => fst b
  | None =>
      match least (JsObject.entries (allBreakpoints cfg)) with
      | Some s => fst s
      | None => "xs"
      end
  end.
Proof.
  unfold calculateBreakpoint, sortedDescending, sortedAscending.
  rewrite find_sorted_pick.
  destruct (pick w (JsObject.entries (allBreakpoints cfg))) as [[n t]|]; [reflexivity|].
  rewrite <- head_sorted_least.
  destruct (JsArray.sort _ _); reflexivity.
Qed.

(* ===================================================================== *)
(** * Breakpoint classification                                            *)
(* ===================================================================== *)

(** C8. For every width and every non-empty merged table, the name that
    [calculateBreakpoint] returns is the name of an entry whose threshold is
    the greatest one at most the width (a threshold equal to the width
    counts); when every threshold exceeds the width, it is the name of an
    entry of least threshold. *)
Theorem calculateBreakpoint_greatest_threshold (cfg : Config) (w : Z) :
  allBreakpoints cfg <> [] ->
  exists t,
    In (calculateBreakpoint cfg w, t) (allBreakpoints cfg) /\
    ((t <= w /\
      forall n' t', In (n', t') (allBreakpoints cfg) -> t' <= w -> t' <= t)
     \/
     ((forall n' t', In (n', t') (allBreakpoints cfg) -> w < t') /\
      forall n' t', In (n', t') (allBreakpoints cfg) -> t <= t')).
Proof.
  intros Hne. rewrite calculateBreakpoint_pick.
  destruct (pick w (JsObject.entries (allBreakpoints cfg))) as [[n t]|] eqn:P.
  - apply pick_some in P. destruct P as (Hin & Hle & Hmax). simpl in *.
    exists t. split; [now apply in_entries|]. left. split; [exact Hle|].
    intros n' t' Hin' Hw. apply (Hmax (n', t')); [now apply in_entries | exact Hw].
  - destruct (least (JsObject.entries (allBreakpoints cfg))) as [[n t]|] eqn:L.
    + apply least_some in L. destruct L as (Hin & Hmin). simpl in *.
      exists t. split; [now apply in_entries|]. right. split.
      * intros n' t' Hin'.
        apply (pick_none _ _ P (n', t')). now apply in_entries.
      * intros n' t' Hin'. apply (Hmin (n', t')). now apply in_entries.
    + apply least_none, entries_nil_inv in L. contradiction.
Qed.

Lemma calculateBreakpoint_greatest_threshold_witness :
  exists t,
    In (calculateBreakpoint Sample.twoTierConfig 900, t)
       (allBreakpoints Sample.twoTierConfig) /\
    ((t <= 900 /\
      forall n' t',
        In (n', t') (allBreakpoints Sample.twoTierConfig) ->
        t' <= 900 -> t' <= t)
     \/
     ((forall n' t',
         In (n', t') (allBreakpoints Sample.twoTierConfig) ->
         900 < t') /\
      forall n' t',
        In (n', t') (allBreakpoints Sample.twoTierConfig) ->
        t <= t')).
Proof.
  apply (calculateBreakpoint_greatest_threshold
           Sample.twoTierConfig 900).
  vm_compute. discriminate.
Defined.

(** The boundary of the scenario: table [{sm: 0, lg: 900}]. *)
Example boundary_below :
  calculateBreakpoint Sample.twoTierConfig 899 = "sm".
Proof. reflexivity. Qed.

Example boundary_at :
  calculateBreakpoint Sample.twoTierConfig 900 = "lg".
Proof. reflexivity. Qed.

Example default_table_1024 : calculateBreakpoint DEFAULT_CONFIG 1024 = "lg".
Proof. reflexivity. Qed.

(** C7, as stated, fails: with the default table and the custom entry
    [tablet: 768], the threshold 768 is shared by the default [md] and the
    custom [tablet]; the width 800 lies at or above it and below the next
    threshold 992, and is classified as the default [md]. *)
Lemma tie_break_custom_entry_loses :
  JsObject.get "md" (breakpoints Sample.tabletConfig) = Some 768 /\
  JsObject.get "tablet" (customBreakpoints Sample.tabletConfig) = Some 768 /\
  JsObject.get "md" (customBreakpoints Sample.tabletConfig) = None /\
  (forall n t, In (n, t) (allBreakpoints Sample.tabletConfig) -> 768 < t -> 800 < t) /\
  calculateBreakpoint Sample.tabletConfig 800 = "md" /\
  calculateBreakpoint Sample.tabletConfig 800 <> "tablet".
Proof.
  repeat split; try reflexivity.
  - intros n t Hin Ht. vm_compute in Hin.
    repeat (destruct Hin as [Hin|Hin]; [injection Hin as <- <-; lia|]).
    destruct Hin.
  - vm_compute. discriminate.
Qed.

(** C7, amended. Among the entries that share the selected threshold, the
    one that comes first in the enumeration of the merged table is
    returned: if the entry [(n, t)] has the greatest threshold at most the
    width and no entry enumerated before it has the threshold [t], the
    classification is [n], whatever entries of threshold [t] follow it. *)
Theorem tie_break_first_enumerated (cfg : Config) (w : Z)
    (l1 l2 : list (string * Z)) (n : string) (t : Z) :
  JsObject.entries (allBreakpoints cfg) = l1 ++ (n, t) :: l2 ->
  t <= w ->
  (forall e, In e (l1 ++ l2) -> snd e <= w -> snd e <= t) ->
  (forall e, In e l1 -> snd e <> t) ->
  calculateBreakpoint cfg w = n.
Proof.
  intros He Ht Hmax Hfirst.
  rewrite calculateBreakpoint_pick, He.
  now rewrite (pick_first w l1 l2 (n, t)).
Qed.

Lemma tie_break_first_enumerated_witness :
  calculateBreakpoint Sample.tabletConfig 800 = "md".
Proof.
  apply (tie_break_first_enumerated
           Sample.tabletConfig 800
           [("xs", 0); ("sm", 576)]
           [("lg", 992); ("xl", 1200); ("xxl", 1400); ("tablet", 768)]
           "md" 768).
  - reflexivity.
  - lia.
  - intros e He Hw. simpl in He.
    repeat (destruct He as [He|He]; [subst e; simpl in *; lia|]). destruct He.
  - intros e He. simpl in He.
    repeat (destruct He as [He|He]; [subst e; simpl; lia|]). destruct He.
Defined.

(** The enumeration starts with the names that are array indices: a custom
    entry named ["768"] comes before the default [md] and wins the tie. *)
Example tie_break_index_name_first :
  JsObject.entries (allBreakpoints (mergeConfig (Sample.withCustom [("768", 768)])))
  = [("768", 768); ("xs", 0); ("sm", 576); ("md", 768); ("lg", 992); ("xl", 1200);
     ("xxl", 1400)] /\
  calculateBreakpoint (mergeConfig (Sample.withCustom [("768", 768)])) 800 = "768".
Proof. split; reflexivity. Qed.

(* ===================================================================== *)
(** * Device classes                                                       *)
(* ===================================================================== *)

(** C9. In every computed state exactly one of [isMobile], [isTablet] and
    [isDesktop] is true, whatever the thresholds are. *)
Theorem device_class_exclusive (cfg : Config) (win : Window) :
  let s := calculateState cfg win in
  (isMobile s = true /\ isTablet s = false /\ isDesktop s = false) \/
  (isMobile s = false /\ isTablet s = true /\ isDesktop s = false) \/
  (isMobile s = false /\ isTablet s = false /\ isDesktop s = true).
Proof.
  simpl. unfold calculateIsMobile, calculateIsTablet.
  destruct (innerWidth win <? mdBreakpoint cfg) eqn:M;
    destruct (innerWidth win >=? mdBreakpoint cfg) eqn:G;
    destruct (innerWidth win <? lgBreakpoint cfg) eqn:L; simpl; auto; lia.
Qed.

(** C6, as stated, fails: with the custom entry [md: 500] the merged table
    has [md = 500] and [lg = 992]; the width 600 lies between them, yet the
    state is mobile and not tablet. *)
Lemma device_class_ignores_custom_thresholds :
  JsObject.get "md" (allBreakpoints Sample.customMdConfig) = Some 500 /\
  JsObject.get "lg" (allBreakpoints Sample.customMdConfig) = Some 992 /\
  500 <= width (calculateState Sample.customMdConfig (Sample.viewport 600 800)) < 992 /\
  isMobile (calculateState Sample.customMdConfig (Sample.viewport 600 800)) = true /\
  isTablet (calculateState Sample.customMdConfig (Sample.viewport 600 800)) = false /\
  isTablet (calculateState Sample.customMdConfig (Sample.viewport 600 800)) <> true.
Proof.
  repeat split; try reflexivity; vm_compute; discriminate.
Qed.

(** C6, amended. The device classes come from the [md] and [lg] entries of
    the [breakpoints] option alone, each replaced by the default 768 or 992
    when the option lacks it: below [md] the state is mobile, from [md] up
    to [lg] it is tablet, otherwise desktop; the custom breakpoints play no
    part. *)
Theorem device_class_from_breakpoints_option (cfg : Config) (win : Window) :
  let s := calculateState cfg win in
  let md := orElse (JsObject.get "md" (breakpoints cfg)) 768 in
  let lg := orElse (JsObject.get "lg" (breakpoints cfg)) 992 in
  (innerWidth win < md ->
     isMobile s = true /\ isTablet s = false /\ isDesktop s = false) /\
  (md <= innerWidth win < lg ->
     isMobile s = false /\ isTablet s = true /\ isDesktop s = false) /\
  (~ innerWidth win < md -> ~ md <= innerWidth win < lg ->
     isMobile s = false /\ isTablet s = false /\ isDesktop s = true) /\
  (forall custom,
     let s' := calculateState
                 {| breakpoints := breakpoints cfg; debounceDelay := debounceDelay cfg;
                    enableTouch := enableTouch cfg; enableHighDPI := enableHighDPI cfg;
                    customBreakpoints := custom |} win in
     isMobile s' = isMobile s /\ isTablet s' = isTablet s /\ isDesktop s' = isDesktop s).
Proof.
  simpl. unfold calculateIsMobile, calculateIsTablet, mdBreakpoint, lgBreakpoint. simpl.
  set (md := orElse (JsObject.get "md" (breakpoints cfg)) 768).
  set (lg := orElse (JsObject.get "lg" (breakpoints cfg)) 992).
  repeat split; intros;
    destruct (innerWidth win <? md) eqn:M;
    destruct (innerWidth win >=? md) eqn:G;
    destruct (innerWidth win <? lg) eqn:L; simpl; try reflexivity; lia.
Qed.

Lemma device_class_from_breakpoints_option_witness :
  isMobile (calculateState Sample.customMdConfig (Sample.viewport 600 800)) = true /\
  isTablet (calculateState Sample.customMdConfig (Sample.viewport 600 800)) = false /\
  isDesktop (calculateState Sample.customMdConfig (Sample.viewport 600 800)) = false.
Proof.
  apply (proj1 (device_class_from_breakpoints_option
                  Sample.customMdConfig (Sample.viewport 600 800))).
  simpl. lia.
Defined.

(* ===================================================================== *)
(** * What the operations leave unchanged                                  *)
(* ===================================================================== *)

Arguments calculateState : simpl never.
Arguments calculateBreakpoint : simpl never.

Lemma on_frame (e : EventType) (h : Handler) (w : World) :
  host (EventManager.on e h w) = host w /\
  core (EventManager.on e h w) = core w /\
  log (EventManager.on e h w) = log w.
Proof.
  unfold EventManager.on, EventManager.updateSet.
  destruct (EventManager.mapGet e (listeners (bus w))) eqn:G; simpl.
  - rewrite G. simpl. auto.
  - match goal with |- context [EventManager.mapGet ?x ?y] =>
      destruct (EventManager.mapGet x y) end; simpl; auto.
Qed.

Lemma off_frame (e : EventType) (h : Handler) (w : World) :
  host (EventManager.off e h w) = host w /\
  core (EventManager.off e h w) = core w /\
  log (EventManager.off e h w) = log w.
Proof.
  unfold EventManager.off, EventManager.updateSet.
  destruct (EventManager.mapGet e (listeners (bus w))); simpl; auto.
  match goal with |- context [if ?c then _ else _] => destruct c end; simpl; auto.
Qed.

Section EmitFacts.
Variable page : Page.

Lemma run_frame (calls : list Call) (w : World) :
  host (fst (EventManager.run calls w)) = host w /\
  core (fst (EventManager.run calls w)) = core w /\
  log (fst (EventManager.run calls w)) = log w.
Proof.
  revert w. induction calls as [|c rest IH]; intros w; simpl; auto.
  destruct c as [e h|e h|]; simpl; auto.
  - destruct (IH (EventManager.on e h w)) as (H1 & H2 & H3).
    destruct (on_frame e h w) as (F1 & F2 & F3). repeat split; congruence.
  - destruct (IH (EventManager.off e h w)) as (H1 & H2 & H3).
    destruct (off_frame e h w) as (F1 & F2 & F3). repeat split; congruence.
Qed.

Lemma invoke_frame (e : EventType) (h : Handler) (args : list Value) (w : World) :
  core (EventManager.invoke page e h args w) = core w /\
  emitted (log (EventManager.invoke page e h args w)) = emitted (log w) /\
  recomputations (log (EventManager.invoke page e h args w)) = recomputations (log w) /\
  window (host (EventManager.invoke page e h args w)) = window (host w) /\
  timers (host (EventManager.invoke page e h args w)) = timers (host w) /\
  frames (host (EventManager.invoke page e h args w)) = frames (host w) /\
  registrations (host (EventManager.invoke page e h args w)) = registrations (host w).
Proof.
  unfold EventManager.invoke.
  match goal with |- context [EventManager.run ?c ?x] =>
    destruct (run_frame c x) as (H1 & H2 & H3);
    destruct (EventManager.run c x) as [w1 threw] end.
  simpl in *. destruct threw; simpl; rewrite ?H1, ?H2, ?H3; simpl; auto 10.
Qed.

Lemma forEach_frame (fuel a i : nat) (e : EventType) (args : list Value) (w w' : World) :
  EventManager.forEach page fuel a i e args w = Some w' ->
  core w' = core w /\
  emitted (log w') = emitted (log w) /\
  recomputations (log w') = recomputations (log w) /\
  window (host w') = window (host w) /\
  timers (host w') = timers (host w) /\
  frames (host w') = frames (host w) /\
  registrations (host w') = registrations (host w).
Proof.
  revert i w. induction fuel as [|fuel IH]; intros i w; simpl; [discriminate|].
  destruct (nth_error (EventManager.setAt a w) i) as [[h|]|].
  - intros H. apply IH in H.
    destruct (invoke_frame e h args w) as (I1 & I2 & I3 & I4 & I5 & I6 & I7).
    destruct H as (H1 & H2 & H3 & H4 & H5 & H6 & H7).
    repeat split; congruence.
  - apply IH.
  - intros [= <-]. auto 10.
Qed.

Lemma emit_frame (fuel : nat) (e : EventType) (args : list Value) (w w' : World) :
  EventManager.emit page fuel e args w = Some w' ->
  core w' = core w /\
  emitted (log w') = emitted (log w) ++ [(e, args)] /\
  recomputations (log w') = recomputations (log w) /\
  window (host w') = window (host w) /\
  timers (host w') = timers (host w) /\
  frames (host w') = frames (host w) /\
  registrations (host w') = registrations (host w).
Proof.
  unfold EventManager.emit. simpl.
  destruct (EventManager.mapGet e (listeners (bus w))).
  - intros H. apply forEach_frame in H. simpl in H. exact H.
  - intros [= <-]. simpl. auto 10.
Qed.

(** Without subscribers for the event, [emit] only records the emission. *)
Lemma emit_unheard (fuel : nat) (e : EventType) (args : list Value) (w : World) :
  EventManager.mapGet e (listeners (bus w)) = None ->
  EventManager.emit page fuel e args w =
  Some (on_log (fun l => set_emitted (emitted l ++ [(e, args)]) l) w).
Proof.
  unfold EventManager.emit. simpl. now intros ->.
Qed.
End EmitFacts.

(* ===================================================================== *)
(** * One recomputation cycle                                              *)
(* ===================================================================== *)

Section CycleFacts.
Variable page : Page.

Lemma emitWhen_frame (c : bool) (fuel : nat) (e : EventType) (args : list Value)
    (w w' : World) :
  ViewportCore.emitWhen page c fuel e args w = Some w' ->
  core w' = core w /\
  emitted (log w') = emitted (log w) ++ (if c then [(e, args)] else []) /\
  recomputations (log w') = recomputations (log w) /\
  window (host w') = window (host w).
Proof.
  unfold ViewportCore.emitWhen. destruct c.
  - intros H. apply emit_frame in H. intuition.
  - intros [= <-]. rewrite app_nil_r. auto.
Qed.

Lemma emitChangeEvents_frame (fuel : nat) (previous new : ViewportState) (w w' : World) :
  ViewportCore.emitChangeEvents page fuel previous new w = Some w' ->
  core w' = core w /\
  recomputations (log w') = recomputations (log w) /\
  window (host w') = window (host w) /\
  exists changes,
    emitted (log w') = emitted (log w) ++ changes /\
    Forall (fun x => isChange (fst x) = true) changes.
Proof.
  unfold ViewportCore.emitChangeEvents. intros H.
  destruct (ViewportCore.emitWhen page _ fuel breakpointchange _ w) as [w1|] eqn:E1;
    [|discriminate].
  simpl in H.
  destruct (ViewportCore.emitWhen page _ fuel orientationchange _ w1) as [w2|] eqn:E2;
    [|discriminate].
  simpl in H.
  apply emitWhen_frame in E1, E2, H.
  destruct E1 as (A1 & A2 & A3 & A4), E2 as (B1 & B2 & B3 & B4), H as (C1 & C2 & C3 & C4).
  repeat split; try congruence.
  eexists. split.
  - rewrite C2, B2, A2, <- !app_assoc. reflexivity.
  - repeat (apply Forall_app; split);
      match goal with |- context [if ?c then _ else _] => destruct c end;
      repeat constructor.
Qed.

(** An execution of [updateState] that passes the guard. *)
Lemma updateState_cycle (fuel : nat) (w w' : World) (win : Window) :
  isDestroyed (core w) = false ->
  window (host w) = Some win ->
  ViewportCore.updateState page fuel w = Some w' ->
  currentState (core w') = Some (calculateState (config (core w)) win) /\
  isDestroyed (core w') = false /\
  config (core w') = config (core w) /\
  recomputations (log w') = S (recomputations (log w)) /\
  window (host w') = window (host w) /\
  exists changes,
    emitted (log w') =
      emitted (log w) ++ changes
        ++ [(resize, [VState (calculateState (config (core w)) win)])] /\
    Forall (fun x => isChange (fst x) = true) changes /\
    (currentState (core w) = None -> changes = []).
Proof.
  intros Hd Hw. unfold ViewportCore.updateState. rewrite Hd, Hw.
  set (s := calculateState (config (core w)) win).
  set (w1 := on_log _ (on_core _ w)).
  destruct (currentState (core w)) as [previous|] eqn:P.
  - destruct (ViewportCore.emitChangeEvents page fuel previous s w1) as [w2|] eqn:E;
      [|discriminate].
    simpl. intros H. apply emit_frame in H. apply emitChangeEvents_frame in E.
    destruct E as (A1 & A2 & A3 & changes & A4 & A5).
    destruct H as (B1 & B2 & B3 & B4 & _).
    rewrite B1, A1, B3, A2, B4, A3. subst w1. simpl.
    repeat split; auto.
    exists changes. rewrite B2, A4. simpl. rewrite <- app_assoc.
    repeat split; [exact A5 | discriminate].
  - simpl. intros H. apply emit_frame in H.
    destruct H as (B1 & B2 & B3 & B4 & _).
    rewrite B1, B3, B4. subst w1. simpl. repeat split; auto.
    exists []. rewrite B2. simpl. repeat split; constructor.
Qed.

Lemma updateState_destroyed (fuel : nat) (w : World) :
  isDestroyed (core w) = true -> ViewportCore.updateState page fuel w = Some w.
Proof.
  intros H. unfold ViewportCore.updateState. now rewrite H.
Qed.

(** Without subscribers a recomputation returns, whatever the bound. *)
Lemma updateState_unheard (fuel : nat) (w : World) :
  listeners (bus w) = [] -> exists w', ViewportCore.updateState page fuel w = Some w' /\
                                       listeners (bus w') = [].
Proof.
  intros Hl. unfold ViewportCore.updateState.
  destruct (isDestroyed (core w)); [eauto|].
  destruct (window (host w)) as [win|]; [|eauto].
  set (s := calculateState (config (core w)) win).
  assert (forall c e args v, listeners (bus v) = [] ->
            exists v', ViewportCore.emitWhen page c fuel e args v = Some v' /\
                       listeners (bus v') = []) as Hw.
  { intros c e args v Hv. unfold ViewportCore.emitWhen. destruct c; [|eauto].
    rewrite emit_unheard by now rewrite Hv. eexists; split; [reflexivity|exact Hv]. }
  destruct (currentState (core w)) as [previous|].
  - unfold ViewportCore.emitChangeEvents.
    edestruct Hw as (v1 & -> & L1); [|simpl; edestruct Hw as (v2 & -> & L2);
      [exact L1|simpl; edestruct Hw as (v3 & -> & L3); [exact L2|]]].
    + simpl. exact Hl.
    + simpl. rewrite emit_unheard by now rewrite L3.
      eexists; split; [reflexivity|exact L3].
  - simpl. rewrite emit_unheard by (simpl; now rewrite Hl).
    eexists; split; [reflexivity|exact Hl].
Qed.
End CycleFacts.

(** C1, as stated, fails: when the window of a running engine goes from
    1024 x 768 to 480 x 800, the recomputation emits [breakpointchange] and
    [orientationchange] first and [resize] after them. *)
Lemma change_events_precede_resize :
  exists w w',
    ViewportCore.new Sample.quiet 0 Sample.defaults (Sample.browser false 1024 768) = Some w /\
    ViewportCore.updateState Sample.quiet 0
      (on_host (set_window (Some (Sample.viewport 480 800))) w) = Some w' /\
    emittedSince w w' = [breakpointchange; orientationchange; resize] /\
    ~ (forall before e after,
         emittedSince w w' = before ++ e :: after ->
         isChange e = true -> In resize before).
Proof.
  eexists. eexists.
  split; [vm_compute; reflexivity|].
  split; [vm_compute; reflexivity|].
  split; [vm_compute; reflexivity|].
  intros H.
  apply (H [] breakpointchange [orientationchange; resize]); vm_compute; reflexivity.
Qed.

(** C1, amended. In one recomputation cycle the [breakpointchange],
    [orientationchange] and [touchchange] events of the cycle are emitted
    first and [resize], carrying the new state, is emitted after them, as
    the last event of the cycle. *)
Theorem resize_is_emitted_last (page : Page) (fuel : nat) (w w' : World) (win : Window) :
  isDestroyed (core w) = false ->
  window (host w) = Some win ->
  ViewportCore.updateState page fuel w = Some w' ->
  exists changes,
    emitted (log w') =
      emitted (log w) ++ changes
        ++ [(resize, [VState (calculateState (config (core w)) win)])] /\
    Forall (fun x => isChange (fst x) = true) changes.
Proof.
  intros Hd Hw H.
  destruct (updateState_cycle page fuel w w' win Hd Hw H)
    as (_ & _ & _ & _ & _ & changes & E & F & _).
  now exists changes.
Qed.

Lemma resize_is_emitted_last_witness :
  exists w',
    ViewportCore.updateState Sample.quiet 0 Sample.narrowed = Some w' /\
    exists changes,
      emitted (log w') =
        emitted (log Sample.narrowed) ++ changes
          ++ [(resize, [VState (calculateState (config (core Sample.narrowed))
                                               (Sample.viewport 480 800))])] /\
      Forall (fun x => isChange (fst x) = true) changes.
Proof.
  eexists. split.
  - vm_compute. reflexivity.
  - apply (resize_is_emitted_last Sample.quiet 0 Sample.narrowed _ (Sample.viewport 480 800)).
    + reflexivity.
    + reflexivity.
    + vm_compute. reflexivity.
Defined.

(* ===================================================================== *)
(** * Construction                                                         *)
(* ===================================================================== *)

Section ConstructionFacts.
Variable page : Page.

Lemma setupEventListeners_frame (w : World) :
  bus (ViewportCore.setupEventListeners w) = bus w /\
  log (ViewportCore.setupEventListeners w) = log w /\
  window (host (ViewportCore.setupEventListeners w)) = window (host w) /\
  config (core (ViewportCore.setupEventListeners w)) = config (core w) /\
  currentState (core (ViewportCore.setupEventListeners w)) = currentState (core w) /\
  isDestroyed (core (ViewportCore.setupEventListeners w)) = isDestroyed (core w).
Proof.
  unfold ViewportCore.setupEventListeners. simpl.
  destruct (hasResizeObserver (host w)); simpl;
    destruct (hasVisualViewport (host w)); simpl; auto 10.
Qed.

Lemma setupMediaQueries_frame (w : World) :
  bus (ViewportCore.setupMediaQueries w) = bus w /\
  log (ViewportCore.setupMediaQueries w) = log w /\
  window (host (ViewportCore.setupMediaQueries w)) = window (host w) /\
  config (core (ViewportCore.setupMediaQueries w)) = config (core w) /\
  currentState (core (ViewportCore.setupMediaQueries w)) = currentState (core w) /\
  isDestroyed (core (ViewportCore.setupMediaQueries w)) = isDestroyed (core w).
Proof.
  unfold ViewportCore.setupMediaQueries.
  generalize (JsObject.entries (allBreakpoints (config (core w)))). intros l.
  revert w. induction l as [|p l IH]; intros w; simpl; [auto 10|].
  match goal with |- context [fold_left ?f l ?x] =>
    destruct (IH x) as (H1 & H2 & H3 & H4 & H5 & H6) end.
  rewrite H1, H2, H3, H4, H5, H6. simpl. auto 10.
Qed.

(** In a browser the constructor returns an engine that holds the state of
    the window and has emitted one [resize]. *)
Lemma new_in_browser (fuel : nat) (vc : ViewportConfig) (h : Host) (win : Window) :
  window h = Some win ->
  exists w,
    ViewportCore.new page fuel vc h = Some w /\
    currentState (core w) = Some (calculateState (mergeConfig vc) win) /\
    config (core w) = mergeConfig vc /\
    isDestroyed (core w) = false /\
    listeners (bus w) = [] /\
    window (host w) = Some win /\
    recomputations (log w) = 1%nat /\
    emitted (log w) = [(resize, [VState (calculateState (mergeConfig vc) win)])].
Proof.
  intros Hw. unfold ViewportCore.new, ViewportCore.initialize.
  set (w0 := ViewportCore.create vc h).
  replace (window (host w0)) with (Some win) by (symmetry; exact Hw).
  set (w1 := ViewportCore.setupMediaQueries (ViewportCore.setupEventListeners w0)).
  assert (bus w1 = bus w0 /\ log w1 = log w0 /\ window (host w1) = Some win /\
          config (core w1) = mergeConfig vc /\ currentState (core w1) = None /\
          isDestroyed (core w1) = false) as (B & L & W & C & S & D).
  { subst w1.
    destruct (setupMediaQueries_frame (ViewportCore.setupEventListeners w0))
      as (H1 & H2 & H3 & H4 & H5 & H6).
    destruct (setupEventListeners_frame w0) as (G1 & G2 & G3 & G4 & G5 & G6).
    rewrite H1, H2, H3, H4, H5, H6, G1, G2, G3, G4, G5, G6. subst w0. simpl. auto 10. }
  destruct (updateState_unheard page fuel w1) as (w & U & Lw).
  { rewrite B. reflexivity. }
  exists w. split; [exact U|].
  destruct (updateState_cycle page fuel w1 w win D W U)
    as (P1 & P2 & P3 & P4 & P5 & changes & P6 & _ & P7).
  rewrite C in *. rewrite (P7 S) in P6. rewrite L in *. simpl in *.
  repeat split; try assumption; congruence.
Qed.

(** Once a state is stored, [getState] returns it and runs nothing. *)
Lemma getState_stored (fuel : nat) (w : World) (s : ViewportState) :
  currentState (core w) = Some s ->
  ViewportCore.getState page fuel w = Some (Some s, w).
Proof.
  intros H. unfold ViewportCore.getState. rewrite H. simpl. now rewrite H.
Qed.
End ConstructionFacts.

Lemma engine_is_new (withResizeObserver : bool) (w h : Z) :
  ViewportCore.new Sample.quiet 0 Sample.defaults (Sample.browser withResizeObserver w h)
  = Some (Sample.engine withResizeObserver w h).
Proof.
  unfold Sample.engine.
  destruct (new_in_browser Sample.quiet 0 Sample.defaults
              (Sample.browser withResizeObserver w h) (Sample.viewport w h) eq_refl)
    as (v & -> & _).
  reflexivity.
Qed.

(** C10. When the merged table is empty, every width is classified as
    ["xs"]. A [breakpoints: {}] option replaces the default table as a
    whole, so that without custom breakpoints the merged table is empty;
    the engine constructed in a browser then reports the breakpoint ["xs"],
    which names no configured breakpoint. *)
Theorem empty_table_classified_xs (page : Page) (fuel : nat)
    (vc : ViewportConfig) (h : Host) (win : Window) :
  opt_breakpoints vc = Some [] ->
  opt_customBreakpoints vc = None \/ opt_customBreakpoints vc = Some [] ->
  window h = Some win ->
  allBreakpoints (mergeConfig vc) = [] /\
  (forall w, calculateBreakpoint (mergeConfig vc) w = "xs") /\
  exists w1 s,
    ViewportCore.new page fuel vc h = Some w1 /\
    ViewportCore.getState page fuel w1 = Some (Some s, w1) /\
    breakpoint s = "xs".
Proof.
  intros Hb Hc Hw.
  assert (allBreakpoints (mergeConfig vc) = []) as Hall.
  { unfold allBreakpoints, mergeConfig. simpl. rewrite Hb.
    destruct Hc as [-> | ->]; reflexivity. }
  assert (forall w, calculateBreakpoint (mergeConfig vc) w = "xs") as Hxs.
  { intros w. unfold calculateBreakpoint, sortedDescending, sortedAscending.
    rewrite Hall. reflexivity. }
  split; [exact Hall|]. split; [exact Hxs|].
  destruct (new_in_browser page fuel vc h win Hw) as (w1 & N & S & _).
  exists w1, (calculateState (mergeConfig vc) win).
  split; [exact N|]. split; [now apply getState_stored|].
  unfold calculateState. simpl. apply Hxs.
Qed.

Lemma empty_table_classified_xs_witness :
  allBreakpoints (mergeConfig (Sample.withBreakpoints [])) = [] /\
  (forall w, calculateBreakpoint (mergeConfig (Sample.withBreakpoints [])) w = "xs") /\
  exists w1 s,
    ViewportCore.new Sample.quiet 0 (Sample.withBreakpoints []) (Sample.browser true 1024 768)
      = Some w1 /\
    ViewportCore.getState Sample.quiet 0 w1 = Some (Some s, w1) /\
    breakpoint s = "xs".
Proof.
  apply (empty_table_classified_xs Sample.quiet 0 (Sample.withBreakpoints [])
           (Sample.browser true 1024 768) (Sample.viewport 1024 768)).
  - reflexivity.
  - left. reflexivity.
  - reflexivity.
Defined.

(* ===================================================================== *)
(** * After [destroy]                                                      *)
(* ===================================================================== *)

Lemma scheduleRAF_core (c : nat) (w : World) :
  core (EventManager.scheduleRAF c w) = core w /\
  log (EventManager.scheduleRAF c w) = log w.
Proof.
  unfold EventManager.scheduleRAF. simpl.
  destruct (rafId (bus w)); simpl; auto.
Qed.

Lemma listener_core (l : NativeListener) (w : World) :
  isDestroyed (core (ViewportCore.listener l w)) = isDestroyed (core w) /\
  currentState (core (ViewportCore.listener l w)) = currentState (core w) /\
  log (ViewportCore.listener l w) = log w.
Proof.
  destruct l; [simpl; destruct (timeoutId (core w)); simpl; auto | simpl; auto |].
  unfold ViewportCore.listener, EventManager.freshClosure. cbv beta iota.
  match goal with |- context [EventManager.scheduleRAF ?c ?x] =>
    destruct (scheduleRAF_core c x) as (-> & ->) end.
  simpl. auto.
Qed.

Lemma dispatch_core (t : Target) (rs : list (Target * NativeListener)) (w : World) :
  isDestroyed
    (core (fold_left (fun w' r => if ViewportCore.Target_eqb (fst r) t
                                  then ViewportCore.listener (snd r) w' else w') rs w))
  = isDestroyed (core w) /\
  currentState
    (core (fold_left (fun w' r => if ViewportCore.Target_eqb (fst r) t
                                  then ViewportCore.listener (snd r) w' else w') rs w))
  = currentState (core w) /\
  log (fold_left (fun w' r => if ViewportCore.Target_eqb (fst r) t
                              then ViewportCore.listener (snd r) w' else w') rs w)
  = log w.
Proof.
  revert w. induction rs as [|r rs IH]; intros w; simpl; [auto|].
  destruct (ViewportCore.Target_eqb (fst r) t).
  - destruct (IH (ViewportCore.listener (snd r) w)) as (-> & -> & ->).
    apply listener_core.
  - apply IH.
Qed.

Lemma destroy_core (w : World) :
  isDestroyed (core w) = false ->
  isDestroyed (core (ViewportCore.destroy w)) = true /\
  currentState (core (ViewportCore.destroy w)) = None.
Proof.
  intros H. unfold ViewportCore.destroy, EventManager.destroy. rewrite H. simpl.
  destruct (resizeObserver (core w)); simpl; destruct (rafId (bus w)); simpl; auto.
Qed.

Section AfterDestroy.
Variable page : Page.

Lemma recompute_destroyed (fuel : nat) {A : Type} (l : list A) (w : World) :
  isDestroyed (core w) = true ->
  fold_left (fun m _ => m >>= ViewportCore.updateState page fuel) l (Some w) = Some w.
Proof.
  intros H. induction l as [|x l IH]; simpl; [reflexivity|].
  now rewrite updateState_destroyed.
Qed.

Lemma frameCallback_destroyed (fuel : nat) (w : World) :
  isDestroyed (core w) = true ->
  exists w', ViewportCore.frameCallback page fuel w = Some w' /\
             core w' = core w /\ log w' = log w.
Proof.
  intros H. unfold ViewportCore.frameCallback.
  rewrite recompute_destroyed by exact H.
  eexists. split; [reflexivity|]. simpl. auto.
Qed.

Lemma frames_destroyed (fuel : nat) (l : list nat) (w : World) :
  isDestroyed (core w) = true ->
  exists w', fold_left (fun m _ => m >>= ViewportCore.frameCallback page fuel) l (Some w)
             = Some w' /\
             core w' = core w /\ log w' = log w.
Proof.
  revert w. induction l as [|x l IH]; intros w H; simpl; [eauto|].
  destruct (frameCallback_destroyed fuel w H) as (w1 & -> & C1 & L1). simpl.
  destruct (IH w1) as (w2 & -> & C2 & L2); [now rewrite C1|].
  exists w2. repeat split; congruence.
Qed.

(** Whatever happens to a destroyed engine, it remains destroyed, holds
    no state, emits nothing and recomputes nothing. *)
Lemma perform_destroyed (fuel : nat) (o : Op) (w : World) :
  isDestroyed (core w) = true ->
  currentState (core w) = None ->
  exists w',
    perform page fuel o w = Some w' /\
    isDestroyed (core w') = true /\
    currentState (core w') = None /\
    log w' = log w.
Proof.
  intros Hd Hs. destruct o as [s|win|e h|e h| |]; simpl.
  - destruct s as [|t| |id]; simpl.
    + destruct (observed (host w)); [|eauto].
      eexists. split; [reflexivity|].
      unfold ViewportCore.resizeObserverCallback, EventManager.freshClosure.
      cbv beta iota.
      match goal with |- context [EventManager.scheduleRAF ?c ?x] =>
        destruct (scheduleRAF_core c x) as (-> & ->) end.
      simpl. auto.
    + eexists. split; [reflexivity|].
      destruct (dispatch_core t (registrations (host w)) w) as (-> & -> & ->). auto.
    + destruct (frames_destroyed fuel (frames (host w)) (on_host (set_frames []) w))
        as (w' & -> & C & L); [exact Hd|].
      exists w'. rewrite C, L. simpl. auto.
    + destruct (find _ (timers (host w))) as [t|]; [|eauto].
      assert (forall v, isDestroyed (core v) = true ->
                ViewportCore.timerCallback page fuel (snd t) v = Some v) as T.
      { intros v Hv. destruct (snd t); simpl; now apply updateState_destroyed. }
      rewrite T by exact Hd. eexists. split; [reflexivity|]. simpl. auto.
  - eexists. split; [reflexivity|]. simpl. auto.
  - eexists. split; [reflexivity|]. unfold ViewportCore.on.
    destruct (on_frame e h w) as (_ & -> & ->). auto.
  - eexists. split; [reflexivity|]. unfold ViewportCore.off.
    destruct (off_frame e h w) as (_ & -> & ->). auto.
  - unfold ViewportCore.getState. rewrite Hs, updateState_destroyed by exact Hd.
    simpl. eauto.
  - eexists. split; [reflexivity|].
    unfold ViewportCore.destroy. rewrite Hd. auto.
Qed.

Lemma performAll_destroyed (fuel : nat) (ops : list Op) (w : World) :
  isDestroyed (core w) = true ->
  currentState (core w) = None ->
  exists w',
    performAll page fuel ops w = Some w' /\
    isDestroyed (core w') = true /\
    currentState (core w') = None /\
    log w' = log w.
Proof.
  unfold performAll. revert w. induction ops as [|o ops IH]; intros w Hd Hs; simpl.
  - eauto.
  - destruct (perform_destroyed fuel o w Hd Hs) as (w1 & -> & D1 & S1 & L1). simpl.
    destruct (IH w1 D1 S1) as (w2 & -> & D2 & S2 & L2).
    exists w2. repeat split; congruence.
Qed.
End AfterDestroy.

(** C2, as stated, fails: the engine constructed in a 1024 x 768 window
    holds a state; after [destroy], [getState] returns [null], not that
    state. *)
Lemma getState_after_destroy_loses_state :
  exists s,
    currentState (core (Sample.engine false 1024 768)) = Some s /\
    width s = 1024 /\
    ViewportCore.getState Sample.quiet 0 (ViewportCore.destroy (Sample.engine false 1024 768))
      = Some (None, ViewportCore.destroy (Sample.engine false 1024 768)) /\
    ViewportCore.getState Sample.quiet 0 (ViewportCore.destroy (Sample.engine false 1024 768))
      <> Some (Some s, ViewportCore.destroy (Sample.engine false 1024 768)).
Proof.
  eexists. split; [vm_compute; reflexivity|].
  split; [reflexivity|].
  split; [vm_compute; reflexivity|].
  vm_compute. discriminate.
Qed.

(** C2, amended. [destroy] clears the state, and the guard of a
    recomputation keeps it cleared: after [destroy] on a live engine,
    whatever the page and the browser do next, every call of [getState]
    returns, and returns [null]. *)
Theorem getState_after_destroy_is_null (page : Page) (fuel : nat) (ops : list Op) (w : World) :
  isDestroyed (core w) = false ->
  exists w',
    performAll page fuel ops (ViewportCore.destroy w) = Some w' /\
    ViewportCore.getState page fuel w' = Some (None, w').
Proof.
  intros H. destruct (destroy_core w H) as (D & S).
  destruct (performAll_destroyed page fuel ops _ D S) as (w' & P & D' & S' & _).
  exists w'. split; [exact P|].
  unfold ViewportCore.getState. rewrite S', updateState_destroyed by exact D'.
  simpl. now rewrite S'.
Qed.

Lemma getState_after_destroy_is_null_witness :
  exists w',
    performAll Sample.quiet 0
      [Native (ViewportCore.Dispatch WindowResize); GetState;
       Native (ViewportCore.TimerElapsed 1%nat)]
      (ViewportCore.destroy (Sample.engine false 1024 768)) = Some w' /\
    ViewportCore.getState Sample.quiet 0 w' = Some (None, w').
Proof.
  apply (getState_after_destroy_is_null Sample.quiet 0
           [Native (ViewportCore.Dispatch WindowResize); GetState;
            Native (ViewportCore.TimerElapsed 1%nat)]
           (Sample.engine false 1024 768)).
  reflexivity.
Defined.

(** What [destroy] cancels: the observation of the document element and
    the pending animation frame of the engine. *)
Lemma destroy_cancels_frame (w : World) (id : nat) :
  isDestroyed (core w) = false ->
  rafId (bus w) = Some id ->
  ~ In id (frames (host (ViewportCore.destroy w))) /\
  rafId (bus (ViewportCore.destroy w)) = None /\
  (resizeObserver (core w) = true -> observed (host (ViewportCore.destroy w)) = false).
Proof.
  intros Hd Hr. unfold ViewportCore.destroy, EventManager.destroy. rewrite Hd. simpl.
  assert (forall l, ~ In id (filter (fun f => negb (Nat.eqb f id)) l)) as F.
  { intros l. rewrite filter_In. intros [_ H]. now rewrite Nat.eqb_refl in H. }
  destruct (resizeObserver (core w)); simpl; rewrite Hr; simpl;
    split; [apply F | split; [reflexivity | reflexivity]
           | apply F | split; [reflexivity | discriminate]].
Qed.

(** What [destroy] leaves in the browser: every pending timer and every
    listener registration. *)
Lemma destroy_keeps_timers_and_registrations (w : World) :
  timers (host (ViewportCore.destroy w)) = timers (host w) /\
  registrations (host (ViewportCore.destroy w)) = registrations (host w).
Proof.
  unfold ViewportCore.destroy, EventManager.destroy.
  destruct (isDestroyed (core w)); simpl; [auto|].
  destruct (resizeObserver (core w)); simpl; destruct (rafId (bus w)); simpl; auto.
Qed.

(** C4. The code does not do what the claim says. In a browser without
    ResizeObserver, a window [resize] event starts the debounce timer;
    [destroy] then returns with that timer still pending and with every
    listener that the constructor registered (window [resize],
    [orientationchange], the six media queries) still registered. *)
Lemma destroy_leaves_timer_and_listeners :
  exists w,
    performAll Sample.quiet 0 [Native (ViewportCore.Dispatch WindowResize)]
      (Sample.engine false 1024 768) = Some w /\
    timers (host (ViewportCore.destroy w)) = [(1%nat, 100, DebounceElapsed)] /\
    registrations (host (ViewportCore.destroy w)) =
      [(WindowResize, DebouncedUpdate);
       (WindowOrientationChange, OrientationListener);
       (MediaQueryChange 0, MediaQueryListener);
       (MediaQueryChange 576, MediaQueryListener);
       (MediaQueryChange 768, MediaQueryListener);
       (MediaQueryChange 992, MediaQueryListener);
       (MediaQueryChange 1200, MediaQueryListener);
       (MediaQueryChange 1400, MediaQueryListener)].
Proof.
  eexists. split; [vm_compute; reflexivity|].
  split; vm_compute; reflexivity.
Qed.

(* ===================================================================== *)
(** * Bursts of signals                                                    *)
(* ===================================================================== *)

(** C3. The code does not do what the claim says on the animation-frame
    path. Two reports of the ResizeObserver before the next frame request
    one frame, but leave two callbacks in [rafCallbacks]; when the frame
    runs, [updateState] is executed twice and [resize] is emitted twice. *)
Lemma frame_burst_recomputes_twice :
  exists w w',
    performAll Sample.quiet 0
      [Native ViewportCore.ResizeObserved; Native ViewportCore.ResizeObserved]
      (Sample.engine true 1024 768) = Some w /\
    frames (host w) = [1%nat] /\
    JsSet.values (rafCallbacks (bus w)) = [0%nat; 1%nat] /\
    recomputations (log w) = recomputations (log (Sample.engine true 1024 768)) /\
    perform Sample.quiet 0 (Native ViewportCore.AnimationFrame) w = Some w' /\
    recomputations (log w') = (2 + recomputations (log w))%nat /\
    emittedSince w w' = [resize; resize].
Proof.
  eexists. eexists.
  split; [vm_compute; reflexivity|].
  repeat split; vm_compute; reflexivity.
Qed.

(** On the debounce path a burst is coalesced: three window [resize]
    events leave one pending timer, and one recomputation runs when it
    expires. *)
Example debounce_burst_recomputes_once :
  exists w w',
    performAll Sample.quiet 0
      [Native (ViewportCore.Dispatch WindowResize);
       Native (ViewportCore.Dispatch WindowResize);
       Native (ViewportCore.Dispatch WindowResize)]
      (Sample.engine false 1024 768) = Some w /\
    timers (host w) = [(3%nat, 100, DebounceElapsed)] /\
    perform Sample.quiet 0 (Native (ViewportCore.TimerElapsed 3%nat)) w = Some w' /\
    recomputations (log w') = (1 + recomputations (log w))%nat /\
    timers (host w') = [].
Proof.
  eexists. eexists.
  split; [vm_compute; reflexivity|].
  repeat split; vm_compute; reflexivity.
Qed.

(* ===================================================================== *)
(** * Emission while the handler set changes                               *)
(* ===================================================================== *)



(* ===================================================================== *)
(** * Termination of an emission                                           *)
(* ===================================================================== *)

Lemma update_length_nth {A : Type} (f : list A -> list A) (a a' : nat)
    (l : list (list A)) :
  (forall s, length (f s) = length s) ->
  length (nth a (EventManager.update a' f l) []) = length (nth a l []).
Proof.
  intros Hf. revert a a'. induction l as [|x l IH]; intros a a'; simpl.
  - destruct a', a; reflexivity.
  - destruct a', a; simpl; auto.
Qed.

Lemma off_setAt_length (a : nat) (e : EventType) (h : Handler) (w : World) :
  length (EventManager.setAt a (EventManager.off e h w)) = length (EventManager.setAt a w).
Proof.
  unfold EventManager.off.
  destruct (EventManager.mapGet e (listeners (bus w))) as [a'|]; [|reflexivity].
  match goal with |- context [if ?c then _ else _] => destruct c end;
    unfold EventManager.setAt, EventManager.updateSet; simpl;
    apply update_length_nth; intros s; unfold JsSet.delete; apply length_map.
Qed.

Section Termination.
Variable page : Page.

(** The subscribers of the page do not subscribe while they run. *)
Hypothesis never_subscribes : forall h args e h', ~ In (CallOn e h') (page h args).

Lemma run_setAt_length (calls : list Call) (a : nat) (w : World) :
  (forall e h', ~ In (CallOn e h') calls) ->
  length (EventManager.setAt a (fst (EventManager.run calls w)))
  = length (EventManager.setAt a w).
Proof.
  revert w. induction calls as [|c rest IH]; intros w Hn; simpl; [reflexivity|].
  destruct c as [e h|e h|]; simpl.
  - exfalso. apply (Hn e h). now left.
  - rewrite IH; [apply off_setAt_length|].
    intros e' h' Hin. apply (Hn e' h'). now right.
  - reflexivity.
Qed.

Lemma invoke_setAt_length (e : EventType) (h : Handler) (args : list Value)
    (a : nat) (w : World) :
  length (EventManager.setAt a (EventManager.invoke page e h args w))
  = length (EventManager.setAt a w).
Proof.
  unfold EventManager.invoke.
  match goal with |- context [EventManager.run ?c ?x] =>
    pose proof (run_setAt_length c a x (never_subscribes h args)) as R;
    destruct (EventManager.run c x) as [w1 threw] end.
  simpl in R. destruct threw; exact R.
Qed.

Lemma forEach_returns (fuel a i : nat) (e : EventType) (args : list Value) (w : World) :
  (i <= length (EventManager.setAt a w) < i + fuel)%nat ->
  exists w',
    EventManager.forEach page fuel a i e args w = Some w' /\
    forall b, length (EventManager.setAt b w') = length (EventManager.setAt b w).
Proof.
  revert i w. induction fuel as [|fuel IH]; intros i w Hlt; [lia|]. simpl.
  destruct (nth_error (EventManager.setAt a w) i) as [[h|]|] eqn:N.
  - assert (i < length (EventManager.setAt a w))%nat as Hi
      by (apply nth_error_Some; congruence).
    destruct (IH (S i) (EventManager.invoke page e h args w)) as (w' & -> & L).
    + rewrite invoke_setAt_length. lia.
    + exists w'. split; [reflexivity|].
      intros b. rewrite L. apply invoke_setAt_length.
  - assert (i < length (EventManager.setAt a w))%nat as Hi
      by (apply nth_error_Some; congruence).
    destruct (IH (S i) w) as (w' & -> & L); [lia|]. eauto.
  - eauto.
Qed.

(** With more fuel than entries in any handler set, [emit] returns. *)
Lemma emit_returns (fuel : nat) (e : EventType) (args : list Value) (w : World) :
  (forall a, (length (EventManager.setAt a w) < fuel)%nat) ->
  exists w',
    EventManager.emit page fuel e args w = Some w' /\
    forall a, (length (EventManager.setAt a w') < fuel)%nat.
Proof.
  intros Hb. unfold EventManager.emit. simpl.
  destruct (EventManager.mapGet e (listeners (bus w))) as [a|].
  - match goal with |- context [EventManager.forEach page fuel a 0 e args ?x] =>
      destruct (forEach_returns fuel a 0 e args x) as (w' & -> & L) end.
    + split; [apply Nat.le_0_l | apply (Hb a)].
    + exists w'. split; [reflexivity|]. intros b. rewrite L. apply (Hb b).
  - eexists. split; [reflexivity|]. exact Hb.
Qed.

(** And so does a recomputation cycle. *)
Lemma updateState_returns (fuel : nat) (w : World) :
  (forall a, (length (EventManager.setAt a w) < fuel)%nat) ->
  exists w', ViewportCore.updateState page fuel w = Some w'.
Proof.
  intros Hb. unfold ViewportCore.updateState.
  destruct (isDestroyed (core w)); [eauto|].
  destruct (window (host w)) as [win|]; [|eauto].
  assert (forall c ev args v,
            (forall a, (length (EventManager.setAt a v) < fuel)%nat) ->
            exists v', ViewportCore.emitWhen page c fuel ev args v = Some v' /\
                       forall a, (length (EventManager.setAt a v') < fuel)%nat) as Hw.
  { intros c ev args v Hv. unfold ViewportCore.emitWhen.
    destruct c; [now apply emit_returns | eauto]. }
  set (s := calculateState (config (core w)) win).
  set (w1 := on_log _ (on_core _ w)).
  assert (forall a, (length (EventManager.setAt a w1) < fuel)%nat) as H1 by exact Hb.
  destruct (currentState (core w)) as [previous|].
  - unfold ViewportCore.emitChangeEvents.
    edestruct Hw as (v1 & -> & L1); [exact H1|]. simpl.
    edestruct Hw as (v2 & -> & L2); [exact L1|]. simpl.
    edestruct Hw as (v3 & -> & L3); [exact L2|]. simpl.
    destruct (emit_returns fuel resize [VState s] v3 L3) as (v4 & -> & _). eauto.
  - simpl. destruct (emit_returns fuel resize [VState s] w1 H1) as (v4 & -> & _). eauto.
Qed.
End Termination.

(** An emission need not terminate: with two subscribers of which the
    first unsubscribes and subscribes itself again, the iteration meets the
    first subscriber again at the end of the set, time after time. *)
Example emit_may_run_forever :
  EventManager.emit Sample.resubscribing 200 resize []
    (EventManager.on resize 2%nat
       (EventManager.on resize 1%nat (Sample.engine false 1024 768))) = None.
Proof. vm_compute. reflexivity. Qed.

(* ===================================================================== *)
(** * Bursts of any length on the animation-frame path                     *)
(* ===================================================================== *)

Lemma values_app (s t : JsSet.t) :
  JsSet.values (s ++ t) = JsSet.values s ++ JsSet.values t.
Proof.
  unfold JsSet.values. apply flat_map_app.
Qed.

Lemma has_fresh (v : nat) (s : JsSet.t) :
  (forall x, In x (JsSet.values s) -> (x < v)%nat) -> JsSet.has v s = false.
Proof.
  unfold JsSet.has. induction s as [|e s IH]; simpl; intros H; [reflexivity|].
  destruct e as [x|]; simpl in *.
  - rewrite IH by (intros y Hy; apply H; now right).
    assert (x < v)%nat as Hx by (apply H; now left).
    replace (Nat.eqb x v) with false by (symmetry; apply Nat.eqb_neq; lia). reflexivity.
  - now apply IH.
Qed.

Lemma values_add_fresh (v : nat) (s : JsSet.t) :
  (forall x, In x (JsSet.values s) -> (x < v)%nat) ->
  JsSet.values (JsSet.add v s) = JsSet.values s ++ [v].
Proof.
  intros H. unfold JsSet.add. rewrite has_fresh by exact H.
  now rewrite values_app.
Qed.

Lemma values_clear (s : JsSet.t) : JsSet.values (JsSet.clear s) = [].
Proof.
  unfold JsSet.clear. induction s as [|e s IH]; simpl; [reflexivity | exact IH].
Qed.

Lemma values_copy (s : JsSet.t) : JsSet.values (JsSet.copy s) = JsSet.values s.
Proof.
  unfold JsSet.copy. induction (JsSet.values s) as [|x l IH]; simpl; [reflexivity|].
  now rewrite IH.
Qed.

(** Each report of the ResizeObserver adds one more callback to the set. *)
Lemma resizeObserved_adds_callback (n : nat) (w : World) :
  awaitingFrame n w ->
  awaitingFrame (S n) (ViewportCore.resizeObserverCallback w) /\
  log (ViewportCore.resizeObserverCallback w) = log w.
Proof.
  intros (Hd & Hw & Hl & Ho & Hn & Hf & Hr).
  unfold ViewportCore.resizeObserverCallback, EventManager.freshClosure,
    EventManager.scheduleRAF.
  cbv beta iota. simpl.
  assert (JsSet.values (JsSet.add (nextClosure (bus w)) (rafCallbacks (bus w)))
          = JsSet.values (rafCallbacks (bus w)) ++ [nextClosure (bus w)]) as Hv
    by (apply values_add_fresh; exact Hf).
  unfold awaitingFrame.
  destruct n as [|n].
  - destruct Hr as (Hr & Hfr). rewrite Hr. simpl. rewrite Hv, Hfr.
    repeat split; auto.
    + rewrite length_app, Hn. reflexivity.
    + intros x Hx. apply in_app_iff in Hx. destruct Hx as [Hx|[<-|[]]]; [|lia].
      specialize (Hf x Hx). lia.
    + eexists. split; reflexivity.
  - destruct Hr as (id & Hr & Hfr). rewrite Hr. simpl. rewrite Hv.
    repeat split; auto.
    + rewrite length_app, Hn. simpl. lia.
    + intros x Hx. apply in_app_iff in Hx. destruct Hx as [Hx|[<-|[]]]; [|lia].
      specialize (Hf x Hx). lia.
    + exists id. split; [exact Hr | exact Hfr].
Qed.

Section Bursts.
Variable page : Page.

Lemma recompute_unheard (fuel : nat) {A : Type} (l : list A) (w : World) :
  isDestroyed (core w) = false ->
  window (host w) <> None ->
  listeners (bus w) = [] ->
  exists w',
    fold_left (fun m _ => m >>= ViewportCore.updateState page fuel) l (Some w) = Some w' /\
    recomputations (log w') = (length l + recomputations (log w))%nat.
Proof.
  revert w. induction l as [|x l IH]; intros w Hd Hw Hl; simpl; [eauto|].
  destruct (updateState_unheard page fuel w Hl) as (w1 & U & L1).
  destruct (window (host w)) as [win|] eqn:W; [|contradiction].
  destruct (updateState_cycle page fuel w w1 win Hd W U) as (_ & D1 & _ & R1 & W1 & _).
  rewrite U. simpl.
  destruct (IH w1 D1) as (w' & -> & R); [rewrite W1, W; discriminate | exact L1 |].
  exists w'. split; [reflexivity|]. rewrite R, R1. lia.
Qed.

Lemma observed_burst (fuel n k : nat) (w : World) :
  awaitingFrame k w ->
  exists w',
    performAll page fuel (repeat (Native ViewportCore.ResizeObserved) n) w = Some w' /\
    awaitingFrame (n + k) w' /\
    log w' = log w.
Proof.
  unfold performAll. revert k w. induction n as [|n IH]; intros k w H; simpl; [eauto|].
  assert (observed (host w) = true) as Ho by apply H.
  rewrite Ho. simpl.
  destruct (resizeObserved_adds_callback k w H) as (H1 & L1).
  destruct (IH (S k) _ H1) as (w' & -> & H2 & L2).
  exists w'. split; [reflexivity|]. split; [|congruence].
  now replace (S (n + k)) with (n + S k)%nat by lia.
Qed.

(** On the animation-frame path a burst is not coalesced: [n] reports of
    the ResizeObserver before the frame are followed, when the frame runs,
    by [n] executions of [updateState]. *)
Lemma frame_burst_recomputes_per_signal (fuel n : nat) (w : World) :
  awaitingFrame 0 w ->
  exists w',
    performAll page fuel
      (repeat (Native ViewportCore.ResizeObserved) n ++ [Native ViewportCore.AnimationFrame]) w
      = Some w' /\
    recomputations (log w') = (n + recomputations (log w))%nat.
Proof.
  intros H. unfold performAll. rewrite fold_left_app.
  destruct (observed_burst fuel n 0 w H) as (w1 & P & H1 & L1).
  unfold performAll in P. rewrite P. simpl.
  rewrite Nat.add_0_r in H1.
  destruct H1 as (Hd & Hw & Hl & Ho & Hn & Hf & Hr).
  destruct n as [|n].
  - destruct Hr as (_ & ->). simpl. eexists. split; [reflexivity|]. simpl. now rewrite L1.
  - destruct Hr as (id & _ & ->). simpl.
    unfold ViewportCore.frameCallback. simpl.
    match goal with |- context [fold_left _ ?l (Some ?x)] =>
      destruct (recompute_unheard fuel l x) as (w' & -> & R) end; try assumption.
    exists w'. split; [reflexivity|].
    rewrite R, values_copy, Hn. simpl. now rewrite L1.
Qed.
End Bursts.

Lemma engine_awaits_no_frame :
  awaitingFrame 0 (Sample.engine true 1024 768).
Proof.
  unfold awaitingFrame. repeat split; try reflexivity.
  - vm_compute. discriminate.
  - intros x Hx. vm_compute in Hx. destruct Hx.
Qed.

(* ===================================================================== *)
(** * Which handlers an emission invokes                                   *)
(* ===================================================================== *)

Lemma skipn_cons_inv {A : Type} (i : nat) (s : list A) (x : A) (r : list A) :
  skipn i s = x :: r -> nth_error s i = Some x /\ skipn (S i) s = r.
Proof.
  revert s. induction i as [|i IH]; intros s H.
  - destruct s as [|y s]; [discriminate|]. simpl in H. injection H as -> ->. auto.
  - destruct s as [|y s]; [discriminate|]. simpl in H. apply IH in H. exact H.
Qed.

Lemma skipn_nil_inv {A : Type} (i : nat) (s : list A) :
  skipn i s = [] -> nth_error s i = None.
Proof.
  intros H. apply nth_error_None.
  rewrite <- (firstn_skipn i s) at 1. rewrite H, app_nil_r.
  rewrite length_firstn. lia.
Qed.

Lemma has_absent (v : nat) (s : JsSet.t) :
  ~ In v (JsSet.values s) -> JsSet.has v s = false.
Proof.
  unfold JsSet.has. induction s as [|e s IH]; simpl; intros H; [reflexivity|].
  destruct e as [x|]; simpl in *.
  - rewrite IH by (intros Hin; apply H; now right).
    replace (Nat.eqb x v) with false
      by (symmetry; apply Nat.eqb_neq; intros ->; apply H; now left).
    reflexivity.
  - now apply IH.
Qed.

Lemma values_delete (v : nat) (s : JsSet.t) :
  JsSet.values (JsSet.delete v s) = filter (fun x => negb (Nat.eqb x v)) (JsSet.values s).
Proof.
  unfold JsSet.delete. induction s as [|e s IH]; simpl; [reflexivity|].
  destruct e as [x|]; simpl; [|exact IH].
  destruct (Nat.eqb x v); simpl; now rewrite IH.
Qed.

(** The first handler of a set, behind the empty slots that precede it. *)
Lemma values_first (s : JsSet.t) (x : nat) (vs : list nat) :
  JsSet.values s = x :: vs ->
  exists pre rest,
    s = pre ++ Some x :: rest /\ JsSet.values pre = [] /\ JsSet.values rest = vs.
Proof.
  induction s as [|e s IH]; simpl; [discriminate|].
  destruct e as [y|]; simpl.
  - intros [= -> <-]. exists [], s. auto.
  - intros H. destruct (IH H) as (pre & rest & -> & P & R).
    exists (None :: pre), rest. auto.
Qed.

Lemma nth_update {A : Type} (f : A -> A) (a : nat) (l : list A) (d : A) :
  (a < length l)%nat -> nth a (EventManager.update a f l) d = f (nth a l d).
Proof.
  revert a. induction l as [|x l IH]; intros a H; simpl in H; [lia|].
  destruct a; simpl; [reflexivity | apply IH; lia].
Qed.

Lemma setAt_allocated (a : nat) (w : World) :
  EventManager.setAt a w <> [] -> (a < length (sets (bus w)))%nat.
Proof.
  unfold EventManager.setAt. intros H.
  destruct (Nat.lt_ge_cases a (length (sets (bus w)))) as [L|G]; [exact L|].
  exfalso. apply H. now apply nth_overflow.
Qed.

Lemma setAt_on (e : EventType) (h : Handler) (a : nat) (w : World) :
  EventManager.mapGet e (listeners (bus w)) = Some a ->
  EventManager.setAt a w <> [] ->
  EventManager.setAt a (EventManager.on e h w) = JsSet.add h (EventManager.setAt a w) /\
  listeners (bus (EventManager.on e h w)) = listeners (bus w).
Proof.
  intros G N. unfold EventManager.on. rewrite G. simpl. rewrite G.
  unfold EventManager.setAt, EventManager.updateSet. simpl.
  split; [|reflexivity]. apply nth_update. now apply setAt_allocated.
Qed.

Lemma setAt_off (e : EventType) (h : Handler) (a : nat) (w : World) :
  EventManager.mapGet e (listeners (bus w)) = Some a ->
  EventManager.setAt a w <> [] ->
  EventManager.setAt a (EventManager.off e h w) = JsSet.delete h (EventManager.setAt a w).
Proof.
  intros G N. unfold EventManager.off. rewrite G.
  match goal with |- context [if ?c then _ else _] => destruct c end;
    unfold EventManager.setAt, EventManager.updateSet; simpl;
    apply nth_update; now apply setAt_allocated.
Qed.

Section EmissionFacts.
Variable page : Page.

Lemma invoke_invoked (e : EventType) (h : Handler) (args : list Value) (w : World) :
  invoked (log (EventManager.invoke page e h args w)) = invoked (log w) ++ [(e, h)].
Proof.
  unfold EventManager.invoke.
  match goal with |- context [EventManager.run ?c ?x] =>
    destruct (run_frame c x) as (_ & _ & R);
    destruct (EventManager.run c x) as [w1 threw] end.
  simpl in R. destruct threw; simpl; now rewrite R.
Qed.

(** A handler that neither subscribes nor unsubscribes leaves the handler
    sets as they are. *)
Lemma invoke_inert (e : EventType) (h : Handler) (args : list Value) (w : World) :
  (forall c, In c (page h args) -> c = Throw) ->
  bus (EventManager.invoke page e h args w) = bus w.
Proof.
  intros H. unfold EventManager.invoke.
  destruct (page h args) as [|c rest]; simpl; [reflexivity|].
  rewrite (H c) by now left. reflexivity.
Qed.

(** The iteration over entries that are empty or hold inert handlers. *)
Lemma forEach_inert (e : EventType) (args : list Value) (a : nat) (rest : JsSet.t) :
  forall (i fuel : nat) (w : World),
    skipn i (EventManager.setAt a w) = rest ->
    (forall h, In h (JsSet.values rest) -> forall c, In c (page h args) -> c = Throw) ->
    (length rest < fuel)%nat ->
    exists w',
      EventManager.forEach page fuel a i e args w = Some w' /\
      invoked (log w') = invoked (log w) ++ map (pair e) (JsSet.values rest).
Proof.
  induction rest as [|x rest IH]; intros i fuel w Hs I F;
    (destruct fuel as [|fuel]; [simpl in F; lia|]); simpl.
  - rewrite (skipn_nil_inv _ _ Hs). eexists. split; [reflexivity|].
    now rewrite app_nil_r.
  - destruct (skipn_cons_inv _ _ _ _ Hs) as (N & Hs'). rewrite N.
    destruct x as [h|].
    + assert (bus (EventManager.invoke page e h args w) = bus w) as B
        by (apply invoke_inert; intros c; apply I; now left).
      destruct (IH (S i) fuel (EventManager.invoke page e h args w)) as (w' & -> & L).
      * unfold EventManager.setAt. rewrite B. exact Hs'.
      * intros h' Hh'. apply I. simpl. now right.
      * simpl in F. lia.
      * exists w'. split; [reflexivity|].
        rewrite L, invoke_invoked. simpl. now rewrite <- app_assoc.
    + destruct (IH (S i) fuel w Hs') as (w' & -> & L).
      * intros h' Hh'. apply I. exact Hh'.
      * simpl in F. lia.
      * eauto.
Qed.

(** The iteration passes the empty slots before a handler. *)
Lemma forEach_skip (e : EventType) (args : list Value) (a : nat) (pre : JsSet.t) :
  forall (i fuel : nat) (w : World) (rest : JsSet.t),
    JsSet.values pre = [] ->
    skipn i (EventManager.setAt a w) = pre ++ rest ->
    EventManager.forEach page (length pre + fuel) a i e args w =
    EventManager.forEach page fuel a (i + length pre) e args w.
Proof.
  induction pre as [|x pre IH]; intros i fuel w rest V Hs; simpl.
  - now rewrite Nat.add_0_r.
  - destruct x as [h|]; [discriminate|].
    simpl in Hs. destruct (skipn_cons_inv _ _ _ _ Hs) as (N & Hs'). rewrite N.
    rewrite (IH (S i) fuel w rest V Hs'). f_equal. lia.
Qed.
End EmissionFacts.

Lemma skipn_length_app {A : Type} (l1 l2 : list A) : skipn (length l1) (l1 ++ l2) = l2.
Proof.
  induction l1 as [|x l1 IH]; simpl; [reflexivity | exact IH].
Qed.

Lemma handlersAtEmit_values (e : EventType) (w : World) (vs : list Handler) :
  handlersAtEmit e w = map (pair e) vs ->
  vs <> [] ->
  exists a,
    EventManager.mapGet e (listeners (bus w)) = Some a /\
    JsSet.values (EventManager.setAt a w) = vs.
Proof.
  unfold handlersAtEmit. intros H N.
  destruct (EventManager.mapGet e (listeners (bus w))) as [a|].
  - exists a. split; [reflexivity|].
    revert vs H N. induction (JsSet.values (EventManager.setAt a w)) as [|x l IH];
      intros vs H N; destruct vs as [|v vs]; try discriminate; try contradiction.
    simpl in H. injection H as -> H. f_equal.
    destruct vs as [|v' vs].
    + destruct l; [reflexivity | discriminate].
    + apply IH; [exact H | discriminate].
  - destruct vs; [contradiction | discriminate].
Qed.

Section LiveSet.
Variable page : Page.
Variables (e : EventType) (args : list Value).

(** When the handlers registered for the event leave the handler sets
    alone, the emission invokes the handlers registered when it starts. *)
Lemma emit_unchanged_set (fuel : nat) (w : World) :
  (forall a, (length (EventManager.setAt a w) < fuel)%nat) ->
  (forall h, In (e, h) (handlersAtEmit e w) -> forall c, In c (page h args) -> c = Throw) ->
  exists w',
    EventManager.emit page fuel e args w = Some w' /\
    invokedSince w w' = handlersAtEmit e w.
Proof.
  intros F I. unfold EventManager.emit, invokedSince, handlersAtEmit in *. simpl.
  destruct (EventManager.mapGet e (listeners (bus w))) as [a|].
  - match goal with |- context [EventManager.forEach page fuel a 0 e args ?x] =>
      destruct (forEach_inert page e args a (EventManager.setAt a w) 0 fuel x)
        as (w' & -> & L) end.
    + reflexivity.
    + intros h Hh. apply I. apply in_map_iff. now exists h.
    + apply F.
    + exists w'. split; [reflexivity|]. rewrite L. simpl. apply skipn_length_app.
  - eexists. split; [reflexivity|]. simpl.
    rewrite <- (app_nil_r (invoked (log w))) at 2. apply skipn_length_app.
Qed.

End LiveSet.

(** What [destroy] does on a live engine, for every engine: the animation
    frame that the engine had requested is cancelled and its callbacks are
    dropped, and the ResizeObserver is disconnected; the listeners
    registered on the window, the visual viewport and the media queries
    are left registered, and only the guard of [updateState] keeps what
    they trigger afterwards from recomputing the state, emitting an event
    or invoking a subscriber. *)
Theorem destroy_cancels_frame_keeps_listeners (page : Page) (fuel : nat)
    (ops : list Op) (w : World) :
  isDestroyed (core w) = false ->
  rafId (bus (ViewportCore.destroy w)) = None /\
  (forall id, rafId (bus w) = Some id ->
              ~ In id (frames (host (ViewportCore.destroy w)))) /\
  JsSet.values (rafCallbacks (bus (ViewportCore.destroy w))) = [] /\
  (resizeObserver (core w) = true ->
   observed (host (ViewportCore.destroy w)) = false) /\
  registrations (host (ViewportCore.destroy w)) = registrations (host w) /\
  exists w',
    performAll page fuel ops (ViewportCore.destroy w) = Some w' /\
    log w' = log w.
Proof.
  intros Hd.
  assert (rafId (bus (ViewportCore.destroy w)) = None /\
          JsSet.values (rafCallbacks (bus (ViewportCore.destroy w))) = [] /\
          log (ViewportCore.destroy w) = log w) as (R & V & L).
  { unfold ViewportCore.destroy, EventManager.destroy. rewrite Hd. simpl.
    destruct (resizeObserver (core w)); simpl; destruct (rafId (bus w)) eqn:E; simpl;
      rewrite values_clear; auto. }
  split; [exact R|]. split.
  { intros id Hid. apply (destroy_cancels_frame w id Hd Hid). }
  split; [exact V|]. split.
  { intros Hro. destruct (rafId (bus w)) as [id|] eqn:Hid.
    - now apply (destroy_cancels_frame w id Hd Hid).
    - unfold ViewportCore.destroy, EventManager.destroy. rewrite Hd. simpl.
      rewrite Hro. simpl. rewrite Hid. reflexivity. }
  split; [apply destroy_keeps_timers_and_registrations|].
  destruct (destroy_core w Hd) as (D & S).
  destruct (performAll_destroyed page fuel ops _ D S) as (w' & P & _ & _ & L').
  exists w'. split; [exact P | congruence].
Qed.

Lemma destroy_cancels_frame_keeps_listeners_witness :
  rafId (bus (ViewportCore.destroy Sample.observing)) = None /\
  (forall id, rafId (bus Sample.observing) = Some id ->
              ~ In id (frames (host (ViewportCore.destroy Sample.observing)))) /\
  JsSet.values (rafCallbacks (bus (ViewportCore.destroy Sample.observing))) = [] /\
  (resizeObserver (core Sample.observing) = true ->
   observed (host (ViewportCore.destroy Sample.observing)) = false) /\
  registrations (host (ViewportCore.destroy Sample.observing))
  = registrations (host Sample.observing) /\
  exists w',
    performAll Sample.quiet 0
      [Native (ViewportCore.Dispatch (MediaQueryChange 768)); Native ViewportCore.AnimationFrame]
      (ViewportCore.destroy Sample.observing) = Some w' /\
    log w' = log Sample.observing.
Proof.
  apply (destroy_cancels_frame_keeps_listeners Sample.quiet 0
           [Native (ViewportCore.Dispatch (MediaQueryChange 768));
            Native ViewportCore.AnimationFrame]
           Sample.observing).
  reflexivity.
Defined.

(* ===================================================================== *)
(** * Lookup in merged objects                                             *)
(* ===================================================================== *)

Lemma get_set_same (k : string) (v : Z) (o : JsObject.t) :
  JsObject.get k (JsObject.set k v o) = Some v.
Proof.
  induction o as [|[k' v'] o IH]; simpl.
  - now rewrite String.eqb_refl.
  - destruct (String.eqb k k') eqn:E; simpl; rewrite E; [reflexivity | exact IH].
Qed.

Lemma get_set_other (k k' : string) (v : Z) (o : JsObject.t) :
  k <> k' -> JsObject.get k' (JsObject.set k v o) = JsObject.get k' o.
Proof.
  intros Hne. induction o as [|[k0 v0] o IH]; simpl.
  - replace (String.eqb k' k) with false; [reflexivity|].
    symmetry. apply String.eqb_neq. congruence.
  - destruct (String.eqb k k0) eqn:E; simpl.
    + apply String.eqb_eq in E. subst k0.
      replace (String.eqb k' k) with false; [reflexivity|].
      symmetry. apply String.eqb_neq. congruence.
    + now rewrite IH.
Qed.

Lemma keys_set (k : string) (v : Z) (o : JsObject.t) :
  (In k (map fst o) /\ map fst (JsObject.set k v o) = map fst o) \/
  (~ In k (map fst o) /\ map fst (JsObject.set k v o) = map fst o ++ [k]).
Proof.
  induction o as [|[k' v'] o IH]; simpl.
  - right. split; [intros [] | reflexivity].
  - destruct (String.eqb k k') eqn:E; simpl.
    + apply String.eqb_eq in E. subst k'. left. split; [now left | reflexivity].
    + apply String.eqb_neq in E.
      destruct IH as [(Hin & ->) | (Hn & ->)].
      * left. split; [now right | reflexivity].
      * right. split; [|reflexivity]. intros [H|H]; [congruence | contradiction].
Qed.

Lemma set_unique_keys (k : string) (v : Z) (o : JsObject.t) :
  NoDup (map fst o) -> NoDup (map fst (JsObject.set k v o)).
Proof.
  intros H. destruct (keys_set k v o) as [(_ & ->) | (Hn & ->)]; [exact H|].
  apply NoDup_app; [exact H | repeat constructor; intros [] |].
  intros x Hx [<-|[]]. contradiction.
Qed.

Lemma fold_set_unique_keys (l : list (string * Z)) (o : JsObject.t) :
  NoDup (map fst o) ->
  NoDup (map fst (fold_left (fun acc p => JsObject.set (fst p) (snd p) acc) l o)).
Proof.
  revert o. induction l as [|p l IH]; intros o H; simpl; [exact H|].
  apply IH. now apply set_unique_keys.
Qed.

Lemma get_fold_set (k : string) (l : list (string * Z)) (o : JsObject.t) :
  NoDup (map fst l) ->
  JsObject.get k (fold_left (fun acc p => JsObject.set (fst p) (snd p) acc) l o) =
  match JsObject.get k l with
  | Some v => Some v
  | None => JsObject.get k o
  end.
Proof.
  revert o. induction l as [|[k1 v1] l IH]; intros o H; simpl; [reflexivity|].
  inversion H as [|? ? Hn Hd]; subst.
  rewrite IH by exact Hd.
  destruct (String.eqb k k1) eqn:E.
  - apply String.eqb_eq in E. subst k1.
    assert (JsObject.get k l = None) as ->.
    { clear -Hn. induction l as [|[k2 v2] l IH]; simpl; [reflexivity|].
      destruct (String.eqb k k2) eqn:E2.
      - apply String.eqb_eq in E2. subst. exfalso. apply Hn. now left.
      - apply IH. intros Hin. apply Hn. now right. }
    apply get_set_same.
  - apply String.eqb_neq in E.
    destruct (JsObject.get k l); [reflexivity|].
    apply get_set_other. congruence.
Qed.

Lemma get_in (k : string) (v : Z) (l : list (string * Z)) :
  NoDup (map fst l) -> (JsObject.get k l = Some v <-> In (k, v) l).
Proof.
  induction l as [|[k1 v1] l IH]; simpl; intros H.
  - split; [discriminate | intros []].
  - inversion H as [|? ? Hn Hd]; subst.
    destruct (String.eqb k k1) eqn:E.
    + apply String.eqb_eq in E. subst k1. split.
      * intros [= ->]. now left.
      * intros [[= ->]|Hin]; [reflexivity|].
        exfalso. apply Hn. apply in_map_iff. now exists (k, v).
    + apply String.eqb_neq in E. rewrite (IH Hd). split.
      * intros Hin. now right.
      * intros [[= -> ->]|Hin]; [congruence | exact Hin].
Qed.

Lemma get_permutation (k : string) (l1 l2 : list (string * Z)) :
  Permutation l1 l2 -> NoDup (map fst l1) -> JsObject.get k l1 = JsObject.get k l2.
Proof.
  intros P H1.
  assert (NoDup (map fst l2)) as H2
    by (eapply Permutation_NoDup; [apply Permutation_map; exact P | exact H1]).
  destruct (JsObject.get k l1) as [v|] eqn:G1.
  - symmetry. apply (get_in k v l2 H2).
    apply (Permutation_in _ P). now apply (get_in k v l1 H1).
  - destruct (JsObject.get k l2) as [v|] eqn:G2; [|reflexivity].
    apply (get_in k v l2 H2) in G2.
    apply (Permutation_in _ (Permutation_sym P)) in G2.
    apply (get_in k v l1 H1) in G2. congruence.
Qed.

Lemma insert_permutation {A : Type} (cmp : A -> A -> Z) (x : A) (l : list A) :
  Permutation (JsArray.insert cmp x l) (x :: l).
Proof.
  induction l as [|h t IH]; simpl; [reflexivity|].
  destruct (cmp x h >? 0); [|reflexivity].
  rewrite IH. apply perm_swap.
Qed.

Lemma sort_permutation {A : Type} (cmp : A -> A -> Z) (l : list A) :
  Permutation (JsArray.sort cmp l) l.
Proof.
  induction l as [|x t IH]; simpl; [reflexivity|].
  rewrite insert_permutation. now constructor.
Qed.

Lemma partition_permutation {A : Type} (f : A -> bool) (l : list A) :
  Permutation (filter f l ++ filter (fun x => negb (f x)) l) l.
Proof.
  induction l as [|x l IH]; simpl; [reflexivity|].
  destruct (f x); simpl.
  - now constructor.
  - rewrite <- Permutation_middle. now constructor.
Qed.

Lemma entries_permutation (o : JsObject.t) : Permutation (JsObject.entries o) o.
Proof.
  unfold JsObject.entries. rewrite sort_permutation. apply partition_permutation.
Qed.

Lemma assign_lookup (k : string) (target source : JsObject.t) :
  NoDup (map fst source) ->
  JsObject.get k (JsObject.assign target source) =
  match JsObject.get k source with
  | Some v => Some v
  | None => JsObject.get k target
  end.
Proof.
  intros H. unfold JsObject.assign.
  assert (Permutation (JsObject.entries source) source) as P by apply entries_permutation.
  assert (NoDup (map fst (JsObject.entries source))) as He.
  { eapply Permutation_NoDup; [apply Permutation_map, Permutation_sym; exact P | exact H]. }
  rewrite get_fold_set by exact He.
  now rewrite (get_permutation k _ _ P He).
Qed.

(** X1. In the merged table a custom breakpoint replaces the default of
    the same name, a custom breakpoint with a new name is added, and every
    other default keeps its threshold. *)
Theorem merged_table_lookup (cfg : Config) (name : string) :
  NoDup (map fst (breakpoints cfg)) ->
  NoDup (map fst (customBreakpoints cfg)) ->
  JsObject.get name (allBreakpoints cfg) =
  match JsObject.get name (customBreakpoints cfg) with
  | Some t => Some t
  | None => JsObject.get name (breakpoints cfg)
  end.
Proof.
  intros Hb Hc. unfold allBreakpoints, JsObject.spread.
  rewrite assign_lookup by exact Hc.
  destruct (JsObject.get name (customBreakpoints cfg)); [reflexivity|].
  rewrite assign_lookup by exact Hb.
  now destruct (JsObject.get name (breakpoints cfg)).
Qed.

Lemma merged_table_lookup_witness :
  JsObject.get "md" (allBreakpoints Sample.customMdConfig) =
  match JsObject.get "md" (customBreakpoints Sample.customMdConfig) with
  | Some t => Some t
  | None => JsObject.get "md" (breakpoints Sample.customMdConfig)
  end.
Proof.
  apply (merged_table_lookup Sample.customMdConfig "md").
  - vm_compute. repeat constructor; simpl; intuition discriminate.
  - vm_compute. repeat constructor; simpl; intuition discriminate.
Defined.

(** X2. The merged table never has two entries of the same name, whatever
    the two option objects are. *)
Theorem merged_table_unique_names (cfg : Config) :
  NoDup (map fst (allBreakpoints cfg)).
Proof.
  unfold allBreakpoints, JsObject.spread, JsObject.assign.
  apply fold_set_unique_keys, fold_set_unique_keys. constructor.
Qed.

(** X3. The classification is monotone: of two widths, the wider one is
    never classified under a smaller threshold. *)
Theorem calculateBreakpoint_monotone (cfg : Config) (w1 w2 : Z) :
  allBreakpoints cfg <> [] ->
  w1 <= w2 ->
  exists t1 t2,
    In (calculateBreakpoint cfg w1, t1) (allBreakpoints cfg) /\
    In (calculateBreakpoint cfg w2, t2) (allBreakpoints cfg) /\
    t1 <= t2.
Proof.
  intros Hne Hle. rewrite !calculateBreakpoint_pick.
  set (es := JsObject.entries (allBreakpoints cfg)).
  assert (es <> []) as Hes by (intros E; apply Hne, entries_nil_inv, E).
  destruct (least es) as [[n0 t0]|] eqn:L; [|apply least_none in L; contradiction].
  apply least_some in L. destruct L as (Hin0 & Hmin).
  destruct (pick w2 es) as [[n2 t2]|] eqn:P2.
  - apply pick_some in P2. destruct P2 as (Hin2 & Hle2 & Hmax2).
    destruct (pick w1 es) as [[n1 t1]|] eqn:P1.
    + apply pick_some in P1. destruct P1 as (Hin1 & Hle1 & _).
      exists t1, t2. simpl in *. repeat split; try now apply in_entries.
      apply (Hmax2 (n1, t1) Hin1). simpl. lia.
    + exists t0, t2. simpl in *. repeat split; try now apply in_entries.
      apply (Hmin (n2, t2) Hin2).
  - pose proof (pick_none _ _ P2) as Hall.
    destruct (pick w1 es) as [[n1 t1]|] eqn:P1.
    + apply pick_some in P1. destruct P1 as (Hin1 & Hle1 & _).
      specialize (Hall (n1, t1) Hin1). simpl in *. lia.
    + exists t0, t0. simpl in *. repeat split; try now apply in_entries. lia.
Qed.

Lemma calculateBreakpoint_monotone_witness :
  exists t1 t2,
    In (calculateBreakpoint DEFAULT_CONFIG 600, t1) (allBreakpoints DEFAULT_CONFIG) /\
    In (calculateBreakpoint DEFAULT_CONFIG 1300, t2) (allBreakpoints DEFAULT_CONFIG) /\
    t1 <= t2.
Proof.
  apply (calculateBreakpoint_monotone DEFAULT_CONFIG 600 1300).
  - vm_compute. discriminate.
  - lia.
Defined.

(** X4. With the default table and no custom breakpoints the device class
    and the breakpoint of a computed state agree: the state is mobile
    exactly under [xs] and [sm], tablet exactly under [md], and desktop
    exactly under [lg], [xl] and [xxl]. *)
Theorem default_classes_follow_breakpoints (cfg : Config) (win : Window) :
  breakpoints cfg = DEFAULT_BREAKPOINTS ->
  customBreakpoints cfg = [] ->
  (isMobile (calculateState cfg win) = true <->
     breakpoint (calculateState cfg win) = "xs" \/
     breakpoint (calculateState cfg win) = "sm") /\
  (isTablet (calculateState cfg win) = true <->
     breakpoint (calculateState cfg win) = "md") /\
  (isDesktop (calculateState cfg win) = true <->
     breakpoint (calculateState cfg win) = "lg" \/
     breakpoint (calculateState cfg win) = "xl" \/
     breakpoint (calculateState cfg win) = "xxl").
Proof.
  intros Hb Hc. unfold calculateState. simpl.
  unfold calculateIsMobile, calculateIsTablet, mdBreakpoint, lgBreakpoint,
    calculateBreakpoint, sortedDescending, sortedAscending, allBreakpoints.
  rewrite Hb, Hc. simpl.
  set (w := innerWidth win).
  destruct (w >=? 1400) eqn:C1; [|destruct (w >=? 1200) eqn:C2;
    [|destruct (w >=? 992) eqn:C3; [|destruct (w >=? 768) eqn:C4;
      [|destruct (w >=? 576) eqn:C5; [|destruct (w >=? 0) eqn:C6]]]]];
    destruct (w <? 768) eqn:M; destruct (w <? 992) eqn:L; simpl; try lia;
    try (destruct (w >=? 768) eqn:G; simpl; try lia);
    repeat split; intros; try discriminate; auto;
    repeat match goal with H : _ \/ _ |- _ => destruct H end; discriminate.
Qed.

Lemma default_classes_follow_breakpoints_witness :
  (isMobile (calculateState DEFAULT_CONFIG (Sample.viewport 800 600)) = true <->
     breakpoint (calculateState DEFAULT_CONFIG (Sample.viewport 800 600)) = "xs" \/
     breakpoint (calculateState DEFAULT_CONFIG (Sample.viewport 800 600)) = "sm") /\
  (isTablet (calculateState DEFAULT_CONFIG (Sample.viewport 800 600)) = true <->
     breakpoint (calculateState DEFAULT_CONFIG (Sample.viewport 800 600)) = "md") /\
  (isDesktop (calculateState DEFAULT_CONFIG (Sample.viewport 800 600)) = true <->
     breakpoint (calculateState DEFAULT_CONFIG (Sample.viewport 800 600)) = "lg" \/
     breakpoint (calculateState DEFAULT_CONFIG (Sample.viewport 800 600)) = "xl" \/
     breakpoint (calculateState DEFAULT_CONFIG (Sample.viewport 800 600)) = "xxl").
Proof.
  apply (default_classes_follow_breakpoints DEFAULT_CONFIG (Sample.viewport 800 600));
    reflexivity.
Defined.

(** X5. The pixel ratio of a computed state is never zero: a missing or
    zero [devicePixelRatio] is replaced by 1, and so is every ratio when
    high-DPI detection is disabled; every other [devicePixelRatio] is
    reported as it is. *)
Theorem pixelRatio_never_zero (cfg : Config) (win : Window) :
  ~ (pixelRatio (calculateState cfg win) == 0)%Q /\
  (enableHighDPI cfg = false -> pixelRatio (calculateState cfg win) = 1%Q) /\
  (devicePixelRatio win = None -> pixelRatio (calculateState cfg win) = 1%Q) /\
  (forall q, devicePixelRatio win = Some q -> (q == 0)%Q ->
             pixelRatio (calculateState cfg win) = 1%Q) /\
  (forall q, enableHighDPI cfg = true -> devicePixelRatio win = Some q -> ~ (q == 0)%Q ->
             pixelRatio (calculateState cfg win) = q).
Proof.
  assert (~ (1 == 0)%Q) as One by (unfold Qeq; simpl; lia).
  unfold calculateState. simpl. unfold ratioOrOne.
  split; [|split; [|split; [|split]]].
  - destruct (enableHighDPI cfg); [|exact One].
    destruct (devicePixelRatio win) as [q|]; [|exact One].
    destruct (Qeq_bool q 0) eqn:E; [exact One|].
    now apply Qeq_bool_neq.
  - now intros ->.
  - intros ->. now destruct (enableHighDPI cfg).
  - intros q -> Z. apply Qeq_bool_iff in Z. rewrite Z. now destruct (enableHighDPI cfg).
  - intros q -> -> N. destruct (Qeq_bool q 0) eqn:E; [|reflexivity].
    apply Qeq_bool_iff in E. contradiction.
Qed.

Lemma pixelRatio_never_zero_witness :
  pixelRatio
    (calculateState (mergeConfig Sample.defaults)
       {| innerWidth := 1024; innerHeight := 768; devicePixelRatio := Some 0%Q;
          screen := None; ontouchstart := false;
          maxTouchPoints := None; msMaxTouchPoints := None |}) = 1%Q /\
  pixelRatio
    (calculateState (mergeConfig Sample.defaults)
       {| innerWidth := 1024; innerHeight := 768; devicePixelRatio := Some 2%Q;
          screen := None; ontouchstart := false;
          maxTouchPoints := None; msMaxTouchPoints := None |}) = 2%Q.
Proof.
  split.
  - apply (proj1 (proj2 (proj2 (proj2
             (pixelRatio_never_zero (mergeConfig Sample.defaults)
                {| innerWidth := 1024; innerHeight := 768; devicePixelRatio := Some 0%Q;
                   screen := None; ontouchstart := false;
                   maxTouchPoints := None; msMaxTouchPoints := None |})))) 0%Q).
    + reflexivity.
    + reflexivity.
  - apply (proj2 (proj2 (proj2 (proj2
             (pixelRatio_never_zero (mergeConfig Sample.defaults)
                {| innerWidth := 1024; innerHeight := 768; devicePixelRatio := Some 2%Q;
                   screen := None; ontouchstart := false;
                   maxTouchPoints := None; msMaxTouchPoints := None |})))) 2%Q).
    + reflexivity.
    + reflexivity.
    + unfold Qeq. simpl. lia.
Defined.

(* ===================================================================== *)
(** * Subscribing and unsubscribing                                        *)
(* ===================================================================== *)

Lemma EventType_eqb_eq (a b : EventType) : EventType_eqb a b = true <-> a = b.
Proof.
  destruct a, b; simpl; split; intros H; try reflexivity; discriminate.
Qed.

Lemma EventType_eqb_refl (a : EventType) : EventType_eqb a a = true.
Proof. now apply EventType_eqb_eq. Qed.

Lemma EventType_eqb_neq (a b : EventType) : a <> b -> EventType_eqb a b = false.
Proof.
  intros H. destruct (EventType_eqb a b) eqn:E; [|reflexivity].
  apply EventType_eqb_eq in E. contradiction.
Qed.

Lemma mapGet_in (e : EventType) (a : nat) (l : list (EventType * nat)) :
  EventManager.mapGet e l = Some a -> In (e, a) l.
Proof.
  unfold EventManager.mapGet.
  destruct (find _ l) as [[e' a']|] eqn:F; [|discriminate].
  intros [= <-]. apply find_some in F. destruct F as (Hin & E).
  simpl in E. apply EventType_eqb_eq in E. now subst.
Qed.

Lemma mapGet_none (e : EventType) (l : list (EventType * nat)) :
  EventManager.mapGet e l = None -> forall a, ~ In (e, a) l.
Proof.
  unfold EventManager.mapGet.
  destruct (find _ l) as [p|] eqn:F; [discriminate|].
  intros _ a Hin. apply (find_none _ _ F) in Hin. simpl in Hin.
  now rewrite EventType_eqb_refl in Hin.
Qed.

Lemma mapGet_unique (e : EventType) (a : nat) (l : list (EventType * nat)) :
  NoDup (map fst l) -> In (e, a) l -> EventManager.mapGet e l = Some a.
Proof.
  unfold EventManager.mapGet. induction l as [|[e' a'] l IH]; simpl; intros H Hin.
  - destruct Hin.
  - inversion H as [|? ? Hn Hd]; subst.
    destruct (EventType_eqb e' e) eqn:E.
    + apply EventType_eqb_eq in E. subst e'.
      destruct Hin as [[= ->]|Hin]; [reflexivity|].
      exfalso. apply Hn. apply in_map_iff. now exists (e, a).
    + destruct Hin as [[= -> ->]|Hin].
      * now rewrite EventType_eqb_refl in E.
      * now apply IH.
Qed.

Lemma mapGet_app (e : EventType) (l1 l2 : list (EventType * nat)) :
  EventManager.mapGet e (l1 ++ l2) =
  match EventManager.mapGet e l1 with
  | Some a => Some a
  | None => EventManager.mapGet e l2
  end.
Proof.
  unfold EventManager.mapGet. induction l1 as [|p l1 IH]; simpl; [reflexivity|].
  destruct (EventType_eqb (fst p) e); [reflexivity | exact IH].
Qed.

Lemma mapGet_mapDelete_same (e : EventType) (l : list (EventType * nat)) :
  EventManager.mapGet e (EventManager.mapDelete e l) = None.
Proof.
  unfold EventManager.mapGet, EventManager.mapDelete.
  induction l as [|p l IH]; simpl; [reflexivity|].
  destruct (EventType_eqb (fst p) e) eqn:E; simpl; [exact IH|].
  now rewrite E.
Qed.

Lemma mapGet_mapDelete_other (e e' : EventType) (l : list (EventType * nat)) :
  e' <> e ->
  EventManager.mapGet e' (EventManager.mapDelete e l) = EventManager.mapGet e' l.
Proof.
  intros Hne. unfold EventManager.mapGet, EventManager.mapDelete.
  induction l as [|p l IH]; simpl; [reflexivity|].
  destruct (EventType_eqb (fst p) e) eqn:E; simpl.
  - apply EventType_eqb_eq in E.
    replace (EventType_eqb (fst p) e') with false
      by (symmetry; apply EventType_eqb_neq; congruence).
    exact IH.
  - destruct (EventType_eqb (fst p) e'); [reflexivity | exact IH].
Qed.

Lemma update_length {A : Type} (f : A -> A) (a : nat) (l : list A) :
  length (EventManager.update a f l) = length l.
Proof.
  revert a. induction l as [|x l IH]; intros a; destruct a; simpl; auto.
Qed.

Lemma nth_update_other {A : Type} (f : A -> A) (a b : nat) (l : list A) (d : A) :
  a <> b -> nth b (EventManager.update a f l) d = nth b l d.
Proof.
  revert a b. induction l as [|x l IH]; intros a b H; destruct a, b; simpl; auto.
  - contradiction.
Qed.

Lemma update_idempotent {A : Type} (f : A -> A) (a : nat) (l : list A) :
  (forall x, f (f x) = f x) ->
  EventManager.update a f (EventManager.update a f l) = EventManager.update a f l.
Proof.
  intros Hf. revert a. induction l as [|x l IH]; intros a; destruct a; simpl; auto.
  - now rewrite Hf.
  - now rewrite IH.
Qed.

Lemma has_present (v : nat) (s : JsSet.t) :
  JsSet.has v s = true <-> In v (JsSet.values s).
Proof.
  split.
  - unfold JsSet.has. intros H. apply existsb_exists in H.
    destruct H as ([x|] & Hin & Hx); simpl in Hx; [|discriminate].
    apply Nat.eqb_eq in Hx. subst x.
    unfold JsSet.values. apply in_flat_map. exists (Some v). split; [exact Hin | now left].
  - intros H. destruct (JsSet.has v s) eqn:E; [reflexivity|].
    exfalso. unfold JsSet.values in H. apply in_flat_map in H.
    destruct H as ([x|] & Hin & Hx); simpl in Hx; [|destruct Hx].
    destruct Hx as [<-|[]].
    unfold JsSet.has in E.
    assert (existsb (JsSet.holds x) s = true) as T
      by (apply existsb_exists; exists (Some x); split; [exact Hin | apply Nat.eqb_refl]).
    congruence.
Qed.

Lemma delete_idempotent (v : nat) (s : JsSet.t) :
  JsSet.delete v (JsSet.delete v s) = JsSet.delete v s.
Proof.
  unfold JsSet.delete. rewrite map_map. apply map_ext. intros [x|]; simpl; [|reflexivity].
  destruct (Nat.eqb x v) eqn:E; simpl; [reflexivity | now rewrite E].
Qed.

Lemma same_address (l : list (EventType * nat)) (e e' : EventType) (a : nat) :
  NoDup (map snd l) -> In (e, a) l -> In (e', a) l -> e = e'.
Proof.
  induction l as [|[e0 a0] l IH]; simpl; intros H H1 H2; [destruct H1|].
  inversion H as [|? ? Hn Hd]; subst.
  destruct H1 as [H1|H1], H2 as [H2|H2].
  - congruence.
  - injection H1 as -> ->. exfalso. apply Hn. apply in_map_iff. now exists (e', a).
  - injection H2 as -> ->. exfalso. apply Hn. apply in_map_iff. now exists (e, a).
  - now apply IH.
Qed.

(** Removing entries of a table keeps its keys distinct. *)
Lemma filter_keeps_distinct {K V : Type} (key : V -> K) (keep : V -> bool) :
  forall entries : list V,
    NoDup (map key entries) -> NoDup (map key (filter keep entries)).
Proof.
  intros entries. induction entries as [|x l IH]; simpl; intros H; [constructor|].
  inversion H as [|? ? Hn Hd]; subst.
  destruct (keep x); simpl; [|now apply IH].
  constructor; [|now apply IH].
  intros Hin. apply Hn. apply in_map_iff in Hin. destruct Hin as (y & <- & Hy).
  apply filter_In in Hy. apply in_map_iff. exists y. tauto.
Qed.

Lemma mapGet_single (e e' : EventType) (n : nat) :
  EventManager.mapGet e' [(e, n)] = if EventType_eqb e e' then Some n else None.
Proof.
  unfold EventManager.mapGet. simpl. now destruct (EventType_eqb e e').
Qed.

Lemma on_existing (e : EventType) (h : Handler) (w : World) (a : nat) :
  EventManager.mapGet e (listeners (bus w)) = Some a ->
  EventManager.on e h w = EventManager.updateSet a (JsSet.add h) w.
Proof.
  intros G. unfold EventManager.on. rewrite G. simpl. now rewrite G.
Qed.

Lemma on_new (e : EventType) (h : Handler) (w : World) :
  EventManager.mapGet e (listeners (bus w)) = None ->
  EventManager.on e h w =
  EventManager.updateSet (length (sets (bus w))) (JsSet.add h)
    (on_bus (fun b => set_listeners (listeners b ++ [(e, length (sets b))])
                                    (set_sets (sets b ++ [[]]) b)) w).
Proof.
  intros G. unfold EventManager.on. rewrite G. simpl.
  now rewrite mapGet_app, G, mapGet_single, EventType_eqb_refl.
Qed.

(** What [on] does to the registered handlers. *)
Lemma on_registered (e : EventType) (h : Handler) (w : World) :
  wellFormedBus w ->
  registered e (EventManager.on e h w) =
    (if existsb (Nat.eqb h) (registered e w)
     then registered e w else registered e w ++ [h]) /\
  (forall e', e' <> e -> registered e' (EventManager.on e h w) = registered e' w) /\
  wellFormedBus (EventManager.on e h w).
Proof.
  intros (K1 & K2 & K3).
  assert (forall s, existsb (Nat.eqb h) (JsSet.values s) = JsSet.has h s) as Ex.
  { intros s. destruct (JsSet.has h s) eqn:E.
    - apply existsb_exists. exists h. split; [now apply has_present | apply Nat.eqb_refl].
    - destruct (existsb (Nat.eqb h) (JsSet.values s)) eqn:E'; [|reflexivity].
      apply existsb_exists in E'. destruct E' as (x & Hx & Hxh).
      apply Nat.eqb_eq in Hxh. subst x. apply has_present in Hx. congruence. }
  unfold registered.
  destruct (EventManager.mapGet e (listeners (bus w))) as [a|] eqn:G.
  - rewrite (on_existing e h w a G). pose proof (mapGet_in _ _ _ G) as Hin.
    destruct (K3 e a Hin) as (La & Na).
    assert (EventManager.setAt a (EventManager.updateSet a (JsSet.add h) w)
            = JsSet.add h (EventManager.setAt a w)) as Sa
      by (unfold EventManager.setAt, EventManager.updateSet; simpl; now apply nth_update).
    split; [|split].
    + simpl. rewrite G, Sa, Ex. unfold JsSet.add.
      destruct (JsSet.has h (EventManager.setAt a w)); [reflexivity | apply values_app].
    + intros e' Hne. simpl.
      destruct (EventManager.mapGet e' (listeners (bus w))) as [a'|] eqn:G'; [|reflexivity].
      unfold EventManager.setAt, EventManager.updateSet. simpl.
      rewrite nth_update_other; [reflexivity|].
      intros <-. apply Hne.
      apply (same_address _ _ _ a K2 (mapGet_in _ _ _ G') Hin).
    + unfold wellFormedBus. simpl. split; [exact K1|]. split; [exact K2|].
      intros e' a' Hin'. rewrite update_length.
      destruct (K3 e' a' Hin') as (L' & N'). split; [exact L'|].
      destruct (Nat.eq_dec a a') as [<-|Hne].
      * rewrite Sa. unfold JsSet.add.
        destruct (JsSet.has h (EventManager.setAt a w)); [exact Na|].
        rewrite values_app. simpl. now destruct (JsSet.values (EventManager.setAt a w)).
      * unfold EventManager.setAt, EventManager.updateSet. simpl.
        now rewrite nth_update_other.
  - rewrite (on_new e h w G).
    set (n := length (sets (bus w))).
    assert (forall a, In a (map snd (listeners (bus w))) -> (a < n)%nat) as Bound.
    { intros a Ha. apply in_map_iff in Ha. destruct Ha as ([e0 a0] & <- & H0).
      now apply (K3 e0 a0). }
    assert (forall b, nth b (EventManager.update n (JsSet.add h) (sets (bus w) ++ [[]])) []
                      = if Nat.eqb b n then [Some h] else nth b (sets (bus w)) []) as Nth.
    { intros b. destruct (Nat.eqb b n) eqn:E.
      - apply Nat.eqb_eq in E. subst b. rewrite nth_update.
        + subst n. rewrite app_nth2, Nat.sub_diag by lia. reflexivity.
        + subst n. rewrite length_app. simpl. lia.
      - apply Nat.eqb_neq in E. rewrite nth_update_other by congruence.
        destruct (Nat.lt_ge_cases b n) as [Lt|Ge].
        + now rewrite app_nth1.
        + rewrite !nth_overflow; [reflexivity | subst n; lia |].
          rewrite length_app. simpl. subst n. lia. }
    split; [|split].
    + simpl. rewrite mapGet_app, G, mapGet_single, EventType_eqb_refl.
      unfold EventManager.setAt, EventManager.updateSet. simpl.
      fold n. rewrite Nth, Nat.eqb_refl. reflexivity.
    + intros e' Hne. simpl. rewrite mapGet_app, mapGet_single.
      rewrite (EventType_eqb_neq e e') by congruence.
      destruct (EventManager.mapGet e' (listeners (bus w))) as [a'|] eqn:G'; [|reflexivity].
      unfold EventManager.setAt, EventManager.updateSet. simpl. fold n. rewrite Nth.
      assert (a' < n)%nat as Lt.
      { apply Bound. apply in_map_iff. exists (e', a'). split; [reflexivity|].
        now apply mapGet_in. }
      replace (Nat.eqb a' n) with false by (symmetry; apply Nat.eqb_neq; lia).
      reflexivity.
    + unfold wellFormedBus. simpl. rewrite !map_app. simpl.
      split; [|split].
      * apply NoDup_app; [exact K1 | repeat constructor; intros [] |].
        intros x Hx [<-|[]]. apply in_map_iff in Hx. destruct Hx as ([e0 a0] & E0 & H0).
        simpl in E0. subst e0. now apply (mapGet_none _ _ G a0).
      * apply NoDup_app; [exact K2 | repeat constructor; intros [] |].
        intros x Hx [<-|[]]. apply Bound in Hx. fold n in Hx. lia.
      * intros e' a' Hin'. rewrite update_length, length_app. simpl.
        unfold EventManager.setAt. simpl. fold n. rewrite Nth.
        apply in_app_iff in Hin'. destruct Hin' as [Hin'|[Hin'|[]]].
        -- destruct (K3 e' a' Hin') as (L' & N'). split; [fold n in L'; lia|].
           replace (Nat.eqb a' n) with false
             by (symmetry; apply Nat.eqb_neq; fold n in L'; lia).
           exact N'.
        -- injection Hin' as <- <-. split; [lia|]. rewrite Nat.eqb_refl. discriminate.
Qed.

(** What [off] does to the registered handlers. *)
Lemma off_registered (e : EventType) (h : Handler) (w : World) :
  wellFormedBus w ->
  registered e (EventManager.off e h w) =
    filter (fun x => negb (Nat.eqb x h)) (registered e w) /\
  (forall e', e' <> e -> registered e' (EventManager.off e h w) = registered e' w) /\
  wellFormedBus (EventManager.off e h w).
Proof.
  intros (K1 & K2 & K3). unfold registered, EventManager.off.
  destruct (EventManager.mapGet e (listeners (bus w))) as [a|] eqn:G.
  - pose proof (mapGet_in _ _ _ G) as Hin.
    destruct (K3 e a Hin) as (La & Na).
    set (w1 := EventManager.updateSet a (JsSet.delete h) w).
    assert (EventManager.setAt a w1 = JsSet.delete h (EventManager.setAt a w)) as Sa
      by (unfold EventManager.setAt, w1, EventManager.updateSet; simpl; now apply nth_update).
    assert (forall b, b <> a -> EventManager.setAt b w1 = EventManager.setAt b w) as Sb.
    { intros b Hb. unfold EventManager.setAt, w1, EventManager.updateSet. simpl.
      apply nth_update_other. congruence. }
    assert (forall e' a', e' <> e -> In (e', a') (listeners (bus w)) -> a' <> a) as Other.
    { intros e' a' Hne Hin' ->. apply Hne.
      apply (same_address _ _ _ a K2 Hin' Hin). }
    unfold JsSet.size. rewrite Sa, values_delete.
    destruct (Nat.eqb (length (filter (fun x => negb (Nat.eqb x h))
                                      (JsSet.values (EventManager.setAt a w)))) 0) eqn:Z.
    + apply Nat.eqb_eq, length_zero_iff_nil in Z.
      split; [|split].
      * simpl. rewrite mapGet_mapDelete_same. now rewrite Z.
      * intros e' Hne. simpl. rewrite mapGet_mapDelete_other by exact Hne.
        destruct (EventManager.mapGet e' (listeners (bus w))) as [a'|] eqn:G'; [|reflexivity].
        change (JsSet.values (EventManager.setAt a' w1) = JsSet.values (EventManager.setAt a' w)).
        rewrite Sb; [reflexivity|].
        apply (Other e' a' Hne). now apply mapGet_in.
      * unfold wellFormedBus. simpl. unfold EventManager.mapDelete.
        split; [now apply filter_keeps_distinct|]. split; [now apply filter_keeps_distinct|].
        intros e' a' Hin'. apply filter_In in Hin'. destruct Hin' as (Hin' & E).
        simpl in E. rewrite update_length.
        destruct (K3 e' a' Hin') as (L' & N'). split; [exact L'|].
        change (JsSet.values (EventManager.setAt a' w1) <> []).
        rewrite Sb; [exact N'|].
        apply (Other e' a'); [|exact Hin'].
        intros ->. now rewrite EventType_eqb_refl in E.
    + split; [|split].
      * fold w1. simpl. rewrite G, Sa. apply values_delete.
      * intros e' Hne. fold w1. simpl.
        destruct (EventManager.mapGet e' (listeners (bus w))) as [a'|] eqn:G'; [|reflexivity].
        rewrite Sb; [reflexivity|].
        apply (Other e' a' Hne). now apply mapGet_in.
      * fold w1. unfold wellFormedBus. simpl. split; [exact K1|]. split; [exact K2|].
        intros e' a' Hin'. rewrite update_length.
        destruct (K3 e' a' Hin') as (L' & N'). split; [exact L'|].
        change (JsSet.values (EventManager.setAt a' w1) <> []).
        destruct (Nat.eq_dec a' a) as [->|Hne].
        -- rewrite Sa, values_delete. intros E. rewrite E in Z. discriminate.
        -- now rewrite Sb.
  - rewrite G. split; [reflexivity|]. split; [reflexivity|].
    exact (conj K1 (conj K2 K3)).
Qed.

(** Unsubscribing twice is unsubscribing once. *)
Lemma off_idempotent (e : EventType) (h : Handler) (w : World) :
  EventManager.off e h (EventManager.off e h w) = EventManager.off e h w.
Proof.
  destruct (EventManager.mapGet e (listeners (bus w))) as [a|] eqn:G.
  - set (w1 := EventManager.updateSet a (JsSet.delete h) w).
    destruct (Nat.eqb (JsSet.size (EventManager.setAt a w1)) 0) eqn:Z.
    + assert (EventManager.off e h w =
              on_bus (fun b => set_listeners (EventManager.mapDelete e (listeners b)) b) w1)
        as -> by (unfold EventManager.off; rewrite G; fold w1; now rewrite Z).
      unfold EventManager.off. simpl. now rewrite mapGet_mapDelete_same.
    + assert (EventManager.off e h w = w1) as ->
        by (unfold EventManager.off; rewrite G; fold w1; now rewrite Z).
      unfold EventManager.off.
      change (listeners (bus w1)) with (listeners (bus w)). rewrite G.
      assert (EventManager.updateSet a (JsSet.delete h) w1 = w1) as ->.
      { unfold w1, EventManager.updateSet, on_bus, set_sets. simpl.
        rewrite update_idempotent by apply delete_idempotent. reflexivity. }
      now rewrite Z.
  - assert (EventManager.off e h w = w) as ->
      by (unfold EventManager.off; now rewrite G).
    unfold EventManager.off. now rewrite G.
Qed.

(* ===================================================================== *)
(** * Quiet steps                                                          *)
(* ===================================================================== *)

Lemma set_console_id (h : Host) : set_console (console h) h = h.
Proof. now destruct h. Qed.

Lemma set_currentState_id (c : Core) : set_currentState (currentState c) c = c.
Proof. now destruct c. Qed.

Lemma set_subscriptions_id (b : Bus) : set_listeners (listeners b) (set_sets (sets b) b) = b.
Proof. now destruct b. Qed.

Lemma quietStep_refl (w : World) : quietStep w w.
Proof.
  repeat split.
  - exists (console (host w)). now rewrite set_console_id.
  - exists (sets (bus w)), (listeners (bus w)). now rewrite set_subscriptions_id.
  - exists (currentState (core w)). now rewrite set_currentState_id.
Qed.

Lemma quietStep_trans (w1 w2 w3 : World) :
  quietStep w1 w2 -> quietStep w2 w3 -> quietStep w1 w3.
Proof.
  intros ((c1 & H1) & (s1 & l1 & B1) & (t1 & C1)) ((c2 & H2) & (s2 & l2 & B2) & (t2 & C2)).
  repeat split.
  - exists c2. rewrite H2, H1. reflexivity.
  - exists s2, l2. rewrite B2, B1. reflexivity.
  - exists t2. rewrite C2, C1. reflexivity.
Qed.

Lemma quietStep_log (f : Log -> Log) (w : World) : quietStep w (on_log f w).
Proof. exact (quietStep_refl w). Qed.

(** A step that changes the subscriptions only. *)
Lemma quietStep_subscriptions (w w' : World) :
  host w' = host w -> core w' = core w ->
  (exists ss ls, bus w' = set_listeners ls (set_sets ss (bus w))) ->
  quietStep w w'.
Proof.
  intros H C B. repeat split.
  - exists (console (host w)). now rewrite H, set_console_id.
  - exact B.
  - exists (currentState (core w)). now rewrite C, set_currentState_id.
Qed.

Lemma on_quiet (e : EventType) (h : Handler) (w : World) :
  quietStep w (EventManager.on e h w).
Proof.
  destruct (on_frame e h w) as (H & C & _).
  apply quietStep_subscriptions; [exact H | exact C |].
  destruct (EventManager.mapGet e (listeners (bus w))) as [a|] eqn:G.
  - rewrite (on_existing e h w a G). eexists. eexists. reflexivity.
  - rewrite (on_new e h w G). eexists. eexists. reflexivity.
Qed.

Lemma off_quiet (e : EventType) (h : Handler) (w : World) :
  quietStep w (EventManager.off e h w).
Proof.
  destruct (off_frame e h w) as (H & C & _).
  apply quietStep_subscriptions; [exact H | exact C |].
  unfold EventManager.off.
  destruct (EventManager.mapGet e (listeners (bus w))) as [a|].
  - match goal with |- context [if ?c then _ else _] => destruct c end;
      eexists; eexists; reflexivity.
  - exists (sets (bus w)), (listeners (bus w)). now rewrite set_subscriptions_id.
Qed.

Section QuietEmission.
Variable page : Page.

Lemma run_quiet (calls : list Call) (w : World) :
  quietStep w (fst (EventManager.run calls w)) /\
  (wellFormedBus w -> wellFormedBus (fst (EventManager.run calls w))).
Proof.
  revert w. induction calls as [|c rest IH]; intros w; simpl.
  - split; [apply quietStep_refl | auto].
  - destruct c as [e h|e h|]; simpl.
    + destruct (IH (EventManager.on e h w)) as (Q & W). split.
      * eapply quietStep_trans; [apply on_quiet | exact Q].
      * intros K. apply W. now apply on_registered.
    + destruct (IH (EventManager.off e h w)) as (Q & W). split.
      * eapply quietStep_trans; [apply off_quiet | exact Q].
      * intros K. apply W. now apply off_registered.
    + split; [apply quietStep_refl | auto].
Qed.

Lemma wellFormedBus_ext (w w' : World) :
  sets (bus w') = sets (bus w) -> listeners (bus w') = listeners (bus w) ->
  wellFormedBus w -> wellFormedBus w'.
Proof.
  unfold wellFormedBus, EventManager.setAt. intros -> ->. auto.
Qed.

Lemma invoke_quiet (e : EventType) (h : Handler) (args : list Value) (w : World) :
  quietStep w (EventManager.invoke page e h args w) /\
  (wellFormedBus w -> wellFormedBus (EventManager.invoke page e h args w)).
Proof.
  unfold EventManager.invoke.
  set (w0 := on_log _ w).
  destruct (run_quiet (page h args) w0) as (Q & W).
  destruct (EventManager.run (page h args) w0) as [w1 threw]. simpl in Q, W.
  assert (quietStep w w1) as Q1.
  { destruct Q as (Hh & Hb & Hc). repeat split; assumption. }
  assert (wellFormedBus w -> wellFormedBus w1) as W1.
  { intros K. apply W. now apply (wellFormedBus_ext w w0). }
  destruct threw; [|split; assumption].
  split.
  - destruct Q1 as ((c & Hh) & Hb & Hc). repeat split; try assumption.
    eexists. simpl. rewrite Hh. reflexivity.
  - intros K. apply (wellFormedBus_ext w1); [reflexivity | reflexivity | auto].
Qed.

Lemma forEach_quiet (fuel a i : nat) (e : EventType) (args : list Value) (w w' : World) :
  EventManager.forEach page fuel a i e args w = Some w' ->
  quietStep w w' /\ (wellFormedBus w -> wellFormedBus w').
Proof.
  revert i w. induction fuel as [|fuel IH]; intros i w; simpl; [discriminate|].
  destruct (nth_error (EventManager.setAt a w) i) as [[h|]|].
  - intros H. apply IH in H. destruct H as (Q & W).
    destruct (invoke_quiet e h args w) as (Q0 & W0). split.
    + apply (quietStep_trans w (EventManager.invoke page e h args w) w'); assumption.
    + auto.
  - apply IH.
  - intros [= <-]. split; [apply quietStep_refl | auto].
Qed.

Lemma emit_quiet (fuel : nat) (e : EventType) (args : list Value) (w w' : World) :
  EventManager.emit page fuel e args w = Some w' ->
  quietStep w w' /\ (wellFormedBus w -> wellFormedBus w').
Proof.
  unfold EventManager.emit. set (w0 := on_log _ w).
  assert (quietStep w w0) as Q0 by apply quietStep_log.
  assert (wellFormedBus w -> wellFormedBus w0) as W0 by auto.
  change (listeners (bus w0)) with (listeners (bus w)).
  destruct (EventManager.mapGet e (listeners (bus w))).
  - intros H. apply forEach_quiet in H. destruct H as (Q & W). split; [exact Q | auto].
  - intros [= <-]. split; [apply quietStep_log | auto].
Qed.

Lemma emitWhen_quiet (c : bool) (fuel : nat) (e : EventType) (args : list Value)
    (w w' : World) :
  ViewportCore.emitWhen page c fuel e args w = Some w' ->
  quietStep w w' /\ (wellFormedBus w -> wellFormedBus w').
Proof.
  unfold ViewportCore.emitWhen. destruct c; [apply emit_quiet|].
  intros [= <-]. split; [apply quietStep_refl | auto].
Qed.

Lemma updateState_quiet (fuel : nat) (w w' : World) :
  ViewportCore.updateState page fuel w = Some w' ->
  quietStep w w' /\ (wellFormedBus w -> wellFormedBus w').
Proof.
  unfold ViewportCore.updateState.
  destruct (isDestroyed (core w)); [intros [= <-]; split; [apply quietStep_refl | auto]|].
  destruct (window (host w)) as [win|];
    [|intros [= <-]; split; [apply quietStep_refl | auto]].
  set (s := calculateState (config (core w)) win).
  set (w1 := on_log _ (on_core _ w)).
  assert (quietStep w w1) as Q1.
  { repeat split.
    - exists (console (host w)). simpl. now rewrite set_console_id.
    - exists (sets (bus w)), (listeners (bus w)). simpl. now rewrite set_subscriptions_id.
    - exists (Some s). reflexivity. }
  assert (wellFormedBus w -> wellFormedBus w1) as W1 by auto.
  assert (forall v v', quietStep w v -> (wellFormedBus w -> wellFormedBus v) ->
            EventManager.emit page fuel resize [VState s] v = Some v' ->
            quietStep w v' /\ (wellFormedBus w -> wellFormedBus v')) as Last.
  { intros v v' Qv Wv H. apply emit_quiet in H. destruct H as (Q & W). split; [|auto].
    apply (quietStep_trans w v v'); assumption. }
  destruct (currentState (core w)) as [previous|].
  - unfold ViewportCore.emitChangeEvents.
    destruct (ViewportCore.emitWhen page _ fuel breakpointchange _ w1) as [v1|] eqn:E1;
      [|discriminate]. simpl.
    destruct (ViewportCore.emitWhen page _ fuel orientationchange _ v1) as [v2|] eqn:E2;
      [|discriminate]. simpl.
    destruct (ViewportCore.emitWhen page _ fuel touchchange _ v2) as [v3|] eqn:E3;
      [|discriminate]. simpl.
    apply emitWhen_quiet in E1, E2, E3.
    destruct E1 as (A1 & B1), E2 as (A2 & B2), E3 as (A3 & B3).
    apply Last; [|auto].
    apply (quietStep_trans w v2 v3); [|exact A3].
    apply (quietStep_trans w v1 v2); [|exact A2].
    apply (quietStep_trans w w1 v1); [exact Q1 | exact A1].
  - simpl. now apply Last.
Qed.
End QuietEmission.

(* ===================================================================== *)
(** * The invariant of an engine                                           *)
(* ===================================================================== *)

Lemma invariant_quiet (cfg : Config) (w w' : World) :
  invariant cfg w ->
  quietStep w w' ->
  wellFormedBus w' ->
  (forall s, currentState (core w') = Some s -> exists win, s = calculateState cfg win) ->
  (isDestroyed (core w') = true -> currentState (core w') = None) ->
  invariant cfg w'.
Proof.
  intros (I1 & I2 & I3 & I4 & I5 & I6 & I7 & I8 & I9)
         ((c & Hh) & (ss & ls & Hb) & (st & Hc)) W S D.
  unfold invariant.
  split; [rewrite Hc; exact I1|]. split; [exact W|]. split; [exact S|]. split; [exact D|].
  rewrite Hh, Hb, Hc. simpl. repeat split; try assumption;
    edestruct I9 as (? & ?); eauto.
Qed.

Section InvariantSteps.
Variable page : Page.
Variable cfg : Config.

Lemma updateState_invariant (fuel : nat) (w w' : World) :
  invariant cfg w -> ViewportCore.updateState page fuel w = Some w' -> invariant cfg w'.
Proof.
  intros I H. pose proof (updateState_quiet page fuel w w' H) as (Q & W).
  destruct (isDestroyed (core w)) eqn:Hd.
  - rewrite updateState_destroyed in H by exact Hd. injection H as <-. exact I.
  - destruct (window (host w)) as [win|] eqn:Hw.
    + destruct (updateState_cycle page fuel w w' win Hd Hw H) as (S & D & _).
      apply (invariant_quiet cfg w w' I Q).
      * apply W, I.
      * intros s Hs. rewrite S in Hs. injection Hs as <-. exists win.
        destruct I as (-> & _). reflexivity.
      * rewrite D. discriminate.
    + unfold ViewportCore.updateState in H. rewrite Hd, Hw in H. injection H as <-. exact I.
Qed.

Lemma recompute_invariant (fuel : nat) {A : Type} (l : list A) (w w' : World) :
  invariant cfg w ->
  fold_left (fun m _ => m >>= ViewportCore.updateState page fuel) l (Some w) = Some w' ->
  invariant cfg w'.
Proof.
  revert w. induction l as [|x l IH]; intros w I; simpl.
  - intros [= <-]. exact I.
  - destruct (ViewportCore.updateState page fuel w) as [w1|] eqn:U.
    + apply IH. now apply (updateState_invariant fuel w).
    + intros H. exfalso. clear -H. induction l as [|y l IHl]; simpl in H; [discriminate|].
      now apply IHl.
Qed.
End InvariantSteps.

Ltac invariant_parts w :=
  unfold invariant;
  split; [|split; [|split; [|split; [|split; [|split; [|split; [|split]]]]]]];
  simpl;
  [ try assumption
  | try (apply (wellFormedBus_ext w); [reflexivity | reflexivity | assumption])
  | try assumption | try assumption | | | | | ].

Lemma scheduleRAF_invariant (cfg : Config) (w : World) :
  invariant cfg w -> invariant cfg (ViewportCore.resizeObserverCallback w).
Proof.
  intros (I1 & I2 & I3 & I4 & I5 & I6 & I7 & I8 & I9).
  unfold ViewportCore.resizeObserverCallback, EventManager.freshClosure,
    EventManager.scheduleRAF.
  cbv beta iota. simpl.
  destruct (rafId (bus w)) as [id|] eqn:R; invariant_parts w; rewrite ?R;
    try assumption; try discriminate.
  - rewrite I5. reflexivity.
  - intros t Ht. specialize (I7 t Ht). lia.
Qed.

Lemma debounce_invariant (cfg : Config) (w : World) :
  invariant cfg w -> invariant cfg (EventManager.debounce (debounceDelay cfg) w).
Proof.
  intros (I1 & I2 & I3 & I4 & I5 & I6 & I7 & I8 & I9).
  unfold EventManager.debounce, Browser.setTimeout, Browser.clearTimeout.
  destruct (timeoutId (core w)) as [old|] eqn:T; invariant_parts w; try assumption.
  - intros t Ht. apply in_app_iff in Ht. destruct Ht as [Ht|[<-|[]]]; simpl; [|lia].
    apply filter_In in Ht. specialize (I7 t (proj1 Ht)). lia.
  - rewrite map_app. simpl. apply NoDup_app.
    + now apply filter_keeps_distinct.
    + repeat constructor. intros [].
    + intros x Hx [<-|[]]. apply in_map_iff in Hx. destruct Hx as (t & E & Ht).
      apply filter_In in Ht. specialize (I7 t (proj1 Ht)). lia.
  - intros id d' Hin. apply in_app_iff in Hin. destruct Hin as [Hin|[Hin|[]]].
    + apply filter_In in Hin. destruct Hin as (Hin & Ne). simpl in Ne.
      destruct (I9 id d' Hin) as (I9' & _). injection I9' as ->.
      now rewrite Nat.eqb_refl in Ne.
    + injection Hin as -> ->. auto.
  - intros t Ht. apply in_app_iff in Ht. destruct Ht as [Ht|[<-|[]]]; simpl; [|lia].
    specialize (I7 t Ht). lia.
  - rewrite map_app. simpl. apply NoDup_app.
    + exact I8.
    + repeat constructor. intros [].
    + intros x Hx [<-|[]]. apply in_map_iff in Hx. destruct Hx as (t & E & Ht).
      specialize (I7 t Ht). lia.
  - intros id d' Hin. apply in_app_iff in Hin. destruct Hin as [Hin|[Hin|[]]].
    + destruct (I9 id d' Hin) as (I9' & _). discriminate.
    + injection Hin as -> ->. auto.
Qed.

Lemma orientation_invariant (cfg : Config) (w : World) :
  invariant cfg w -> invariant cfg (snd (Browser.setTimeout OrientationSettled 100 w)).
Proof.
  intros (I1 & I2 & I3 & I4 & I5 & I6 & I7 & I8 & I9).
  unfold Browser.setTimeout. invariant_parts w; try assumption.
  - intros t Ht. apply in_app_iff in Ht. destruct Ht as [Ht|[<-|[]]]; simpl; [|lia].
    specialize (I7 t Ht). lia.
  - rewrite map_app. simpl. apply NoDup_app.
    + exact I8.
    + repeat constructor. intros [].
    + intros x Hx [<-|[]]. apply in_map_iff in Hx. destruct Hx as (t & E & Ht).
      specialize (I7 t Ht). lia.
  - intros id d' Hin. apply in_app_iff in Hin. destruct Hin as [Hin|[Hin|[]]].
    + now apply (I9 id d').
    + discriminate.
Qed.

Lemma listener_invariant (cfg : Config) (l : NativeListener) (w : World) :
  invariant cfg w -> invariant cfg (ViewportCore.listener l w).
Proof.
  intros I. destruct l.
  - simpl. destruct I as (I1 & I'). rewrite I1. apply debounce_invariant.
    split; [exact I1 | exact I'].
  - now apply orientation_invariant.
  - now apply scheduleRAF_invariant.
Qed.

Lemma dispatch_invariant (cfg : Config) (t : Target)
    (rs : list (Target * NativeListener)) (w : World) :
  invariant cfg w ->
  invariant cfg
    (fold_left (fun w' r => if ViewportCore.Target_eqb (fst r) t
                            then ViewportCore.listener (snd r) w' else w') rs w).
Proof.
  revert w. induction rs as [|r rs IH]; intros w I; simpl; [exact I|].
  apply IH. destruct (ViewportCore.Target_eqb (fst r) t); [|exact I].
  now apply listener_invariant.
Qed.

Lemma wellFormedBus_empty (w : World) : listeners (bus w) = [] -> wellFormedBus w.
Proof.
  intros E. unfold wellFormedBus. rewrite E. simpl.
  split; [constructor|]. split; [constructor|]. intros e a [].
Qed.

Lemma destroy_invariant (cfg : Config) (w : World) :
  invariant cfg w -> invariant cfg (ViewportCore.destroy w).
Proof.
  intros I. unfold ViewportCore.destroy.
  destruct (isDestroyed (core w)) eqn:D; [exact I|].
  destruct I as (I1 & I2 & I3 & I4 & I5 & I6 & I7 & I8 & I9).
  unfold EventManager.destroy, Browser.cancelAnimationFrame. simpl.
  destruct (resizeObserver (core w)); simpl; destruct (rafId (bus w)) as [id|] eqn:R;
    invariant_parts w; rewrite ?values_clear; try assumption; try discriminate;
    try reflexivity; try (now apply wellFormedBus_empty).
  - rewrite I5. simpl. now rewrite Nat.eqb_refl.
  - rewrite R. exact I5.
  - rewrite I5. simpl. now rewrite Nat.eqb_refl.
  - rewrite R. exact I5.
Qed.

Lemma invariant_subscriptions (cfg : Config) (w w' : World) :
  invariant cfg w -> quietStep w w' -> core w' = core w -> wellFormedBus w' ->
  invariant cfg w'.
Proof.
  intros I Q C W. apply (invariant_quiet cfg w w' I Q W); rewrite C; apply I.
Qed.

Section InvariantUses.
Variable page : Page.
Variable cfg : Config.

Lemma frame_invariant (fuel : nat) (w w' : World) :
  invariant cfg w ->
  ViewportCore.deliver page fuel ViewportCore.AnimationFrame w = Some w' ->
  invariant cfg w'.
Proof.
  intros I. pose proof I as (I1 & I2 & I3 & I4 & I5 & I6 & I7 & I8 & I9). simpl.
  rewrite I5. destruct (rafId (bus w)) as [id|] eqn:R; simpl.
  - unfold ViewportCore.frameCallback.
    apply (recompute_invariant page cfg fuel).
    invariant_parts w; rewrite ?values_clear; try assumption; reflexivity.
  - intros [= <-]. invariant_parts w; rewrite ?R; try assumption. reflexivity.
Qed.

Lemma timer_invariant (fuel id : nat) (w w' : World) :
  invariant cfg w ->
  ViewportCore.deliver page fuel (ViewportCore.TimerElapsed id) w = Some w' ->
  invariant cfg w'.
Proof.
  intros I. pose proof I as (I1 & I2 & I3 & I4 & I5 & I6 & I7 & I8 & I9). simpl.
  destruct (find _ (timers (host w))) as [t|]; [|intros [= <-]; exact I].
  assert (invariant cfg (Browser.clearTimeout (Some id) w)) as I'.
  { unfold Browser.clearTimeout. invariant_parts w; try assumption.
    - intros x Hx. apply filter_In in Hx. now apply I7.
    - now apply filter_keeps_distinct.
    - intros i d Hin. apply filter_In in Hin. now apply (I9 i d). }
  destruct (snd t); simpl; now apply updateState_invariant.
Qed.

Lemma perform_invariant (fuel : nat) (o : Op) (w w' : World) :
  invariant cfg w -> perform page fuel o w = Some w' -> invariant cfg w'.
Proof.
  intros I. destruct o as [s|win|e h|e h| |]; simpl.
  - destruct s as [|t| |id].
    + simpl. destruct (observed (host w)); intros [= <-];
        [now apply scheduleRAF_invariant | exact I].
    + simpl. intros [= <-]. now apply dispatch_invariant.
    + now apply frame_invariant.
    + now apply timer_invariant.
  - intros [= <-]. destruct I as (I1 & I2 & I3 & I4 & I5 & I6 & I7 & I8 & I9).
    invariant_parts w; assumption.
  - intros [= <-]. unfold ViewportCore.on.
    apply (invariant_subscriptions cfg w); [exact I | apply on_quiet | apply on_frame |].
    apply on_registered, I.
  - intros [= <-]. unfold ViewportCore.off.
    apply (invariant_subscriptions cfg w); [exact I | apply off_quiet | apply off_frame |].
    apply off_registered, I.
  - unfold ViewportCore.getState.
    destruct (currentState (core w)); simpl.
    + intros [= <-]. exact I.
    + destruct (ViewportCore.updateState page fuel w) as [w1|] eqn:U; simpl; [|discriminate].
      intros [= <-]. now apply (updateState_invariant page cfg fuel w).
  - intros [= <-]. now apply destroy_invariant.
Qed.

Lemma performAll_invariant (fuel : nat) (ops : list Op) (w w' : World) :
  invariant cfg w -> performAll page fuel ops w = Some w' -> invariant cfg w'.
Proof.
  unfold performAll. revert w. induction ops as [|o ops IH]; intros w I; simpl.
  - intros [= <-]. exact I.
  - destruct (perform page fuel o w) as [w1|] eqn:P; simpl.
    + apply IH. now apply (perform_invariant fuel o w).
    + intros H. exfalso. clear -H. induction ops as [|y l IHl]; simpl in H; [discriminate|].
      now apply IHl.
Qed.
End InvariantUses.

Lemma setupEventListeners_scheduling (w : World) :
  frames (host (ViewportCore.setupEventListeners w)) = frames (host w) /\
  timers (host (ViewportCore.setupEventListeners w)) = timers (host w) /\
  nextHandle (host (ViewportCore.setupEventListeners w)) = nextHandle (host w) /\
  timeoutId (core (ViewportCore.setupEventListeners w)) = None.
Proof.
  unfold ViewportCore.setupEventListeners. simpl.
  destruct (hasResizeObserver (host w)); simpl;
    destruct (hasVisualViewport (host w)); simpl; auto.
Qed.

Lemma setupMediaQueries_scheduling (w : World) :
  frames (host (ViewportCore.setupMediaQueries w)) = frames (host w) /\
  timers (host (ViewportCore.setupMediaQueries w)) = timers (host w) /\
  nextHandle (host (ViewportCore.setupMediaQueries w)) = nextHandle (host w) /\
  timeoutId (core (ViewportCore.setupMediaQueries w)) = timeoutId (core w).
Proof.
  unfold ViewportCore.setupMediaQueries.
  generalize (JsObject.entries (allBreakpoints (config (core w)))). intros l.
  revert w. induction l as [|p l IH]; intros w; simpl; [auto|].
  match goal with |- context [fold_left ?f l ?x] =>
    destruct (IH x) as (H1 & H2 & H3 & H4) end.
  rewrite H1, H2, H3, H4. simpl. auto.
Qed.

Lemma create_invariant (vc : ViewportConfig) (h : Host) :
  frames h = [] -> timers h = [] ->
  invariant (mergeConfig vc) (ViewportCore.create vc h).
Proof.
  intros F T. unfold invariant, ViewportCore.create. simpl. rewrite F, T.
  repeat split; simpl; try constructor; try discriminate; try contradiction.
Qed.

Lemma setup_invariant (vc : ViewportConfig) (h : Host) :
  frames h = [] -> timers h = [] ->
  invariant (mergeConfig vc)
    (ViewportCore.setupMediaQueries (ViewportCore.setupEventListeners (ViewportCore.create vc h))).
Proof.
  intros F T. set (w0 := ViewportCore.create vc h).
  destruct (setupMediaQueries_frame (ViewportCore.setupEventListeners w0))
    as (H1 & H2 & H3 & H4 & H5 & H6).
  destruct (setupEventListeners_frame w0) as (G1 & G2 & G3 & G4 & G5 & G6).
  destruct (setupMediaQueries_scheduling (ViewportCore.setupEventListeners w0))
    as (M1 & M2 & M3 & M4).
  destruct (setupEventListeners_scheduling w0) as (E1 & E2 & E3 & E4).
  unfold invariant, wellFormedBus, EventManager.setAt.
  rewrite H1, H4, H5, H6, G1, G4, G5, G6, M1, M2, E1, E2. subst w0. simpl.
  rewrite F, T.
  repeat split; simpl; try constructor; try discriminate; try contradiction.
Qed.

Lemma new_invariant (page : Page) (fuel : nat) (vc : ViewportConfig) (h : Host) (w : World) :
  frames h = [] -> timers h = [] ->
  ViewportCore.new page fuel vc h = Some w -> invariant (mergeConfig vc) w.
Proof.
  intros F T. unfold ViewportCore.new, ViewportCore.initialize.
  destruct (window (host (ViewportCore.create vc h))).
  - apply updateState_invariant. now apply setup_invariant.
  - intros [= <-]. now apply create_invariant.
Qed.

Lemma reachable_invariant (page : Page) (vc : ViewportConfig) (w : World) :
  reachable page vc w -> invariant (mergeConfig vc) w.
Proof.
  intros (fuel & h & ops & F & T & R).
  destruct (ViewportCore.new page fuel vc h) as [w0|] eqn:N; simpl in R; [|discriminate].
  apply (performAll_invariant page (mergeConfig vc) fuel ops w0); [|exact R].
  now apply (new_invariant page fuel vc h).
Qed.

(* ===================================================================== *)
(** * The subscriptions of a running engine                                *)
(* ===================================================================== *)

Ltac reach h ops :=
  exists 0%nat, h, ops; split; [reflexivity | split; [reflexivity | vm_compute; reflexivity]].

Lemma getListenerCount_registered (e : EventType) (w : World) :
  EventManager.getListenerCount e w = length (registered e w).
Proof.
  unfold EventManager.getListenerCount, registered, JsSet.size.
  now destruct (EventManager.mapGet e (listeners (bus w))).
Qed.

Lemma filter_absent (h : Handler) (l : list Handler) :
  ~ In h l -> filter (fun x => negb (Nat.eqb x h)) l = l.
Proof.
  induction l as [|x l IH]; simpl; intros H; [reflexivity|].
  replace (Nat.eqb x h) with false
    by (symmetry; apply Nat.eqb_neq; intros ->; apply H; now left).
  simpl. rewrite IH; [reflexivity|]. intros Hin. apply H. now right.
Qed.

Lemma filter_app_absent (h : Handler) (l : list Handler) :
  ~ In h l -> filter (fun x => negb (Nat.eqb x h)) (l ++ [h]) = l.
Proof.
  intros H. rewrite filter_app, filter_absent by exact H. simpl.
  rewrite Nat.eqb_refl. simpl. apply app_nil_r.
Qed.

Lemma existsb_absent (h : Handler) (l : list Handler) :
  ~ In h l -> existsb (Nat.eqb h) l = false.
Proof.
  intros H. destruct (existsb (Nat.eqb h) l) eqn:E; [|reflexivity].
  apply existsb_exists in E. destruct E as (x & Hin & Hx).
  apply Nat.eqb_eq in Hx. subst x. contradiction.
Qed.

Lemma hasListeners_registered (w : World) :
  wellFormedBus w ->
  EventManager.hasListeners w = true <-> exists e, registered e w <> [].
Proof.
  intros (V1 & _ & V3). unfold EventManager.hasListeners.
  assert (listeners (bus w) = [] \/ exists e1 a1 l, listeners (bus w) = (e1, a1) :: l)
    as [L|(e1 & a1 & l & L)]
    by (destruct (listeners (bus w)) as [|[? ?] ?]; eauto).
  - rewrite L. simpl. split; [discriminate|].
    intros (e & He). unfold registered in He. rewrite L in He. exfalso. now apply He.
  - assert (In (e1, a1) (listeners (bus w))) as Hin by (rewrite L; now left).
    split; [|rewrite L; reflexivity]. intros _.
    exists e1. unfold registered. rewrite (mapGet_unique e1 a1 _ V1 Hin).
    now apply (V3 e1 a1).
Qed.

(** X6. [on] registers a handler once: on a running engine it puts the
    handler behind the handlers already registered for the event, it does
    nothing when the handler is already registered for the event, and it
    leaves the handlers of every other event as they are. *)
Theorem on_registers_once (page : Page) (vc : ViewportConfig) (w : World)
    (e : EventType) (h : Handler) :
  reachable page vc w ->
  registered e (ViewportCore.on e h w) =
    (if existsb (Nat.eqb h) (registered e w) then registered e w
     else registered e w ++ [h]) /\
  (forall e', e' <> e -> registered e' (ViewportCore.on e h w) = registered e' w).
Proof.
  intros R. apply reachable_invariant in R. destruct R as (_ & W & _).
  destruct (on_registered e h w W) as (A & B & _). split; [exact A | exact B].
Qed.

Lemma on_registers_once_witness :
  reachable Sample.quiet Sample.defaults
    (ViewportCore.on resize 1%nat (Sample.engine false 1024 768)) /\
  registered resize
    (ViewportCore.on resize 2%nat
       (ViewportCore.on resize 1%nat (Sample.engine false 1024 768))) = [1%nat; 2%nat] /\
  registered resize
    (ViewportCore.on resize 1%nat
       (ViewportCore.on resize 1%nat (Sample.engine false 1024 768))) = [1%nat].
Proof.
  assert (reachable Sample.quiet Sample.defaults
            (ViewportCore.on resize 1%nat (Sample.engine false 1024 768))) as R
    by (reach (Sample.browser false 1024 768) [Subscribe resize 1%nat]).
  split; [exact R|]. split.
  - exact (proj1 (on_registers_once Sample.quiet Sample.defaults _ resize 2%nat R)).
  - exact (proj1 (on_registers_once Sample.quiet Sample.defaults _ resize 1%nat R)).
Defined.

(** X7. [off] removes the handler from the handlers of the event, keeps the
    other handlers of the event in their order, and leaves the handlers of
    every other event as they are; a handler that is not registered for
    the event is no error, and nothing changes. *)
Theorem off_removes_handler (page : Page) (vc : ViewportConfig) (w : World)
    (e : EventType) (h : Handler) :
  reachable page vc w ->
  registered e (ViewportCore.off e h w) =
    filter (fun x => negb (Nat.eqb x h)) (registered e w) /\
  (forall e', e' <> e -> registered e' (ViewportCore.off e h w) = registered e' w) /\
  (~ In h (registered e w) -> forall e', registered e' (ViewportCore.off e h w) = registered e' w).
Proof.
  intros R. apply reachable_invariant in R. destruct R as (_ & W & _).
  destruct (off_registered e h w W) as (A & B & _).
  split; [exact A|]. split; [exact B|].
  intros N e'. destruct (EventType_eqb e' e) eqn:E.
  - apply EventType_eqb_eq in E. subst e'.
    unfold ViewportCore.off in *. rewrite A. now apply filter_absent.
  - apply B. intros ->. now rewrite EventType_eqb_refl in E.
Qed.

Lemma off_removes_handler_witness :
  reachable Sample.quiet Sample.defaults
    (ViewportCore.on resize 1%nat (Sample.engine false 1024 768)) /\
  registered resize
    (ViewportCore.off resize 1%nat
       (ViewportCore.on resize 1%nat (Sample.engine false 1024 768))) = [].
Proof.
  assert (reachable Sample.quiet Sample.defaults
            (ViewportCore.on resize 1%nat (Sample.engine false 1024 768))) as R
    by (reach (Sample.browser false 1024 768) [Subscribe resize 1%nat]).
  split; [exact R|].
  exact (proj1 (off_removes_handler Sample.quiet Sample.defaults _ resize 1%nat R)).
Defined.

(** X8. The function that [on] returns undoes the subscription: when the
    handler was not registered for the event, [on] followed by [off] with
    the same event and handler leaves the handlers of every event as they
    were, and [hasListeners] answers as before. *)
Theorem on_then_off_round_trip (page : Page) (vc : ViewportConfig) (w : World)
    (e : EventType) (h : Handler) :
  reachable page vc w ->
  ~ In h (registered e w) ->
  (forall e', registered e' (ViewportCore.off e h (ViewportCore.on e h w)) = registered e' w) /\
  EventManager.hasListeners (ViewportCore.off e h (ViewportCore.on e h w))
  = EventManager.hasListeners w.
Proof.
  intros R N. apply reachable_invariant in R. destruct R as (_ & W & _).
  destruct (on_registered e h w W) as (A & B & W1).
  destruct (off_registered e h (EventManager.on e h w) W1) as (C & D & W2).
  unfold ViewportCore.on, ViewportCore.off.
  assert (forall e', registered e' (EventManager.off e h (EventManager.on e h w))
                     = registered e' w) as Reg.
  { intros e'. destruct (EventType_eqb e' e) eqn:E.
    - apply EventType_eqb_eq in E. subst e'.
      rewrite C, A, (existsb_absent h _ N). now apply filter_app_absent.
    - assert (e' <> e) as Hne by (intros ->; now rewrite EventType_eqb_refl in E).
      now rewrite (D e' Hne), (B e' Hne). }
  split; [exact Reg|].
  apply eq_true_iff_eq.
  rewrite (hasListeners_registered _ W2), (hasListeners_registered _ W).
  split; intros (e' & He'); exists e'; [now rewrite <- Reg | now rewrite Reg].
Qed.

Lemma on_then_off_round_trip_witness :
  reachable Sample.quiet Sample.defaults
    (ViewportCore.on resize 1%nat (Sample.engine false 1024 768)) /\
  ~ In 2%nat (registered resize (ViewportCore.on resize 1%nat (Sample.engine false 1024 768))) /\
  registered resize
    (ViewportCore.off resize 2%nat
       (ViewportCore.on resize 2%nat
          (ViewportCore.on resize 1%nat (Sample.engine false 1024 768)))) = [1%nat].
Proof.
  assert (reachable Sample.quiet Sample.defaults
            (ViewportCore.on resize 1%nat (Sample.engine false 1024 768))) as R
    by (reach (Sample.browser false 1024 768) [Subscribe resize 1%nat]).
  assert (~ In 2%nat (registered resize
                        (ViewportCore.on resize 1%nat (Sample.engine false 1024 768)))) as N
    by (vm_compute; intros [H|[]]; discriminate).
  split; [exact R|]. split; [exact N|].
  exact (proj1 (on_then_off_round_trip Sample.quiet Sample.defaults _ resize 2%nat R N) resize).
Defined.

(** X9. The map of listeners of a running engine holds no empty set:
    [hasListeners] answers true exactly when [getListenerCount] is positive
    for some event. *)
Theorem hasListeners_iff_counted (page : Page) (vc : ViewportConfig) (w : World) :
  reachable page vc w ->
  EventManager.hasListeners w = true <->
  exists e, (0 < EventManager.getListenerCount e w)%nat.
Proof.
  intros R. apply reachable_invariant in R. destruct R as (_ & W & _).
  rewrite (hasListeners_registered w W).
  split; intros (e & He); exists e; rewrite getListenerCount_registered in *.
  - destruct (registered e w); [contradiction | simpl; lia].
  - destruct (registered e w); [simpl in He; lia | discriminate].
Qed.

Lemma hasListeners_iff_counted_witness :
  reachable Sample.quiet Sample.defaults
    (ViewportCore.off resize 1%nat
       (ViewportCore.on resize 1%nat (Sample.engine false 1024 768))) /\
  (EventManager.hasListeners
     (ViewportCore.off resize 1%nat
        (ViewportCore.on resize 1%nat (Sample.engine false 1024 768))) = true <->
   exists e, (0 < EventManager.getListenerCount e
                    (ViewportCore.off resize 1%nat
                       (ViewportCore.on resize 1%nat (Sample.engine false 1024 768))))%nat).
Proof.
  assert (reachable Sample.quiet Sample.defaults
            (ViewportCore.off resize 1%nat
               (ViewportCore.on resize 1%nat (Sample.engine false 1024 768)))) as R
    by (reach (Sample.browser false 1024 768) [Subscribe resize 1%nat; Unsubscribe resize 1%nat]).
  split; [exact R|].
  exact (hasListeners_iff_counted Sample.quiet Sample.defaults _ R).
Defined.

(* ===================================================================== *)
(** * Emission as an iteration over the live handler set                   *)
(* ===================================================================== *)

Lemma values_firstn_skipn (i : nat) (s : JsSet.t) :
  JsSet.values (firstn i s) ++ JsSet.values (skipn i s) = JsSet.values s.
Proof.
  now rewrite <- values_app, firstn_skipn.
Qed.

Lemma entry_reached {A : Type} (i : nat) (l : list A) (x : A) :
  nth_error l i = Some x ->
  firstn (S i) l = firstn i l ++ [x] /\ skipn i l = x :: skipn (S i) l /\
  (i < length l)%nat.
Proof.
  revert l. induction i as [|i IH]; intros [|y l] H; try discriminate.
  - injection H as ->. simpl. split; [reflexivity|]. split; [reflexivity | lia].
  - simpl in H. destruct (IH l H) as (F & K & L).
    split; [|split; [|simpl; lia]].
    + change (y :: firstn (S i) l = y :: firstn i l ++ [x]). now rewrite F.
    + exact K.
Qed.

Lemma existsb_has (h : Handler) (s : JsSet.t) :
  existsb (Nat.eqb h) (JsSet.values s) = JsSet.has h s.
Proof.
  destruct (JsSet.has h s) eqn:E.
  - apply existsb_exists. exists h. split; [now apply has_present | apply Nat.eqb_refl].
  - destruct (existsb (Nat.eqb h) (JsSet.values s)) eqn:E'; [|reflexivity].
    apply existsb_exists in E'. destruct E' as (x & Hx & Hxh).
    apply Nat.eqb_eq in Hxh. subst x. apply has_present in Hx. congruence.
Qed.

Lemma values_nonempty (s : JsSet.t) : JsSet.values s <> [] -> s <> [].
Proof.
  intros H ->. now apply H.
Qed.

(** [on] for an event whose Set object is not the one at address [a]. *)
Lemma on_elsewhere (e' : EventType) (g : Handler) (a : nat) (w : World) :
  (a < length (sets (bus w)))%nat ->
  EventManager.mapGet e' (listeners (bus w)) <> Some a ->
  EventManager.setAt a (EventManager.on e' g w) = EventManager.setAt a w /\
  (a < length (sets (bus (EventManager.on e' g w))))%nat /\
  (forall e0, In (e0, a) (listeners (bus (EventManager.on e' g w))) ->
              In (e0, a) (listeners (bus w))) /\
  (forall e0, e0 <> e' ->
              EventManager.mapGet e0 (listeners (bus (EventManager.on e' g w)))
              = EventManager.mapGet e0 (listeners (bus w))).
Proof.
  intros La Ne.
  destruct (EventManager.mapGet e' (listeners (bus w))) as [a'|] eqn:G.
  - rewrite (on_existing e' g w a' G).
    unfold EventManager.setAt, EventManager.updateSet. simpl.
    rewrite update_length, nth_update_other by congruence. auto.
  - rewrite (on_new e' g w G).
    unfold EventManager.setAt, EventManager.updateSet. simpl.
    rewrite update_length, length_app, nth_update_other, app_nth1 by lia.
    split; [reflexivity|]. split; [simpl; lia|]. split.
    + intros e0 Hin. apply in_app_iff in Hin. destruct Hin as [Hin|[Hin|[]]]; [exact Hin|].
      injection Hin as _ Hn. lia.
    + intros e0 Hne. rewrite mapGet_app, mapGet_single.
      rewrite (EventType_eqb_neq e' e0) by congruence.
      now destruct (EventManager.mapGet e0 (listeners (bus w))).
Qed.

(** [off] for an event whose Set object is not the one at address [a]. *)
Lemma off_elsewhere (e' : EventType) (g : Handler) (a : nat) (w : World) :
  EventManager.mapGet e' (listeners (bus w)) <> Some a ->
  EventManager.setAt a (EventManager.off e' g w) = EventManager.setAt a w /\
  length (sets (bus (EventManager.off e' g w))) = length (sets (bus w)) /\
  (forall e0, In (e0, a) (listeners (bus (EventManager.off e' g w))) ->
              In (e0, a) (listeners (bus w))) /\
  (forall e0, e0 <> e' ->
              EventManager.mapGet e0 (listeners (bus (EventManager.off e' g w)))
              = EventManager.mapGet e0 (listeners (bus w))).
Proof.
  intros Ne. unfold EventManager.off.
  destruct (EventManager.mapGet e' (listeners (bus w))) as [a'|] eqn:G; [|auto].
  match goal with |- context [if ?c then _ else _] => destruct c end;
    unfold EventManager.setAt, EventManager.updateSet; simpl;
    rewrite update_length, nth_update_other by congruence;
    (split; [reflexivity|]); (split; [reflexivity|]).
  - split.
    + intros e0 Hin. unfold EventManager.mapDelete in Hin. apply filter_In in Hin. tauto.
    + intros e0 Hne. now apply mapGet_mapDelete_other.
  - auto.
Qed.

(** [off] for the event whose Set object is at address [a]. *)
Lemma off_here (e : EventType) (g : Handler) (a : nat) (w : World) :
  wellFormedBus w ->
  EventManager.mapGet e (listeners (bus w)) = Some a ->
  EventManager.setAt a (EventManager.off e g w) = JsSet.delete g (EventManager.setAt a w) /\
  length (sets (bus (EventManager.off e g w))) = length (sets (bus w)) /\
  listeners (bus (EventManager.off e g w)) =
    match JsSet.values (JsSet.delete g (EventManager.setAt a w)) with
    | [] => EventManager.mapDelete e (listeners (bus w))
    | _ => listeners (bus w)
    end.
Proof.
  intros (K1 & K2 & K3) G. destruct (K3 e a (mapGet_in _ _ _ G)) as (La & Na).
  split; [apply setAt_off; [exact G | now apply values_nonempty]|].
  unfold EventManager.off. rewrite G.
  assert (EventManager.setAt a (EventManager.updateSet a (JsSet.delete g) w)
          = JsSet.delete g (EventManager.setAt a w)) as Sa
    by (unfold EventManager.setAt, EventManager.updateSet; simpl; now apply nth_update).
  rewrite Sa. unfold JsSet.size.
  destruct (JsSet.values (JsSet.delete g (EventManager.setAt a w))); simpl;
    now rewrite update_length.
Qed.

Lemma represents_on (e e' : EventType) (g : Handler) (a i : nat) (w : World) (s : LiveSet) :
  represents e a i w s ->
  represents e a i (EventManager.on e' g w) (liveCall e (CallOn e' g) s).
Proof.
  intros (W & R). pose proof (proj2 (proj2 (on_registered e' g w W))) as W'.
  split; [exact W'|]. destruct s as [[visited pending]|]; simpl.
  - destruct R as (G & Li & V & P). pose proof W as (K1 & K2 & K3).
    destruct (K3 e a (mapGet_in _ _ _ G)) as (La & Na).
    destruct (EventType_eqb e' e) eqn:E.
    + apply EventType_eqb_eq in E. subst e'.
      destruct (setAt_on e g a w G (values_nonempty _ Na)) as (Sa & Ls).
      rewrite <- V, <- P, values_firstn_skipn, existsb_has.
      unfold JsSet.add in Sa.
      destruct (JsSet.has g (EventManager.setAt a w)); rewrite Sa, Ls.
      * auto.
      * rewrite length_app, firstn_app, skipn_app, !values_app.
        replace (i - length (EventManager.setAt a w))%nat with 0%nat by lia.
        simpl. rewrite app_nil_r. repeat split; [exact G | lia].
    + assert (e' <> e) as Hne by (intros ->; now rewrite EventType_eqb_refl in E).
      destruct (on_elsewhere e' g a w La) as (Sa & _ & _ & M).
      { intros G'. apply Hne.
        apply (same_address _ _ _ a K2 (mapGet_in _ _ _ G') (mapGet_in _ _ _ G)). }
      rewrite Sa, (M e) by congruence. auto.
  - destruct R as (La & No & V).
    destruct (on_elsewhere e' g a w La) as (Sa & La' & In' & _).
    { intros G'. apply (No e'). now apply mapGet_in. }
    rewrite Sa. split; [exact La'|]. split; [|exact V].
    intros e0 Hin. apply (No e0). now apply In'.
Qed.

Lemma represents_off (e e' : EventType) (g : Handler) (a i : nat) (w : World) (s : LiveSet) :
  represents e a i w s ->
  represents e a i (EventManager.off e' g w) (liveCall e (CallOff e' g) s).
Proof.
  intros (W & R). pose proof (proj2 (proj2 (off_registered e' g w W))) as W'.
  split; [exact W'|]. destruct s as [[visited pending]|]; simpl.
  - destruct R as (G & Li & V & P). pose proof W as (K1 & K2 & K3).
    destruct (K3 e a (mapGet_in _ _ _ G)) as (La & Na).
    destruct (EventType_eqb e' e) eqn:E.
    + apply EventType_eqb_eq in E. subst e'.
      destruct (off_here e g a w W G) as (Sa & Ln & Ls).
      assert (JsSet.values (firstn i (JsSet.delete g (EventManager.setAt a w)))
              = without g visited) as V'.
      { unfold JsSet.delete at 1. rewrite firstn_map.
        change (JsSet.values (JsSet.delete g (firstn i (EventManager.setAt a w)))
                = without g visited).
        now rewrite values_delete, V. }
      assert (JsSet.values (skipn i (JsSet.delete g (EventManager.setAt a w)))
              = without g pending) as P'.
      { unfold JsSet.delete at 1. rewrite skipn_map.
        change (JsSet.values (JsSet.delete g (skipn i (EventManager.setAt a w)))
                = without g pending).
        now rewrite values_delete, P. }
      assert (JsSet.values (JsSet.delete g (EventManager.setAt a w))
              = without g visited ++ without g pending) as All
        by (rewrite <- V', <- P'; symmetry; apply values_firstn_skipn).
      assert (length (JsSet.delete g (EventManager.setAt a w))
              = length (EventManager.setAt a w)) as Len
        by (unfold JsSet.delete; apply length_map).
      rewrite All in Ls.
      destruct (without g visited) as [|v vs] eqn:Wv;
        [destruct (without g pending) as [|p ps] eqn:Wp|].
      * simpl in Ls. rewrite Ln, Ls, Sa, All. split; [exact La|]. split; [|reflexivity].
        intros e0 Hin. unfold EventManager.mapDelete in Hin. apply filter_In in Hin.
        destruct Hin as (Hin & Hf). simpl in Hf.
        rewrite (same_address _ _ _ a K2 Hin (mapGet_in _ _ _ G)) in Hf.
        now rewrite EventType_eqb_refl in Hf.
      * simpl in Ls. rewrite Ls, Sa, V', P', Len. auto.
      * simpl in Ls. rewrite Ls, Sa, V', P', Len. auto.
    + assert (e' <> e) as Hne by (intros ->; now rewrite EventType_eqb_refl in E).
      destruct (off_elsewhere e' g a w) as (Sa & _ & _ & M).
      { intros G'. apply Hne.
        apply (same_address _ _ _ a K2 (mapGet_in _ _ _ G') (mapGet_in _ _ _ G)). }
      rewrite Sa, (M e) by congruence. auto.
  - destruct R as (La & No & V).
    destruct (off_elsewhere e' g a w) as (Sa & Ln & In' & _).
    { intros G'. apply (No e'). now apply mapGet_in. }
    rewrite Sa, Ln. split; [exact La|]. split; [|exact V].
    intros e0 Hin. apply (No e0). now apply In'.
Qed.

(** The calls of a callback do to the Set object what they do to the live
    set. *)
Lemma represents_run (e : EventType) (a i : nat) (calls : list Call) :
  forall (w : World) (s : LiveSet),
    represents e a i w s ->
    represents e a i (fst (EventManager.run calls w)) (liveScript e calls s).
Proof.
  induction calls as [|c rest IH]; intros w s R; simpl; [exact R|].
  destruct c as [e' g|e' g|]; simpl.
  - apply IH. now apply represents_on.
  - apply IH. now apply represents_off.
  - exact R.
Qed.

(** A step that changes neither the handler sets nor the map. *)
Lemma represents_bus (e : EventType) (a i : nat) (w w' : World) (s : LiveSet) :
  bus w' = bus w -> represents e a i w s -> represents e a i w' s.
Proof.
  unfold represents, wellFormedBus, EventManager.setAt. intros ->. auto.
Qed.

Lemma on_setAt_length (a : nat) (e : EventType) (h : Handler) (w : World) :
  (length (EventManager.setAt a (EventManager.on e h w))
   <= S (length (EventManager.setAt a w)))%nat.
Proof.
  assert (forall s, (length (JsSet.add h s) <= S (length s))%nat) as Add.
  { intros s. unfold JsSet.add. destruct (JsSet.has h s); [lia|].
    rewrite length_app. simpl. lia. }
  assert (forall (l : list JsSet.t) (x b : nat),
            (length (nth x (EventManager.update b (JsSet.add h) l) [])
             <= S (length (nth x l [])))%nat) as Upd.
  { induction l as [|y l IH]; intros x b.
    - destruct x, b; simpl; lia.
    - destruct x, b; simpl; try lia; [apply Add | apply IH]. }
  destruct (EventManager.mapGet e (listeners (bus w))) as [a'|] eqn:G.
  - rewrite (on_existing e h w a' G). unfold EventManager.setAt, EventManager.updateSet.
    simpl. apply Upd.
  - rewrite (on_new e h w G). unfold EventManager.setAt, EventManager.updateSet. simpl.
    etransitivity; [apply Upd|].
    destruct (Nat.lt_ge_cases a (length (sets (bus w)))) as [Lt|Ge].
    + rewrite app_nth1 by exact Lt. lia.
    + rewrite (nth_overflow (sets (bus w))) by exact Ge.
      destruct (Nat.eq_dec a (length (sets (bus w)))) as [->|Hne].
      * rewrite app_nth2, Nat.sub_diag by lia. simpl. lia.
      * rewrite nth_overflow; [simpl; lia|]. rewrite length_app. simpl. lia.
Qed.

Lemma run_setAt_grows (a : nat) (calls : list Call) :
  forall w : World,
    (length (EventManager.setAt a (fst (EventManager.run calls w)))
     <= length (EventManager.setAt a w)
        + length (filter (fun c => match c with CallOn _ _ => true | _ => false end) calls))%nat.
Proof.
  induction calls as [|c rest IH]; intros w; simpl; [lia|].
  destruct c as [e h|e h|]; simpl.
  - specialize (IH (EventManager.on e h w)).
    pose proof (on_setAt_length a e h w). lia.
  - specialize (IH (EventManager.off e h w)).
    rewrite off_setAt_length in IH. exact IH.
  - lia.
Qed.

Lemma subscriptions_cons (page : Page) (args : list Value) (h : Handler) (hs : list Handler) :
  subscriptions page args (h :: hs) =
  (length (filter (fun c => match c with CallOn _ _ => true | _ => false end) (page h args))
   + subscriptions page args hs)%nat.
Proof.
  unfold subscriptions. simpl. now rewrite filter_app, length_app.
Qed.

Lemma subscriptions_app (page : Page) (args : list Value) (l1 l2 : list Handler) :
  subscriptions page args (l1 ++ l2)
  = (subscriptions page args l1 + subscriptions page args l2)%nat.
Proof.
  induction l1 as [|h l1 IH]; [reflexivity|].
  simpl app. rewrite !subscriptions_cons, IH. lia.
Qed.

Lemma subscriptions_inert (page : Page) (args : list Value) (hs : list Handler) :
  (forall h, In h hs -> inert page args h) -> subscriptions page args hs = 0%nat.
Proof.
  induction hs as [|h hs IH]; intros I; [reflexivity|].
  rewrite subscriptions_cons, IH by (intros x Hx; apply I; now right).
  assert (inert page args h) as Ih by (apply I; now left).
  unfold inert in Ih. induction (page h args) as [|c rest IHr]; [reflexivity|].
  simpl. rewrite (Ih c) by now left. apply IHr. intros c' Hc'. apply Ih. now right.
Qed.

Lemma handlersAtEmit_registered (e : EventType) (w : World) :
  handlersAtEmit e w = map (pair e) (registered e w).
Proof.
  unfold handlersAtEmit, registered.
  now destruct (EventManager.mapGet e (listeners (bus w))).
Qed.

Section LiveIteration.
Variable page : Page.
Variables (e : EventType) (args : list Value).

Lemma invoke_bus (h : Handler) (w : World) :
  bus (EventManager.invoke page e h args w)
  = bus (fst (EventManager.run (page h args)
                (on_log (fun l => set_invoked (invoked l ++ [(e, h)]) l) w))).
Proof.
  unfold EventManager.invoke.
  destruct (EventManager.run (page h args) _) as [w1 threw]. now destruct threw.
Qed.

Lemma liveScript_inert (h : Handler) (s : LiveSet) :
  inert page args h -> liveScript e (page h args) s = s.
Proof.
  unfold inert. intros I. destruct (page h args) as [|c rest]; [reflexivity|].
  rewrite (I c) by now left. reflexivity.
Qed.

(** The iteration over handlers that are inert. *)
Lemma liveIteration_inert (pre : list Handler) :
  forall (n : nat) (visited rest : list Handler),
    (forall h, In h pre -> inert page args h) ->
    liveIteration page e args (length pre + n) (Some (visited, pre ++ rest)) =
    match liveIteration page e args n (Some (visited ++ pre, rest)) with
    | Some hs => Some (pre ++ hs)
    | None => None
    end.
Proof.
  induction pre as [|h pre IH]; intros n visited rest I.
  - simpl. rewrite app_nil_r. now destruct (liveIteration page e args n _).
  - simpl. rewrite liveScript_inert by (apply I; now left).
    rewrite IH by (intros x Hx; apply I; now right).
    rewrite <- app_assoc. simpl.
    now destruct (liveIteration page e args n _).
Qed.

(** [forEach] over the Set object invokes what the iteration over the live
    set that it holds invokes. *)
Lemma forEach_live (a : nat) :
  forall (fuel n : nat) (s : LiveSet) (hs : list Handler) (i : nat) (w : World),
    liveIteration page e args n s = Some hs ->
    represents e a i w s ->
    (length (EventManager.setAt a w) - i + subscriptions page args hs < fuel)%nat ->
    exists w',
      EventManager.forEach page fuel a i e args w = Some w' /\
      invoked (log w') = invoked (log w) ++ map (pair e) hs.
Proof.
  induction fuel as [|fuel IH]; intros n s hs i w L R F; [lia|]. simpl.
  destruct (nth_error (EventManager.setAt a w) i) as [[h|]|] eqn:N.
  - destruct (entry_reached _ _ _ N) as (Fi & Sk & Li).
    destruct s as [[visited pending]|].
    + destruct R as (W & G & _ & V & P).
      rewrite Sk in P. simpl in P. subst pending.
      destruct n as [|n]; [discriminate|]. simpl in L.
      destruct (liveIteration page e args n _) as [hs'|] eqn:L'; [|discriminate].
      injection L as <-.
      set (w0 := on_log (fun l => set_invoked (invoked l ++ [(e, h)]) l) w).
      assert (represents e a (S i) w0
                (Some (visited ++ [h], JsSet.values (skipn (S i) (EventManager.setAt a w)))))
        as R0.
      { split; [exact W|]. split; [exact G|]. split; [exact Li|].
        change (EventManager.setAt a w0) with (EventManager.setAt a w).
        rewrite Fi, values_app, V. auto. }
      apply (represents_run e a (S i) (page h args)) in R0.
      apply (represents_bus e a (S i) _ (EventManager.invoke page e h args w)) in R0;
        [|apply invoke_bus].
      pose proof (run_setAt_grows a (page h args) w0) as Grow.
      change (EventManager.setAt a w0) with (EventManager.setAt a w) in Grow.
      assert (EventManager.setAt a (EventManager.invoke page e h args w)
              = EventManager.setAt a (fst (EventManager.run (page h args) w0))) as Same
        by (unfold EventManager.setAt; now rewrite invoke_bus).
      rewrite subscriptions_cons in F.
      destruct (IH n _ hs' (S i) (EventManager.invoke page e h args w) L' R0)
        as (w' & -> & Lg).
      * rewrite Same. lia.
      * exists w'. split; [reflexivity|].
        rewrite Lg, invoke_invoked, <- app_assoc. reflexivity.
    + destruct R as (_ & _ & _ & V). exfalso.
      apply nth_error_In in N.
      assert (In h (JsSet.values (EventManager.setAt a w))) as Hin
        by (unfold JsSet.values; apply in_flat_map; exists (Some h); split;
            [exact N | now left]).
      rewrite V in Hin. destruct Hin.
  - destruct (entry_reached _ _ _ N) as (Fi & Sk & Li).
    apply (IH n s hs (S i) w L); [|lia].
    destruct R as (W & R). split; [exact W|].
    destruct s as [[visited pending]|]; [|exact R].
    destruct R as (G & _ & V & P). split; [exact G|]. split; [exact Li|].
    rewrite Fi, values_app, V. rewrite Sk in P. simpl in *.
    rewrite app_nil_r. auto.
  - exists w. split; [reflexivity|].
    assert (hs = []) as ->; [|now rewrite app_nil_r].
    destruct n as [|n]; [discriminate|]. simpl in L.
    destruct s as [[visited pending]|]; [|congruence].
    destruct R as (_ & _ & _ & _ & P).
    apply nth_error_None in N. rewrite skipn_all2 in P by exact N.
    simpl in P. subst pending. congruence.
Qed.

(** [emit] invokes what the iteration over the live set of the handlers
    registered for the event invokes. *)
Lemma emit_live (fuel n : nat) (hs : list Handler) (w : World) :
  wellFormedBus w ->
  liveIteration page e args n (Some ([], registered e w)) = Some hs ->
  (forall a, (length (EventManager.setAt a w) + subscriptions page args hs < fuel)%nat) ->
  exists w',
    EventManager.emit page fuel e args w = Some w' /\
    invokedSince w w' = map (pair e) hs.
Proof.
  intros W L F. unfold EventManager.emit, invokedSince, registered in *. simpl.
  destruct (EventManager.mapGet e (listeners (bus w))) as [a|] eqn:G.
  - match goal with |- context [EventManager.forEach page fuel a 0 e args ?x] =>
      destruct (forEach_live a fuel n _ hs 0 x L) as (w' & -> & Lg) end.
    + split; [exact W|]. simpl. rewrite G. repeat split. lia.
    + specialize (F a). unfold EventManager.setAt in *. simpl. lia.
    + exists w'. split; [reflexivity|]. rewrite Lg. simpl. apply skipn_length_app.
  - destruct n as [|n]; [discriminate|]. simpl in L. injection L as <-.
    eexists. split; [reflexivity|]. simpl.
    rewrite <- (app_nil_r (invoked (log w))) at 2. apply skipn_length_app.
Qed.

(** A handler that a registered handler subscribes is invoked by the
    emission in progress, after the handlers registered before it. *)
Lemma emit_invokes_added (fuel : nat) (w : World) (pre post : list Handler) (h g : Handler) :
  wellFormedBus w ->
  (forall a, (S (length (EventManager.setAt a w)) < fuel)%nat) ->
  registered e w = pre ++ h :: post ->
  ~ In g (registered e w) ->
  page h args = [CallOn e g] ->
  (forall x, In x (pre ++ post ++ [g]) -> inert page args x) ->
  exists w',
    EventManager.emit page fuel e args w = Some w' /\
    invokedSince w w' = map (pair e) (pre ++ h :: post ++ [g]).
Proof.
  intros W F Reg Fresh Ph I.
  apply (emit_live fuel (length pre + S (length (post ++ [g]) + 1)) _ w W).
  - rewrite Reg, liveIteration_inert by (intros x Hx; apply I; apply in_app_iff; now left).
    simpl. rewrite Ph. simpl. rewrite EventType_eqb_refl.
    replace (existsb (Nat.eqb g) ((pre ++ [h]) ++ post)) with false.
    + rewrite <- (app_nil_r (post ++ [g])) at 2.
      rewrite liveIteration_inert
        by (intros x Hx; apply I; apply in_app_iff; now right).
      cbn [liveIteration]. now rewrite app_nil_r.
    + symmetry. apply existsb_absent. rewrite <- app_assoc. simpl. now rewrite <- Reg.
  - intros a. specialize (F a).
    rewrite subscriptions_app, subscriptions_cons, Ph.
    rewrite !subscriptions_inert.
    + simpl. lia.
    + intros x Hx. apply I. apply in_app_iff. now right.
    + intros x Hx. apply I. apply in_app_iff. now left.
Qed.

(** A handler that a registered handler unsubscribes is not invoked by
    the emission in progress when it is registered behind that handler. *)
Lemma emit_skips_removed (fuel : nat) (w : World) (pre rest : list Handler) (h g : Handler) :
  wellFormedBus w ->
  (forall a, (length (EventManager.setAt a w) < fuel)%nat) ->
  registered e w = pre ++ h :: rest ->
  h <> g ->
  page h args = [CallOff e g] ->
  (forall x, In x pre -> inert page args x) ->
  (forall x, In x rest -> x <> g -> inert page args x) ->
  exists w',
    EventManager.emit page fuel e args w = Some w' /\
    invokedSince w w' = map (pair e) (pre ++ h :: without g rest).
Proof.
  intros W F Reg Hne Ph Ipre Irest.
  assert (forall x, In x (without g rest) -> inert page args x) as Iw.
  { intros x Hx. apply filter_In in Hx. destruct Hx as (Hx & Nx).
    apply Irest; [exact Hx|]. intros ->. now rewrite Nat.eqb_refl in Nx. }
  apply (emit_live fuel (length pre + S (length (without g rest) + 1)) _ w W).
  - rewrite Reg, liveIteration_inert by exact Ipre.
    simpl. rewrite Ph. simpl. rewrite EventType_eqb_refl.
    assert (without g (pre ++ [h]) = without g pre ++ [h]) as Wh.
    { unfold without. rewrite filter_app. simpl.
      replace (Nat.eqb h g) with false by (symmetry; now apply Nat.eqb_neq).
      reflexivity. }
    rewrite Wh.
    destruct (without g pre ++ [h]) as [|v vs] eqn:Nv;
      [now destruct (without g pre)|].
    rewrite <- (app_nil_r (without g rest)) at 2.
    rewrite liveIteration_inert by exact Iw.
    cbn [liveIteration]. now rewrite app_nil_r.
  - intros a. specialize (F a).
    rewrite subscriptions_app, subscriptions_cons, Ph.
    rewrite !subscriptions_inert by assumption.
    simpl. lia.
Qed.
End LiveIteration.

Section LiveIterationConverse.
Variable page : Page.
Variables (e : EventType) (args : list Value).

Lemma liveIteration_step (n : nat) (visited pending : list Handler) (h : Handler) :
  liveIteration page e args (S n) (Some (visited, h :: pending)) =
  match liveIteration page e args n
          (liveScript e (page h args) (Some (visited ++ [h], pending))) with
  | Some hs => Some (h :: hs)
  | None => None
  end.
Proof. reflexivity. Qed.

Lemma liveIteration_more (n : nat) :
  forall (s : LiveSet) (hs : list Handler),
    liveIteration page e args n s = Some hs ->
    liveIteration page e args (S n) s = Some hs.
Proof.
  induction n as [|n IH]; intros s hs L; [discriminate|].
  destruct s as [[visited [|h pending]]|]; try exact L.
  simpl in L.
  destruct (liveIteration page e args n _) as [hs'|] eqn:L'; [|discriminate].
  injection L as <-. apply IH in L'.
  now rewrite liveIteration_step, L'.
Qed.

(** What [forEach] has invoked when it returns is what the iteration over
    the live set invokes. *)
Lemma forEach_returned_live (a : nat) :
  forall (fuel : nat) (s : LiveSet) (i : nat) (w w' : World),
    EventManager.forEach page fuel a i e args w = Some w' ->
    represents e a i w s ->
    exists hs,
      liveIteration page e args fuel s = Some hs /\
      invoked (log w') = invoked (log w) ++ map (pair e) hs.
Proof.
  induction fuel as [|fuel IH]; intros s i w w' H R; [discriminate|]. simpl in H.
  destruct (nth_error (EventManager.setAt a w) i) as [[h|]|] eqn:N.
  - destruct (entry_reached _ _ _ N) as (Fi & Sk & Li).
    destruct s as [[visited pending]|].
    + destruct R as (W & G & _ & V & P).
      rewrite Sk in P.
      change (h :: JsSet.values (skipn (S i) (EventManager.setAt a w)) = pending) in P.
      subst pending.
      set (w0 := on_log (fun l => set_invoked (invoked l ++ [(e, h)]) l) w).
      assert (represents e a (S i) w0
                (Some (visited ++ [h], JsSet.values (skipn (S i) (EventManager.setAt a w)))))
        as R0.
      { split; [exact W|]. split; [exact G|]. split; [exact Li|].
        change (EventManager.setAt a w0) with (EventManager.setAt a w).
        rewrite Fi, values_app, V. auto. }
      apply (represents_run e a (S i) (page h args)) in R0.
      apply (represents_bus e a (S i) _ (EventManager.invoke page e h args w)) in R0;
        [|apply invoke_bus].
      destruct (IH _ _ _ _ H R0) as (hs' & L' & Lg).
      exists (h :: hs'). split.
      * rewrite liveIteration_step.
        match goal with |- match ?x with Some _ => _ | None => _ end = _ =>
          replace x with (Some hs') by (symmetry; exact L') end.
        reflexivity.
      * rewrite Lg, invoke_invoked, <- app_assoc. reflexivity.
    + destruct R as (_ & _ & _ & V). exfalso.
      apply nth_error_In in N.
      assert (In h (JsSet.values (EventManager.setAt a w))) as Hin
        by (unfold JsSet.values; apply in_flat_map; exists (Some h); split;
            [exact N | now left]).
      rewrite V in Hin. destruct Hin.
  - destruct (entry_reached _ _ _ N) as (Fi & Sk & Li).
    destruct (IH s (S i) w w' H) as (hs & L & Lg).
    + destruct R as (W & R). split; [exact W|].
      destruct s as [[visited pending]|]; [|exact R].
      destruct R as (G & _ & V & P). split; [exact G|]. split; [exact Li|].
      rewrite Fi, values_app, V. rewrite Sk in P. simpl in *.
      rewrite app_nil_r. auto.
    + exists hs. split; [now apply liveIteration_more | exact Lg].
  - injection H as <-. exists []. split; [|now rewrite app_nil_r].
    destruct s as [[visited pending]|]; [|reflexivity].
    destruct R as (_ & _ & _ & _ & P).
    apply nth_error_None in N. rewrite skipn_all2 in P by exact N.
    simpl in P. now subst pending.
Qed.

Lemma emit_returned_live (fuel : nat) (w w' : World) :
  wellFormedBus w ->
  EventManager.emit page fuel e args w = Some w' ->
  exists n hs,
    liveIteration page e args n (Some ([], registered e w)) = Some hs /\
    invokedSince w w' = map (pair e) hs.
Proof.
  intros W H. unfold EventManager.emit, invokedSince, registered in *. simpl in H.
  destruct (EventManager.mapGet e (listeners (bus w))) as [a|] eqn:G.
  - apply (forEach_returned_live a fuel (Some ([], JsSet.values (EventManager.setAt a w))))
      in H.
    + destruct H as (hs & L & Lg). exists fuel, hs. split; [exact L|].
      rewrite Lg. simpl. apply skipn_length_app.
    + split; [exact W|]. simpl. rewrite G. repeat split. lia.
  - injection H as <-. exists 1%nat, []. split; [reflexivity|]. simpl.
    rewrite <- (app_nil_r (invoked (log w))) at 2. apply skipn_length_app.
Qed.
End LiveIterationConverse.




(** With three handlers registered, of which the first unsubscribes the
    second: the emission invokes the first and the third. *)
Example emit_skips_removed_of_three :
  exists w',
    EventManager.emit Sample.removing 6 resize []
      (EventManager.on resize 3%nat
         (EventManager.on resize 2%nat
            (EventManager.on resize 1%nat (Sample.engine false 1024 768)))) = Some w' /\
    invokedSince
      (EventManager.on resize 3%nat
         (EventManager.on resize 2%nat
            (EventManager.on resize 1%nat (Sample.engine false 1024 768)))) w'
    = [(resize, 1%nat); (resize, 3%nat)].
Proof.
  eexists. split; vm_compute; reflexivity.
Qed.

(* ===================================================================== *)
(** * The state of a running engine                                        *)
(* ===================================================================== *)

Lemma getState_invariant (page : Page) (cfg : Config) (fuel : nat) (w w' : World)
    (r : option ViewportState) :
  invariant cfg w ->
  ViewportCore.getState page fuel w = Some (r, w') ->
  invariant cfg w' /\ r = currentState (core w').
Proof.
  intros I H. split.
  - apply (perform_invariant page cfg fuel GetState w w' I). simpl. now rewrite H.
  - unfold ViewportCore.getState in H.
    destruct (match currentState (core w) with
              | Some _ => Some w
              | None => ViewportCore.updateState page fuel w
              end) as [w1|]; simpl in H; [|discriminate].
    now injection H as <- <-.
Qed.

Lemma project_returned {A : Type} (page : Page) (field : ViewportState -> A)
    (fuel : nat) (w w' : World) (x : A) :
  ViewportCore.project page field fuel w = Some (ViewportCore.Returned x, w') ->
  exists s, ViewportCore.getState page fuel w = Some (Some s, w') /\ x = field s.
Proof.
  unfold ViewportCore.project.
  destruct (ViewportCore.getState page fuel w) as [[[s|] w1]|]; simpl; try discriminate.
  intros [= <- <-]. now exists s.
Qed.

Lemma project_stored {A : Type} (page : Page) (field : ViewportState -> A)
    (fuel : nat) (w : World) (s : ViewportState) :
  currentState (core w) = Some s ->
  ViewportCore.project page field fuel w = Some (ViewportCore.Returned (field s), w).
Proof.
  intros H. unfold ViewportCore.project. now rewrite (getState_stored page fuel w s H).
Qed.

Lemma project_null {A : Type} (page : Page) (field : ViewportState -> A)
    (fuel : nat) (w : World) :
  ViewportCore.getState page fuel w = Some (None, w) ->
  ViewportCore.project page field fuel w = Some (ViewportCore.TypeError, w).
Proof.
  intros H. unfold ViewportCore.project. now rewrite H.
Qed.

(** X10. On a running engine the methods [isMobile], [isTablet] and
    [isDesktop] agree on one device class: when [isMobile] returns a
    boolean, [isTablet] and [isDesktop] called next return without
    recomputing anything, and exactly one of the three answers is true. *)
Theorem device_class_methods_exclusive (page : Page) (vc : ViewportConfig) (fuel : nat)
    (w w' : World) (m : bool) :
  reachable page vc w ->
  ViewportCore.isMobile page fuel w = Some (ViewportCore.Returned m, w') ->
  exists t d,
    ViewportCore.isTablet page fuel w' = Some (ViewportCore.Returned t, w') /\
    ViewportCore.isDesktop page fuel w' = Some (ViewportCore.Returned d, w') /\
    ((m = true /\ t = false /\ d = false) \/
     (m = false /\ t = true /\ d = false) \/
     (m = false /\ t = false /\ d = true)).
Proof.
  intros R H. apply reachable_invariant in R.
  apply project_returned in H. destruct H as (s & G & ->).
  destruct (getState_invariant page _ fuel w w' _ R G) as (I & S). symmetry in S.
  exists (isTablet s), (isDesktop s).
  split; [exact (project_stored page (fun s => isTablet s) fuel w' s S)|].
  split; [exact (project_stored page (fun s => isDesktop s) fuel w' s S)|].
  destruct I as (_ & _ & I3 & _). destruct (I3 s S) as (win & ->). simpl.
  unfold calculateIsMobile, calculateIsTablet.
  destruct (innerWidth win <? mdBreakpoint (mergeConfig vc)) eqn:M;
    destruct (innerWidth win >=? mdBreakpoint (mergeConfig vc)) eqn:G';
    destruct (innerWidth win <? lgBreakpoint (mergeConfig vc)) eqn:L; simpl; auto; lia.
Qed.

Lemma device_class_methods_exclusive_witness :
  reachable Sample.quiet Sample.defaults Sample.narrowed /\
  ViewportCore.isMobile Sample.quiet 0 Sample.narrowed
  = Some (ViewportCore.Returned false, Sample.narrowed) /\
  exists t d,
    ViewportCore.isTablet Sample.quiet 0 Sample.narrowed
    = Some (ViewportCore.Returned t, Sample.narrowed) /\
    ViewportCore.isDesktop Sample.quiet 0 Sample.narrowed
    = Some (ViewportCore.Returned d, Sample.narrowed) /\
    ((false = true /\ t = false /\ d = false) \/
     (false = false /\ t = true /\ d = false) \/
     (false = false /\ t = false /\ d = true)).
Proof.
  assert (reachable Sample.quiet Sample.defaults Sample.narrowed) as R
    by (reach (Sample.browser false 1024 768) [SetWindow (Sample.viewport 480 800)]).
  assert (ViewportCore.isMobile Sample.quiet 0 Sample.narrowed
          = Some (ViewportCore.Returned false, Sample.narrowed)) as H
    by (vm_compute; reflexivity).
  split; [exact R|]. split; [exact H|].
  exact (device_class_methods_exclusive Sample.quiet Sample.defaults 0
           Sample.narrowed Sample.narrowed false R H).
Defined.

Lemma destroy_destroyed (w : World) : isDestroyed (core (ViewportCore.destroy w)) = true.
Proof.
  destruct (isDestroyed (core w)) eqn:D.
  - unfold ViewportCore.destroy. now rewrite D.
  - now apply destroy_core.
Qed.

(** X11. After [destroy] the methods that read the state throw: whatever
    the page and the browser do after [destroy] on a running engine, each
    of [isMobile], [isTablet], [isDesktop], [isTouch] and [getBreakpoint]
    ends in a [TypeError], for [getState] hands them [null]. *)
Theorem methods_throw_after_destroy (page : Page) (vc : ViewportConfig) (fuel : nat)
    (ops : list Op) (w : World) :
  reachable page vc w ->
  exists w',
    performAll page fuel ops (ViewportCore.destroy w) = Some w' /\
    ViewportCore.isMobile page fuel w' = Some (ViewportCore.TypeError, w') /\
    ViewportCore.isTablet page fuel w' = Some (ViewportCore.TypeError, w') /\
    ViewportCore.isDesktop page fuel w' = Some (ViewportCore.TypeError, w') /\
    ViewportCore.isTouch page fuel w' = Some (ViewportCore.TypeError, w') /\
    ViewportCore.getBreakpoint page fuel w' = Some (ViewportCore.TypeError, w').
Proof.
  intros R. apply reachable_invariant in R.
  pose proof (destroy_invariant _ w R) as (_ & _ & _ & I4 & _).
  pose proof (destroy_destroyed w) as D.
  destruct (performAll_destroyed page fuel ops _ D (I4 D)) as (w' & P & D' & S' & _).
  exists w'. split; [exact P|].
  assert (ViewportCore.getState page fuel w' = Some (None, w')) as G.
  { unfold ViewportCore.getState. rewrite S', updateState_destroyed by exact D'.
    simpl. now rewrite S'. }
  unfold ViewportCore.isMobile, ViewportCore.isTablet, ViewportCore.isDesktop,
    ViewportCore.isTouch, ViewportCore.getBreakpoint.
  repeat split; now apply project_null.
Qed.

Lemma methods_throw_after_destroy_witness :
  reachable Sample.quiet Sample.defaults (Sample.engine false 1024 768) /\
  exists w',
    performAll Sample.quiet 0 [SetWindow (Sample.viewport 480 800); GetState]
      (ViewportCore.destroy (Sample.engine false 1024 768)) = Some w' /\
    ViewportCore.isMobile Sample.quiet 0 w' = Some (ViewportCore.TypeError, w') /\
    ViewportCore.isTablet Sample.quiet 0 w' = Some (ViewportCore.TypeError, w') /\
    ViewportCore.isDesktop Sample.quiet 0 w' = Some (ViewportCore.TypeError, w') /\
    ViewportCore.isTouch Sample.quiet 0 w' = Some (ViewportCore.TypeError, w') /\
    ViewportCore.getBreakpoint Sample.quiet 0 w' = Some (ViewportCore.TypeError, w').
Proof.
  assert (reachable Sample.quiet Sample.defaults (Sample.engine false 1024 768)) as R
    by (reach (Sample.browser false 1024 768) (@nil Op)).
  split; [exact R|].
  exact (methods_throw_after_destroy Sample.quiet Sample.defaults 0
           [SetWindow (Sample.viewport 480 800); GetState] _ R).
Defined.

(** X12. Where there is no [window] the constructor touches nothing in the
    host and stores no state, and the engine it returns has nothing to
    give: [getState] returns [null], and the methods that read a field of
    the state throw. *)
Theorem without_window_no_state (page : Page) (fuel : nat) (vc : ViewportConfig) (h : Host) :
  window h = None ->
  exists w,
    ViewportCore.new page fuel vc h = Some w /\
    host w = h /\
    ViewportCore.getState page fuel w = Some (None, w) /\
    ViewportCore.isMobile page fuel w = Some (ViewportCore.TypeError, w) /\
    ViewportCore.isTablet page fuel w = Some (ViewportCore.TypeError, w) /\
    ViewportCore.isDesktop page fuel w = Some (ViewportCore.TypeError, w) /\
    ViewportCore.isTouch page fuel w = Some (ViewportCore.TypeError, w) /\
    ViewportCore.getBreakpoint page fuel w = Some (ViewportCore.TypeError, w).
Proof.
  intros Hw. exists (ViewportCore.create vc h).
  assert (ViewportCore.getState page fuel (ViewportCore.create vc h)
          = Some (None, ViewportCore.create vc h)) as G.
  { unfold ViewportCore.getState, ViewportCore.updateState. simpl. now rewrite Hw. }
  split; [unfold ViewportCore.new, ViewportCore.initialize; simpl; now rewrite Hw|].
  split; [reflexivity|]. split; [exact G|].
  unfold ViewportCore.isMobile, ViewportCore.isTablet, ViewportCore.isDesktop,
    ViewportCore.isTouch, ViewportCore.getBreakpoint.
  repeat split; now apply project_null.
Qed.

Lemma without_window_no_state_witness :
  window (mkHost None true true [] [] 1%nat [] false []) = None /\
  exists w,
    ViewportCore.new Sample.quiet 0 Sample.defaults
      (mkHost None true true [] [] 1%nat [] false []) = Some w /\
    host w = mkHost None true true [] [] 1%nat [] false [] /\
    ViewportCore.getState Sample.quiet 0 w = Some (None, w) /\
    ViewportCore.isMobile Sample.quiet 0 w = Some (ViewportCore.TypeError, w) /\
    ViewportCore.isTablet Sample.quiet 0 w = Some (ViewportCore.TypeError, w) /\
    ViewportCore.isDesktop Sample.quiet 0 w = Some (ViewportCore.TypeError, w) /\
    ViewportCore.isTouch Sample.quiet 0 w = Some (ViewportCore.TypeError, w) /\
    ViewportCore.getBreakpoint Sample.quiet 0 w = Some (ViewportCore.TypeError, w).
Proof.
  split; [reflexivity|].
  apply (without_window_no_state Sample.quiet 0 Sample.defaults
           (mkHost None true true [] [] 1%nat [] false [])).
  reflexivity.
Defined.

(* ===================================================================== *)
(** * What a running engine has pending in the browser                     *)
(* ===================================================================== *)

Lemma in_debounceTimers (t : nat * Z * TimerCallback) (w : World) :
  In t (debounceTimers w) <->
  In t (timers (host w)) /\ snd t = DebounceElapsed.
Proof.
  unfold debounceTimers. rewrite filter_In.
  destruct t as [[id d] cb]. simpl. destruct cb; split; intros [H1 H2]; split;
    try assumption; try reflexivity; discriminate.
Qed.

Lemma NoDup_map_single {A B : Type} (f : A -> B) (l : list A) :
  NoDup (map f l) -> (forall x y, In x l -> In y l -> f x = f y) -> (length l <= 1)%nat.
Proof.
  destruct l as [|x [|y l]]; simpl; intros N H; [lia | lia |].
  exfalso. inversion N as [|? ? Hn _]; subst. apply Hn. left.
  symmetry. apply H; auto.
Qed.

Lemma recompute_quiet (page : Page) (fuel : nat) {A : Type} (l : list A) (w w' : World) :
  fold_left (fun m _ => m >>= ViewportCore.updateState page fuel) l (Some w) = Some w' ->
  quietStep w w'.
Proof.
  revert w. induction l as [|x l IH]; intros w; simpl.
  - intros [= <-]. apply quietStep_refl.
  - destruct (ViewportCore.updateState page fuel w) as [w1|] eqn:U.
    + intros H. apply (quietStep_trans w w1 w'); [|now apply IH].
      now apply (updateState_quiet page fuel w w1).
    + intros H. exfalso. clear -H. induction l as [|y l IHl]; simpl in H; [discriminate|].
      now apply IHl.
Qed.

(** X13. A running engine has at most one animation frame requested at any
    time, and callbacks wait in the queue of [scheduleRAF] only while that
    frame is pending. *)
Theorem at_most_one_frame_pending (page : Page) (vc : ViewportConfig) (w : World) :
  reachable page vc w ->
  (length (frames (host w)) <= 1)%nat /\
  (frames (host w) = [] -> JsSet.values (rafCallbacks (bus w)) = []) /\
  (forall id, rafId (bus w) = Some id <-> frames (host w) = [id]).
Proof.
  intros R. apply reachable_invariant in R.
  destruct R as (_ & _ & _ & _ & I5 & I6 & _).
  rewrite I5. destruct (rafId (bus w)) as [id|]; simpl.
  - split; [lia|]. split; [discriminate|].
    intros id'. split; intros [= ->]; reflexivity.
  - split; [lia|]. split; [intros _; now apply I6|].
    intros id'. split; discriminate.
Qed.

Lemma at_most_one_frame_pending_witness :
  reachable Sample.quiet Sample.defaults
    (ViewportCore.resizeObserverCallback Sample.observing) /\
  (length (frames (host (ViewportCore.resizeObserverCallback Sample.observing))) <= 1)%nat.
Proof.
  assert (reachable Sample.quiet Sample.defaults
            (ViewportCore.resizeObserverCallback Sample.observing)) as R
    by (reach (Sample.browser true 1024 768)
              [Native ViewportCore.ResizeObserved; Native ViewportCore.ResizeObserved]).
  split; [exact R|].
  exact (proj1 (at_most_one_frame_pending Sample.quiet Sample.defaults _ R)).
Defined.

(** X14. When the animation frame of a running engine is delivered, the
    queue of [scheduleRAF] is emptied and no frame remains requested, so
    that the next call of [scheduleRAF] requests a frame again. *)
Theorem frame_delivery_empties_queue (page : Page) (vc : ViewportConfig) (fuel : nat)
    (w w' : World) :
  reachable page vc w ->
  ViewportCore.deliver page fuel ViewportCore.AnimationFrame w = Some w' ->
  frames (host w') = [] /\
  rafId (bus w') = None /\
  JsSet.values (rafCallbacks (bus w')) = [].
Proof.
  intros R H. apply reachable_invariant in R.
  pose proof (frame_invariant page _ fuel w w' R H) as (_ & _ & _ & _ & J5 & J6 & _).
  assert (rafId (bus w') = None) as N.
  { destruct R as (_ & _ & _ & _ & I5 & _). simpl in H. rewrite I5 in H.
    destruct (rafId (bus w)) as [id|] eqn:E; simpl in H.
    - unfold ViewportCore.frameCallback in H. apply recompute_quiet in H.
      destruct H as (_ & (ss & ls & B) & _). rewrite B. reflexivity.
    - injection H as <-. exact E. }
  rewrite N in J5. auto.
Qed.

Lemma frame_delivery_empties_queue_witness :
  reachable Sample.quiet Sample.defaults Sample.observing /\
  exists w',
    ViewportCore.deliver Sample.quiet 0 ViewportCore.AnimationFrame Sample.observing = Some w' /\
    frames (host w') = [] /\
    rafId (bus w') = None /\
    JsSet.values (rafCallbacks (bus w')) = [].
Proof.
  assert (reachable Sample.quiet Sample.defaults Sample.observing) as R
    by (reach (Sample.browser true 1024 768) [Native ViewportCore.ResizeObserved]).
  split; [exact R|].
  eexists. split; [vm_compute; reflexivity|].
  apply (frame_delivery_empties_queue Sample.quiet Sample.defaults 0 Sample.observing _ R).
  vm_compute. reflexivity.
Defined.

(** X15. A running engine has at most one timer of the debounced update
    pending at any time, and the delay of that timer is the configured
    [debounceDelay]. *)
Theorem at_most_one_debounce_timer (page : Page) (vc : ViewportConfig) (w : World) :
  reachable page vc w ->
  (length (debounceTimers w) <= 1)%nat /\
  forall id d cb, In (id, d, cb) (debounceTimers w) -> d = debounceDelay (mergeConfig vc).
Proof.
  intros R. apply reachable_invariant in R.
  destruct R as (_ & _ & _ & _ & _ & _ & _ & I8 & I9). split.
  - apply (NoDup_map_single (fun t => fst (fst t))).
    + unfold debounceTimers. now apply filter_keeps_distinct.
    + intros [[i d] c] [[i' d'] c'] Hx Hy.
      apply in_debounceTimers in Hx, Hy. simpl in *.
      destruct Hx as (Hx & ->), Hy as (Hy & ->).
      destruct (I9 i d Hx) as (E1 & _), (I9 i' d' Hy) as (E2 & _). congruence.
  - intros id d cb Hin. apply in_debounceTimers in Hin. simpl in Hin.
    destruct Hin as (Hin & ->). now destruct (I9 id d Hin).
Qed.

Lemma at_most_one_debounce_timer_witness :
  reachable Sample.quiet Sample.defaults
    (ViewportCore.listener DebouncedUpdate
       (ViewportCore.listener DebouncedUpdate (Sample.engine false 1024 768))) /\
  (length (debounceTimers
             (ViewportCore.listener DebouncedUpdate
                (ViewportCore.listener DebouncedUpdate (Sample.engine false 1024 768)))) <= 1)%nat.
Proof.
  assert (reachable Sample.quiet Sample.defaults
            (ViewportCore.listener DebouncedUpdate
               (ViewportCore.listener DebouncedUpdate (Sample.engine false 1024 768)))) as R
    by (reach (Sample.browser false 1024 768)
              [Native (ViewportCore.Dispatch WindowResize);
               Native (ViewportCore.Dispatch WindowResize)]).
  split; [exact R|].
  exact (proj1 (at_most_one_debounce_timer Sample.quiet Sample.defaults _ R)).
Defined.

Lemma filter_filter_none {A : Type} (p q : A -> bool) (l : list A) :
  (forall t, In t l -> q t = true -> p t = false) -> filter q (filter p l) = [].
Proof.
  induction l as [|t l IH]; simpl; intros H; [reflexivity|].
  destruct (p t) eqn:P; simpl.
  - destruct (q t) eqn:Q.
    + rewrite H in P; [discriminate | now left | exact Q].
    + apply IH. intros x Hx. apply H. now right.
  - apply IH. intros x Hx. apply H. now right.
Qed.

Lemma filter_true_id {A : Type} (l : list A) : filter (fun _ => true) l = l.
Proof.
  induction l as [|x l IH]; simpl; [reflexivity | now rewrite IH].
Qed.

(** X16. A call of the debounced update restarts the delay: on a running
    engine it leaves one timer of the debounced update pending, the one it
    has just set, with the configured [debounceDelay]; the timer that an
    earlier call had set is cleared. *)
Theorem debounced_call_restarts_delay (page : Page) (vc : ViewportConfig) (w : World) :
  reachable page vc w ->
  debounceTimers (ViewportCore.listener DebouncedUpdate w) =
  [(nextHandle (host w), debounceDelay (mergeConfig vc), DebounceElapsed)].
Proof.
  intros R. apply reachable_invariant in R.
  destruct R as (I1 & _ & _ & _ & _ & _ & _ & _ & I9).
  unfold debounceTimers, ViewportCore.listener, EventManager.debounce,
    Browser.setTimeout, Browser.clearTimeout.
  rewrite I1. destruct (timeoutId (core w)) as [old|] eqn:T; simpl.
  - rewrite filter_app. simpl. rewrite filter_filter_none; [reflexivity|].
    intros [[i d] c] Hin Hc. simpl in *. destruct c; [|discriminate].
    destruct (I9 i d Hin) as ([= ->] & _). now rewrite Nat.eqb_refl.
  - rewrite filter_app. simpl.
    rewrite <- (filter_true_id (timers (host w))) at 1.
    rewrite filter_filter_none; [reflexivity|].
    intros [[i d] c] Hin Hc. simpl in *. destruct c; [|discriminate].
    destruct (I9 i d Hin) as (E & _). discriminate.
Qed.

Lemma debounced_call_restarts_delay_witness :
  reachable Sample.quiet Sample.defaults
    (ViewportCore.listener DebouncedUpdate (Sample.engine false 1024 768)) /\
  debounceTimers
    (ViewportCore.listener DebouncedUpdate
       (ViewportCore.listener DebouncedUpdate (Sample.engine false 1024 768)))
  = [(2%nat, 100, DebounceElapsed)].
Proof.
  assert (reachable Sample.quiet Sample.defaults
            (ViewportCore.listener DebouncedUpdate (Sample.engine false 1024 768))) as R
    by (reach (Sample.browser false 1024 768) [Native (ViewportCore.Dispatch WindowResize)]).
  split; [exact R|].
  exact (debounced_call_restarts_delay Sample.quiet Sample.defaults _ R).
Defined.

(** X17. Every state that [getState] returns on a running engine is the
    state of some window computed under the options given to the
    constructor: no use of the engine changes its configuration, and no
    state comes from anywhere but [calculateState]. *)
Theorem stored_state_from_configuration (page : Page) (vc : ViewportConfig) (fuel : nat)
    (w w' : World) (s : ViewportState) :
  reachable page vc w ->
  ViewportCore.getState page fuel w = Some (Some s, w') ->
  config (core w') = mergeConfig vc /\
  exists win, s = calculateState (mergeConfig vc) win.
Proof.
  intros R G. apply reachable_invariant in R.
  destruct (getState_invariant page _ fuel w w' _ R G) as ((I1 & _ & I3 & _) & S).
  split; [exact I1|]. apply I3. now symmetry.
Qed.

Lemma stored_state_from_configuration_witness :
  reachable Sample.quiet Sample.defaults Sample.narrowed /\
  exists s,
    ViewportCore.getState Sample.quiet 0 Sample.narrowed = Some (Some s, Sample.narrowed) /\
    config (core Sample.narrowed) = mergeConfig Sample.defaults /\
    exists win, s = calculateState (mergeConfig Sample.defaults) win.
Proof.
  assert (reachable Sample.quiet Sample.defaults Sample.narrowed) as R
    by (reach (Sample.browser false 1024 768) [SetWindow (Sample.viewport 480 800)]).
  split; [exact R|].
  eexists. split; [vm_compute; reflexivity|].
  apply (stored_state_from_configuration Sample.quiet Sample.defaults 0
           Sample.narrowed Sample.narrowed _ R).
  vm_compute. reflexivity.
Defined.

(* ===================================================================== *)
(** * The events of one recomputation                                      *)
(* ===================================================================== *)

Lemma emitChangeEvents_emitted (page : Page) (fuel : nat)
    (previous new : ViewportState) (w w' : World) :
  ViewportCore.emitChangeEvents page fuel previous new w = Some w' ->
  emitted (log w') =
    emitted (log w)
    ++ (if String.eqb (breakpoint previous) (breakpoint new) then []
        else [(breakpointchange, [VString (breakpoint new); VString (breakpoint previous)])])
    ++ (if ViewportCore.Orientation_eqb (orientation previous) (orientation new) then []
        else [(orientationchange, [VOrientation (orientation new)])])
    ++ (if Bool.eqb (isTouch previous) (isTouch new) then []
        else [(touchchange, [VBool (isTouch new)])]).
Proof.
  unfold ViewportCore.emitChangeEvents. intros H.
  destruct (ViewportCore.emitWhen page _ fuel breakpointchange _ w) as [v1|] eqn:E1;
    [|discriminate].
  unfold andThen at 2 in H.
  destruct (ViewportCore.emitWhen page _ fuel orientationchange _ v1) as [v2|] eqn:E2;
    [|discriminate].
  unfold andThen in H.
  apply emitWhen_frame in E1, E2, H.
  destruct E1 as (_ & E1 & _), E2 as (_ & E2 & _), H as (_ & E3 & _).
  rewrite E3, E2, E1.
  destruct (String.eqb (breakpoint previous) (breakpoint new));
    destruct (ViewportCore.Orientation_eqb (orientation previous) (orientation new));
    destruct (Bool.eqb (isTouch previous) (isTouch new));
    cbn [negb]; rewrite <- ?app_assoc; reflexivity.
Qed.

(** X18. A recomputation on an engine that holds a state emits one event
    for each of the breakpoint, the orientation and the touch capability
    that differs between the stored state and the new one, in this order
    and with the new value first, and then [resize]; when the new state
    equals the stored one it emits [resize] alone. *)
Theorem cycle_emits_changed_fields (page : Page) (fuel : nat) (w w' : World)
    (win : Window) (previous new : ViewportState) :
  isDestroyed (core w) = false ->
  window (host w) = Some win ->
  currentState (core w) = Some previous ->
  new = calculateState (config (core w)) win ->
  ViewportCore.updateState page fuel w = Some w' ->
  emitted (log w') =
    emitted (log w)
    ++ (if String.eqb (breakpoint previous) (breakpoint new) then []
        else [(breakpointchange, [VString (breakpoint new); VString (breakpoint previous)])])
    ++ (if ViewportCore.Orientation_eqb (orientation previous) (orientation new) then []
        else [(orientationchange, [VOrientation (orientation new)])])
    ++ (if Bool.eqb (isTouch previous) (isTouch new) then []
        else [(touchchange, [VBool (isTouch new)])])
    ++ [(resize, [VState new])] /\
  (previous = new -> emitted (log w') = emitted (log w) ++ [(resize, [VState new])]).
Proof.
  intros Hd Hw Hp Hn H.
  assert (emitted (log w') =
    emitted (log w)
    ++ (if String.eqb (breakpoint previous) (breakpoint new) then []
        else [(breakpointchange, [VString (breakpoint new); VString (breakpoint previous)])])
    ++ (if ViewportCore.Orientation_eqb (orientation previous) (orientation new) then []
        else [(orientationchange, [VOrientation (orientation new)])])
    ++ (if Bool.eqb (isTouch previous) (isTouch new) then []
        else [(touchchange, [VBool (isTouch new)])])
    ++ [(resize, [VState new])]) as E.
  { unfold ViewportCore.updateState in H. rewrite Hd, Hw, Hp, <- Hn in H.
    match type of H with
    | context [ViewportCore.emitChangeEvents page fuel previous new ?x] =>
        destruct (ViewportCore.emitChangeEvents page fuel previous new x) as [v|] eqn:E1;
        [|discriminate]
    end.
    unfold andThen in H. apply emit_frame in H. destruct H as (_ & H & _).
    apply emitChangeEvents_emitted in E1. rewrite H, E1.
    cbn [log on_log on_core emitted set_recomputations].
    rewrite <- !app_assoc. reflexivity. }
  split; [exact E|].
  intros ->. rewrite E, String.eqb_refl, Bool.eqb_reflx.
  now destruct (orientation new).
Qed.

Lemma cycle_emits_changed_fields_witness :
  exists w',
    ViewportCore.updateState Sample.quiet 0 Sample.narrowed = Some w' /\
    emitted (log w') =
      emitted (log Sample.narrowed)
      ++ [(breakpointchange, [VString "xs"; VString "lg"]);
          (orientationchange, [VOrientation portrait]);
          (resize, [VState (calculateState (mergeConfig Sample.defaults)
                                           (Sample.viewport 480 800))])].
Proof.
  eexists. split; [vm_compute; reflexivity|].
  refine (proj1 (cycle_emits_changed_fields Sample.quiet 0 Sample.narrowed _
                   (Sample.viewport 480 800)
                   (calculateState (mergeConfig Sample.defaults) (Sample.viewport 1024 768))
                   (calculateState (mergeConfig Sample.defaults) (Sample.viewport 480 800))
                   _ _ _ _ _)); vm_compute; reflexivity.
Defined.

(* ===================================================================== *)
(** * Subscribers that throw                                               *)
(* ===================================================================== *)

Section Faults.
Variable page : Page.
Variables (e : EventType) (args : list Value).

Lemma invoke_fault (h : Handler) (w : World) :
  (forall c, In c (page h args) -> c = Throw) ->
  bus (EventManager.invoke page e h args w) = bus w /\
  invoked (log (EventManager.invoke page e h args w)) = invoked (log w) ++ [(e, h)] /\
  console (host (EventManager.invoke page e h args w)) =
    console (host w) ++ (if throws page h args then [e] else []).
Proof.
  intros H. unfold EventManager.invoke, throws.
  destruct (page h args) as [|c rest]; simpl.
  - rewrite app_nil_r. auto.
  - rewrite (H c) by now left. simpl. auto.
Qed.

Lemma forEach_faults (a : nat) (rest : JsSet.t) :
  forall (i fuel : nat) (w : World),
    skipn i (EventManager.setAt a w) = rest ->
    (forall h, In h (JsSet.values rest) -> forall c, In c (page h args) -> c = Throw) ->
    (length rest < fuel)%nat ->
    exists w',
      EventManager.forEach page fuel a i e args w = Some w' /\
      bus w' = bus w /\
      invoked (log w') = invoked (log w) ++ map (pair e) (JsSet.values rest) /\
      console (host w') =
        console (host w)
        ++ map (fun _ => e) (filter (fun h => throws page h args) (JsSet.values rest)).
Proof.
  induction rest as [|x rest IH]; intros i fuel w Hs I F;
    (destruct fuel as [|fuel]; [simpl in F; lia|]); simpl.
  - rewrite (skipn_nil_inv _ _ Hs). eexists. split; [reflexivity|].
    now rewrite !app_nil_r.
  - destruct (skipn_cons_inv _ _ _ _ Hs) as (N & Hs'). rewrite N.
    destruct x as [h|].
    + destruct (invoke_fault h w) as (B & V & C); [apply I; now left|].
      destruct (IH (S i) fuel (EventManager.invoke page e h args w))
        as (w' & -> & B' & V' & C').
      * unfold EventManager.setAt. rewrite B. exact Hs'.
      * intros h' Hh'. apply I. simpl. now right.
      * simpl in F. lia.
      * exists w'. split; [reflexivity|].
        rewrite B', V', C', B, V, C, <- !app_assoc. simpl.
        destruct (throws page h args); simpl; auto.
    + destruct (IH (S i) fuel w Hs') as (w' & -> & B' & V' & C').
      * intros h' Hh'. apply I. exact Hh'.
      * simpl in F. lia.
      * eauto.
Qed.
End Faults.

(** X19. A subscriber that throws does not stop an emission. When the
    handlers registered for the event neither subscribe nor unsubscribe,
    [emit] invokes every one of them, in the order of registration, also
    those behind a handler that throws; it reports one error on the
    console for each handler that throws, and the subscriptions are left
    as they were. *)
Theorem emit_survives_throwing_handlers (page : Page) (e : EventType) (args : list Value)
    (fuel : nat) (w : World) :
  (forall a, (length (EventManager.setAt a w) < fuel)%nat) ->
  (forall h, In h (registered e w) -> forall c, In c (page h args) -> c = Throw) ->
  exists w',
    EventManager.emit page fuel e args w = Some w' /\
    invokedSince w w' = map (pair e) (registered e w) /\
    console (host w') =
      console (host w)
      ++ map (fun _ => e) (filter (fun h => throws page h args) (registered e w)) /\
    forall e', registered e' w' = registered e' w.
Proof.
  intros F I. unfold EventManager.emit, invokedSince, registered in *. simpl.
  destruct (EventManager.mapGet e (listeners (bus w))) as [a|] eqn:G.
  - match goal with |- context [EventManager.forEach page fuel a 0 e args ?x] =>
      destruct (forEach_faults page e args a (EventManager.setAt a w) 0 fuel x)
        as (w' & -> & B & V & C) end.
    + reflexivity.
    + exact I.
    + apply F.
    + exists w'. split; [reflexivity|]. simpl in B, V, C.
      split; [rewrite V; apply skipn_length_app|]. split; [exact C|].
      intros e'. unfold EventManager.setAt. now rewrite B.
  - eexists. split; [reflexivity|]. simpl.
    split; [rewrite <- (app_nil_r (invoked (log w))) at 2; apply skipn_length_app|].
    split; [now rewrite app_nil_r | reflexivity].
Qed.

Lemma emit_survives_throwing_handlers_witness :
  exists w',
    EventManager.emit Sample.throwing 5 resize []
      (ViewportCore.on resize 2%nat
         (ViewportCore.on resize 1%nat (Sample.engine false 1024 768))) = Some w' /\
    invokedSince
      (ViewportCore.on resize 2%nat
         (ViewportCore.on resize 1%nat (Sample.engine false 1024 768))) w'
    = [(resize, 1%nat); (resize, 2%nat)] /\
    console (host w') = [resize].
Proof.
  destruct (emit_survives_throwing_handlers Sample.throwing resize [] 5
              (ViewportCore.on resize 2%nat
                 (ViewportCore.on resize 1%nat (Sample.engine false 1024 768))))
    as (w' & E & V & C & _).
  - intros a. destruct a as [|[|a]]; vm_compute; lia.
  - intros h Hh c Hc.
    vm_compute in Hh. destruct Hh as [<-|[<-|[]]].
    + vm_compute in Hc. destruct Hc as [<-|[]]. reflexivity.
    + vm_compute in Hc. destruct Hc.
  - exists w'. split; [exact E|]. split; [exact V | exact C].
Defined.

(* ===================================================================== *)
(** * What the constructor attaches                                        *)
(* ===================================================================== *)

Lemma setupEventListeners_registrations (w : World) :
  registrations (host (ViewportCore.setupEventListeners w)) =
    registrations (host w)
    ++ (if hasResizeObserver (host w) then [] else [(WindowResize, DebouncedUpdate)])
    ++ [(WindowOrientationChange, OrientationListener)]
    ++ (if hasVisualViewport (host w) then [(VisualViewportResize, DebouncedUpdate)] else []) /\
  observed (host (ViewportCore.setupEventListeners w)) =
    (hasResizeObserver (host w) || observed (host w)) /\
  resizeObserver (core (ViewportCore.setupEventListeners w)) =
    (hasResizeObserver (host w) || resizeObserver (core w)).
Proof.
  unfold ViewportCore.setupEventListeners. simpl.
  destruct (hasResizeObserver (host w)); simpl;
    destruct (hasVisualViewport (host w)); simpl;
    rewrite <- ?app_assoc, ?app_nil_r; auto.
Qed.

Lemma setupMediaQueries_fold (l : list (string * Z)) (w : World) :
  registrations
    (host (fold_left
       (fun w' p =>
          on_core (fun c => set_mediaQueryLists
                              (JsObject.set (fst p) (snd p) (mediaQueryLists c)) c)
                  (Browser.addEventListener (MediaQueryChange (snd p)) MediaQueryListener w'))
       l w)) =
    registrations (host w) ++ map (fun p => (MediaQueryChange (snd p), MediaQueryListener)) l /\
  observed
    (host (fold_left
       (fun w' p =>
          on_core (fun c => set_mediaQueryLists
                              (JsObject.set (fst p) (snd p) (mediaQueryLists c)) c)
                  (Browser.addEventListener (MediaQueryChange (snd p)) MediaQueryListener w'))
       l w)) = observed (host w).
Proof.
  revert w. induction l as [|p l IH]; intros w; simpl.
  - now rewrite app_nil_r.
  - match goal with |- context [fold_left ?f l ?x] => destruct (IH x) as (-> & ->) end.
    simpl. now rewrite <- app_assoc.
Qed.

(** X20. In a browser the constructor attaches one listener for
    [orientationchange], one media-query listener for each entry of the
    merged table, in the order of its enumeration, and the debounced update
    on the visual viewport where there is one; for resizes it observes the
    document element where there is a ResizeObserver, and listens to the
    [resize] event of the window only where there is none. *)
Theorem constructor_attaches (page : Page) (fuel : nat) (vc : ViewportConfig)
    (h : Host) (win : Window) (w : World) :
  window h = Some win ->
  ViewportCore.new page fuel vc h = Some w ->
  registrations (host w) =
    registrations h
    ++ (if hasResizeObserver h then [] else [(WindowResize, DebouncedUpdate)])
    ++ [(WindowOrientationChange, OrientationListener)]
    ++ (if hasVisualViewport h then [(VisualViewportResize, DebouncedUpdate)] else [])
    ++ map (fun p => (MediaQueryChange (snd p), MediaQueryListener))
           (JsObject.entries (allBreakpoints (mergeConfig vc))) /\
  observed (host w) = (hasResizeObserver h || observed h).
Proof.
  intros Hw. unfold ViewportCore.new, ViewportCore.initialize.
  set (w0 := ViewportCore.create vc h).
  replace (window (host w0)) with (Some win) by (symmetry; exact Hw).
  intros U. apply updateState_quiet in U. destruct U as (((c & Hh) & _) & _).
  rewrite Hh. unfold ViewportCore.setupMediaQueries.
  destruct (setupEventListeners_frame w0) as (_ & _ & _ & -> & _).
  destruct (setupMediaQueries_fold
              (JsObject.entries (allBreakpoints (config (core w0))))
              (ViewportCore.setupEventListeners w0)) as (A & B).
  destruct (setupEventListeners_registrations w0) as (C & D & _).
  cbn [registrations observed set_console].
  rewrite A, B, C, D. subst w0. simpl. rewrite <- !app_assoc. auto.
Qed.

Lemma constructor_attaches_witness :
  exists w,
    ViewportCore.new Sample.quiet 0 (Sample.withCustom [("tablet", 768)])
      (Sample.browser true 1024 768) = Some w /\
    registrations (host w) =
      [(WindowOrientationChange, OrientationListener);
       (MediaQueryChange 0, MediaQueryListener);
       (MediaQueryChange 576, MediaQueryListener);
       (MediaQueryChange 768, MediaQueryListener);
       (MediaQueryChange 992, MediaQueryListener);
       (MediaQueryChange 1200, MediaQueryListener);
       (MediaQueryChange 1400, MediaQueryListener);
       (MediaQueryChange 768, MediaQueryListener)] /\
    observed (host w) = true.
Proof.
  eexists. split; [vm_compute; reflexivity|].
  apply (constructor_attaches Sample.quiet 0 (Sample.withCustom [("tablet", 768)])
           (Sample.browser true 1024 768) (Sample.viewport 1024 768));
    vm_compute; reflexivity.
Defined.

(* ===================================================================== *)
(** * The viewport engine of the main instance                             *)
(* ===================================================================== *)

(** X21. The main instance passes no [breakpoints] option to its viewport
    engine, so that no option of the instance moves the device classes: in
    every state that the engine of an instance returns, the viewport is
    mobile below 768, tablet from 768 and below 992, and desktop from 992
    on, whatever custom breakpoints the instance is given. *)
Theorem instance_device_classes_fixed (page : Page) (c : BreakpointJS.BreakpointJSConfig)
    (fuel : nat) (w w' : World) (s : ViewportState) :
  reachable page (BreakpointJS.viewportConfig c) w ->
  ViewportCore.getState page fuel w = Some (Some s, w') ->
  isMobile s = (width s <? 768) /\
  isTablet s = ((width s >=? 768) && (width s <? 992)) /\
  isDesktop s = (width s >=? 992).
Proof.
  intros R G. apply reachable_invariant in R.
  destruct (getState_invariant page _ fuel w w' _ R G) as ((_ & _ & I3 & _) & S).
  destruct (I3 s) as (win & ->); [now symmetry|].
  simpl. unfold calculateIsMobile, calculateIsTablet.
  change (mdBreakpoint (mergeConfig (BreakpointJS.viewportConfig c))) with 768.
  change (lgBreakpoint (mergeConfig (BreakpointJS.viewportConfig c))) with 992.
  split; [reflexivity|]. split; [reflexivity|].
  destruct (innerWidth win <? 768) eqn:M; destruct (innerWidth win >=? 768) eqn:G';
    destruct (innerWidth win <? 992) eqn:L; simpl; lia.
Qed.

Lemma instance_device_classes_fixed_witness :
  exists w s,
    ViewportCore.new Sample.quiet 0
      (BreakpointJS.viewportConfig
         {| BreakpointJS.given_customBreakpoints := Some [("md", 500)];
            BreakpointJS.given_debounceDelay := None;
            BreakpointJS.given_enableTouch := None;
            BreakpointJS.given_enableHighDPI := None |})
      (Sample.browser true 520 800) = Some w /\
    ViewportCore.getState Sample.quiet 0 w = Some (Some s, w) /\
    breakpoint s = "md" /\
    isMobile s = (width s <? 768) /\
    isTablet s = ((width s >=? 768) && (width s <? 992)) /\
    isDesktop s = (width s >=? 992).
Proof.
  eexists. eexists.
  split; [vm_compute; reflexivity|].
  split; [vm_compute; reflexivity|].
  split; [reflexivity|].
  eapply (instance_device_classes_fixed Sample.quiet
            {| BreakpointJS.given_customBreakpoints := Some [("md", 500)];
               BreakpointJS.given_debounceDelay := None;
               BreakpointJS.given_enableTouch := None;
               BreakpointJS.given_enableHighDPI := None |} 0).
  - exists 0%nat, (Sample.browser true 520 800), (@nil Op).
    split; [reflexivity|]. split; [reflexivity|]. vm_compute. reflexivity.
  - vm_compute. reflexivity.
Defined.

(* ===================================================================== *)
(** * Uses of an engine return                                             *)
(* ===================================================================== *)

Section Returns.
Variable page : Page.
Variable fuel : nat.

(** The subscribers of the page do not subscribe while they run. *)
Hypothesis never_subscribes : forall h args e h', ~ In (CallOn e h') (page h args).

Lemma emitWhen_bounded (c : bool) (e : EventType) (args : list Value) (w : World) :
  bounded fuel w ->
  exists w', ViewportCore.emitWhen page c fuel e args w = Some w' /\ bounded fuel w'.
Proof.
  intros B. unfold ViewportCore.emitWhen. destruct c; [|eauto].
  now apply (emit_returns page never_subscribes).
Qed.

Lemma updateState_bounded (w : World) :
  bounded fuel w ->
  exists w', ViewportCore.updateState page fuel w = Some w' /\ bounded fuel w'.
Proof.
  intros B. unfold ViewportCore.updateState.
  destruct (isDestroyed (core w)); [eauto|].
  destruct (window (host w)) as [win|]; [|eauto].
  set (s := calculateState (config (core w)) win).
  set (w1 := on_log _ (on_core _ w)).
  assert (bounded fuel w1) as B1 by exact B.
  destruct (currentState (core w)) as [previous|].
  - unfold ViewportCore.emitChangeEvents.
    edestruct emitWhen_bounded as (v1 & -> & L1); [exact B1|]. simpl.
    edestruct emitWhen_bounded as (v2 & -> & L2); [exact L1|]. simpl.
    edestruct emitWhen_bounded as (v3 & -> & L3); [exact L2|]. simpl.
    now apply (emit_returns page never_subscribes).
  - simpl. now apply (emit_returns page never_subscribes).
Qed.

Lemma recompute_bounded {A : Type} (l : list A) (w : World) :
  bounded fuel w ->
  exists w',
    fold_left (fun m _ => m >>= ViewportCore.updateState page fuel) l (Some w) = Some w' /\
    bounded fuel w'.
Proof.
  revert w. induction l as [|x l IH]; intros w B; simpl; [eauto|].
  destruct (updateState_bounded w B) as (w1 & -> & B1). now apply IH.
Qed.

Lemma frameCallback_bounded (w : World) :
  bounded fuel w ->
  exists w', ViewportCore.frameCallback page fuel w = Some w' /\ bounded fuel w'.
Proof.
  intros B. unfold ViewportCore.frameCallback. apply recompute_bounded. exact B.
Qed.

Lemma frames_bounded (l : list nat) (w : World) :
  bounded fuel w ->
  exists w',
    fold_left (fun m _ => m >>= ViewportCore.frameCallback page fuel) l (Some w) = Some w' /\
    bounded fuel w'.
Proof.
  revert w. induction l as [|x l IH]; intros w B; simpl; [eauto|].
  destruct (frameCallback_bounded w B) as (w1 & -> & B1). now apply IH.
Qed.
End Returns.

(** X22. Every use of an engine returns when no subscriber subscribes
    while it runs: with a bound on the iteration that exceeds the number
    of entries of every handler set, a signal of the browser, a call of
    [getState], of [on], of [off] or of [destroy] yields a result. (A
    subscriber that unsubscribes and subscribes itself again can keep an
    emission running for ever.) *)
Theorem uses_return (page : Page) (fuel : nat) (o : Op) (w : World) :
  (forall h args e h', ~ In (CallOn e h') (page h args)) ->
  (forall a, (length (EventManager.setAt a w) < fuel)%nat) ->
  exists w', perform page fuel o w = Some w'.
Proof.
  intros N B. destruct o as [s|win|e h|e h| |]; simpl; eauto.
  - destruct s as [|t| |id]; simpl; eauto.
    + destruct (observed (host w)); eauto.
    + destruct (frames_bounded page fuel N (frames (host w)) (on_host (set_frames []) w))
        as (w' & -> & _); [exact B | eauto].
    + destruct (find _ (timers (host w))) as [t|]; [|eauto].
      destruct (updateState_bounded page fuel N (Browser.clearTimeout (Some id) w))
        as (w' & U & _); [exact B|].
      exists w'. destruct (snd t); exact U.
  - unfold ViewportCore.getState.
    destruct (currentState (core w)); simpl; [eauto|].
    destruct (updateState_bounded page fuel N w B) as (w' & -> & _). simpl. eauto.
Qed.

Lemma uses_return_witness :
  exists w',
    perform Sample.removing 5 (Native (ViewportCore.TimerElapsed 1%nat))
      (ViewportCore.listener DebouncedUpdate
         (ViewportCore.on resize 2%nat
            (ViewportCore.on resize 1%nat (Sample.engine false 1024 768)))) = Some w'.
Proof.
  apply (uses_return Sample.removing 5 (Native (ViewportCore.TimerElapsed 1%nat))).
  - intros h args e h'. unfold Sample.removing.
    destruct h as [|[|h]]; simpl; intros H; [exact H | | exact H].
    destruct H as [H|H]; [discriminate | exact H].
  - intros a. destruct a as [|[|a]]; vm_compute; lia.
Defined.
